(** * Variant picker: request keys, fragment cache, prefetch and resolution

    A shallow embedding of [assets/variant-picker.js] (class [VariantPicker]),
    of the preload queue and the debounce timer of [assets/product-card.js]
    (class [VariantImagePreloader]) and of the image filter of
    [assets/media-gallery.js] (class [MediaGallery]), with the properties
    the specification states about them.

    Conventions.
    - A JavaScript value of type [string | undefined] is an [option string];
      [truthy] is JavaScript truthiness on it, [template] is what a template
      literal prints for it.
    - The private [Map] [#htmlCache] is an association list in insertion
      order, which is the order a JavaScript [Map] iterates in.
    - A method that reads and writes the instance is a function in the monad
      [M] (state passing, with exceptions that keep the writes done before the
      [throw]).
    - What the browser does between two callbacks (an idle callback firing, a
      response arriving) is an [Event]; [step] runs the callback the event
      triggers.
    - [parseFromString], [JSON.parse] and [morph] come from outside the two
      files and are parameters. The hover handlers, which only rewrite the
      label next to the swatches, are left out. *)

From Stdlib Require Import String Ascii List Bool Arith Lia Permutation.
Import ListNotations.
Local Open Scope string_scope.
Local Open Scope list_scope.

(* ------------------------------------------------------------------ *)
(** ** JavaScript strings *)

Module Js.

(** [!!x] for [x : string | undefined]. *)
Definition truthy (x : option string) : bool :=
  match x with
  | Some s => negb (s =? EmptyString)
  | None => false
  end.

(** [a || b]. *)
Definition or (a b : option string) : option string :=
  if truthy a then a else b.

(** [`${x}`]. *)
Definition template (x : option string) : string :=
  match x with
  | Some s => s
  | None => "undefined"
  end.

(** [l.join(sep)] on an array of strings. *)
Definition join (sep : string) (l : list string) : string :=
  String.concat sep l.

(** [s.includes(needle)]. *)
Fixpoint includes (needle s : string) : bool :=
  String.prefix needle s
  || match s with
     | EmptyString => false
     | String _ s' => includes needle s'
     end.

(** [s.split(c)[0]] for a one-character separator. *)
Fixpoint before (c : ascii) (s : string) : string :=
  match s with
  | EmptyString => EmptyString
  | String a s' => if Ascii.eqb a c then EmptyString else String a (before c s')
  end.

(** [s.toLowerCase()], on the ASCII letters. *)
Definition lower (a : ascii) : ascii :=
  let n := nat_of_ascii a in
  if ((65 <=? n) && (n <=? 90))%nat then ascii_of_nat (n + 32) else a.

Fixpoint toLowerCase (s : string) : string :=
  match s with
  | EmptyString => EmptyString
  | String a s' => String (lower a) (toLowerCase s')
  end.

(** [s.trim().length === 0], with the ASCII white space characters. *)
Definition isSpace (a : ascii) : bool :=
  let n := nat_of_ascii a in
  (((9 <=? n) && (n <=? 13)) || (n =? 32))%nat.

Fixpoint isBlank (s : string) : bool :=
  match s with
  | EmptyString => true
  | String a s' => isSpace a && isBlank s'
  end.

End Js.

(* ------------------------------------------------------------------ *)
(** ** The JavaScript [Map] behind [#htmlCache] *)

Module JsMap.

Definition t := list (string * string).

Definition keys (m : t) : list string := map fst m.

Definition size (m : t) : nat := length m.

(** [m.get(k)]. *)
Fixpoint get (k : string) (m : t) : option string :=
  match m with
  | [] => None
  | (k', v) :: m' => if k' =? k then Some v else get k m'
  end.

(** [m.has(k)]. *)
Fixpoint has (k : string) (m : t) : bool :=
  match m with
  | [] => false
  | (k', _) :: m' => (k' =? k) || has k m'
  end.

(** [m.set(k, v)]: an existing key keeps its place, a new key goes last. *)
Fixpoint set (k v : string) (m : t) : t :=
  match m with
  | [] => [(k, v)]
  | (k', v') :: m' =>
      if k' =? k then (k', v) :: m' else (k', v') :: set k v m'
  end.

(** [m.delete(k)]. *)
Fixpoint delete (k : string) (m : t) : t :=
  match m with
  | [] => []
  | (k', v') :: m' => if k' =? k then m' else (k', v') :: delete k m'
  end.

(** [m.keys().next().value]. *)
Definition firstKey (m : t) : option string :=
  match m with
  | [] => None
  | (k, _) :: _ => Some k
  end.

(** [m.delete(m.keys().next().value)]; deleting [undefined] removes
    nothing. *)
Definition deleteFirst (m : t) : t :=
  match firstKey m with
  | Some k => delete k m
  | None => m
  end.

End JsMap.

Definition MAX_CACHE_SIZE : nat := 50.

(** The five lines both writers of the cache share
    ([#cacheCurrentPage], [#prefetchSingleVariant]):
<<
      if (this.#htmlCache.size >= this.#MAX_CACHE_SIZE) {
        const firstKey = this.#htmlCache.keys().next().value;
        this.#htmlCache.delete(firstKey);
      }
      this.#htmlCache.set(url, html);
>> *)
Definition cache_put (url html : string) (m : JsMap.t) : JsMap.t :=
  let m1 := if (MAX_CACHE_SIZE <=? JsMap.size m)%nat then JsMap.deleteFirst m else m in
  JsMap.set url html m1.

(* ------------------------------------------------------------------ *)
(** ** The DOM as the picker reads it *)

Inductive ElKind : Type :=
| EInput (radio : bool)   (* an <input>; [radio] is [type="radio"] *)
| EOption (sel : nat)     (* an <option> of the <select> number [sel] *)
| ESelect (sel : nat)     (* the <select> number [sel] *)
| EOther.

(** An element, with what the picker reads from it. *)
Record Element : Type := mkElement {
  el_node : nat;                           (* the node's identity *)
  el_kind : ElKind;
  el_fieldset : option nat;                (* closest('fieldset') *)
  el_optionName : option string;           (* closest('fieldset.variant-option')
                                              ?.querySelector('.variant-option__name')
                                              ?.textContent *)
  el_labelHidden : bool;                   (* closest('label') has class
                                              variant-option__button-label--hidden
                                              or style.display === 'none' *)
  el_value : string;                       (* .value *)
  el_checked : bool;                       (* :checked of an input, the
                                              [selected] attribute of an option *)
  el_optionValueId : option string;        (* dataset.optionValueId *)
  el_variantId : option string;            (* dataset.variantId *)
  el_connectedProductUrl : option string;  (* dataset.connectedProductUrl *)
  el_inProductCard : bool;                 (* closest('product-card') *)
  el_inQuickAddDialog : bool               (* closest('quick-add-dialog') *)
}.

Definition set_checked (b : bool) (e : Element) : Element :=
  match e with
  | mkElement n k f o h v _ i vi c pc qa => mkElement n k f o h v b i vi c pc qa
  end.

(** The variant picker element: its dataset and its controls in document
    order. *)
Record Picker : Type := mkPicker {
  productUrl : option string;   (* dataset.productUrl *)
  productId : option string;    (* dataset.productId *)
  controls : list Element
}.

(** The live page: the outer HTML of its <main>, if it has one, and the
    picker. *)
Record Page : Type := mkPage {
  pg_main : option string;
  pg_picker : Picker
}.

(** A parsed response, with what the picker queries in it. The payload is
    looked up under the tag [variant-picker] and the picker under the tag of
    the element itself: for a [variant-picker] element a document with the
    payload has the picker too, for the subclass
    [swatches-variant-picker-component] of [product-card.js] it need not. *)
Record Document : Type := mkDocument {
  doc_defer : bool;             (* has an overflow-list[defer] *)
  doc_main : option string;     (* querySelector('main')?.outerHTML *)
  doc_payload : option string;  (* querySelector('variant-picker
                                   script[type="application/json"]')?.textContent *)
  doc_picker : option Picker    (* querySelector(this.tagName.toLowerCase()) *)
}.

(** The part of [window.location] the picker rewrites. The path is kept as
    the string assigned to [url.pathname]; the percent-encoding the URL
    setter applies to it is left out, so what is proved below about the
    address is about its variant parameter and about whether the path is
    assigned at all. *)
Record Location : Type := mkLocation {
  loc_pathname : string;
  loc_variant : option string   (* searchParams.get('variant') *)
}.

(* ------------------------------------------------------------------ *)
(** ** Instance state, pending work and observable effects *)

Inductive Origin : Type := OnConnect | AfterSizeChange.

(** A callback handed to [requestIdleCallback] or [setTimeout]. *)
Record Task : Type := mkTask {
  t_origin : Origin;
  t_idle : bool;       (* requestIdleCallback rather than setTimeout *)
  t_timeout : nat
}.

Inductive FetchStatus : Type := Pending | Aborted | Settled.

(** A [fetch] started by [fetchUpdatedSection], with the arguments its
    [then] callback closes over. *)
Record UserFetch : Type := mkUserFetch {
  uf_id : nat;
  uf_url : string;
  uf_morphMain : bool;
  uf_isColorChange : bool;
  uf_status : FetchStatus
}.

Inductive Effect : Type :=
| FetchUser (id : nat) (url : string)
| FetchPrefetch (id : nat) (url : string)
| AbortFetch (id : nat)
| MorphMain (html : Document)
| MorphPicker (src : Picker)
| VariantSelectedEvent (id : string)
| VariantUpdateEvent (payload selectedOptionId : string) (html : Document)
    (productId : string) (newProduct : option (string * string))
| ReplaceState (url : Location)
| Uncaught (msg : string).

Record State : Type := mkState {
  pendingRequestUrl : option string;   (* #pendingRequestUrl *)
  abortController : option nat;        (* #abortController, by the fetch it controls *)
  htmlCache : JsMap.t;                 (* #htmlCache *)
  listenersAttached : bool;            (* #listenersAttached *)
  boundHoverHandler : bool;            (* #boundHoverHandler !== null *)
  boundLeaveHandler : bool;            (* #boundLeaveHandler !== null *)
  changeListeners : nat;               (* 'change' listeners added so far *)
  page : Page;
  location : Location;                 (* window.location *)
  templateName : string;               (* Theme.template.name *)
  hasIdleCallback : bool;              (* 'requestIdleCallback' in window *)
  embedded : bool;                     (* closest('quick-add-component') ||
                                          closest('swatches-variant-picker-component') *)
  scheduled : list Task;               (* callbacks not run yet *)
  userFetches : list UserFetch;
  prefetches : list (nat * string);    (* prefetch fetches in flight *)
  nextId : nat;
  trace : list Effect                  (* oldest first *)
}.

Definition picker (s : State) : Picker := pg_picker (page s).

Definition set_pendingRequestUrl (x : option string) (s : State) : State :=
  match s with
  | mkState _ b c d e f g h i j k l m n o p q => mkState x b c d e f g h i j k l m n o p q
  end.

Definition set_abortController (x : option nat) (s : State) : State :=
  match s with
  | mkState a _ c d e f g h i j k l m n o p q => mkState a x c d e f g h i j k l m n o p q
  end.

Definition set_htmlCache (x : JsMap.t) (s : State) : State :=
  match s with
  | mkState a b _ d e f g h i j k l m n o p q => mkState a b x d e f g h i j k l m n o p q
  end.

Definition set_hoverListeners (x : bool) (s : State) : State :=
  match s with
  | mkState a b c _ _ _ g h i j k l m n o p q => mkState a b c x x x g h i j k l m n o p q
  end.

Definition set_changeListeners (x : nat) (s : State) : State :=
  match s with
  | mkState a b c d e f _ h i j k l m n o p q => mkState a b c d e f x h i j k l m n o p q
  end.

Definition set_page (x : Page) (s : State) : State :=
  match s with
  | mkState a b c d e f g _ i j k l m n o p q => mkState a b c d e f g x i j k l m n o p q
  end.

Definition set_location (x : Location) (s : State) : State :=
  match s with
  | mkState a b c d e f g h _ j k l m n o p q => mkState a b c d e f g h x j k l m n o p q
  end.

Definition set_scheduled (x : list Task) (s : State) : State :=
  match s with
  | mkState a b c d e f g h i j k l _ n o p q => mkState a b c d e f g h i j k l x n o p q
  end.

Definition set_userFetches (x : list UserFetch) (s : State) : State :=
  match s with
  | mkState a b c d e f g h i j k l m _ o p q => mkState a b c d e f g h i j k l m x o p q
  end.

Definition set_prefetches (x : list (nat * string)) (s : State) : State :=
  match s with
  | mkState a b c d e f g h i j k l m n _ p q => mkState a b c d e f g h i j k l m n x p q
  end.

Definition set_nextId (x : nat) (s : State) : State :=
  match s with
  | mkState a b c d e f g h i j k l m n o _ q => mkState a b c d e f g h i j k l m n o x q
  end.

Definition set_trace (x : list Effect) (s : State) : State :=
  match s with
  | mkState a b c d e f g h i j k l m n o p _ => mkState a b c d e f g h i j k l m n o p x
  end.

Definition set_picker (x : Picker) (s : State) : State :=
  set_page (mkPage (pg_main (page s)) x) s.

Definition set_controls (x : list Element) (s : State) : State :=
  set_picker (mkPicker (productUrl (picker s)) (productId (picker s)) x) s.

(* ------------------------------------------------------------------ *)
(** ** Methods as state transformers that may throw *)

Inductive Result (A : Type) : Type :=
| Ok (a : A)
| Throw (msg : string).

Arguments Ok {A} a.
Arguments Throw {A} msg.

Definition M (A : Type) : Type := State -> Result A * State.

Definition ret {A : Type} (a : A) : M A := fun s => (Ok a, s).

Definition bind {A B : Type} (c : M A) (k : A -> M B) : M B :=
  fun s =>
    match c s with
    | (Ok a, s') => k a s'
    | (Throw msg, s') => (Throw msg, s')
    end.

Definition throw {A : Type} (msg : string) : M A := fun s => (Throw msg, s).

Definition get : M State := fun s => (Ok s, s).

Definition modify (f : State -> State) : M unit := fun s => (Ok tt, f s).

Definition lift {A : Type} (r : Result A) : M A := fun s => (r, s).

(** [try { c } catch (error) { }]. *)
Definition try_ (c : M unit) : M unit :=
  fun s =>
    match c s with
    | (Ok a, s') => (Ok a, s')
    | (Throw _, s') => (Ok tt, s')
    end.

Declare Scope js_scope.
Delimit Scope js_scope with js.
Notation "x <- c ;; k" := (bind c (fun x => k))
  (at level 61, c at next level, right associativity) : js_scope.
Notation "c ;; k" := (bind c (fun _ => k))
  (at level 61, right associativity) : js_scope.
Local Open Scope js_scope.

Definition emit (e : Effect) : M unit :=
  modify (fun s => set_trace (trace s ++ [e]) s).

Definition when (b : bool) (c : M unit) : M unit := if b then c else ret tt.

(* ------------------------------------------------------------------ *)
(** ** The methods of [VariantPicker] *)

Definition isSome {A : Type} (x : option A) : bool :=
  match x with
  | Some _ => true
  | None => false
  end.

Definition opt_eqb (a b : option string) : bool :=
  match a, b with
  | Some x, Some y => x =? y
  | None, None => true
  | _, _ => false
  end.

Definition isInput (e : Element) : bool :=
  match el_kind e with
  | EInput _ => true
  | _ => false
  end.

Definition isRadio (e : Element) : bool :=
  match el_kind e with
  | EInput radio => radio
  | _ => false
  end.

Definition isOptionOf (sel : nat) (e : Element) : bool :=
  match el_kind e with
  | EOption sel' => Nat.eqb sel' sel
  | _ => false
  end.

(** [#isColorOption(element)]. *)
Definition isColorOption (element : Element) : bool :=
  match el_optionName element with
  | None => false
  | Some text =>
      let optionName := Js.toLowerCase text in
      Js.includes "color" optionName
      || Js.includes "colour" optionName
      || Js.includes "renk" optionName
  end.

(** [#isColorOptionChange(target)]. *)
Definition isColorOptionChange (target : Element) : bool := isColorOption target.

(** The selector ['select option[selected], fieldset input:checked']. *)
Definition matchesSelected (e : Element) : bool :=
  match el_kind e with
  | EOption _ => el_checked e
  | EInput _ => el_checked e && isSome (el_fieldset e)
  | _ => false
  end.

Definition selectedOptions (p : Picker) : list Element :=
  filter matchesSelected (controls p).

Fixpoint optionValueIds (l : list Element) : Result (list string) :=
  match l with
  | [] => Ok []
  | option :: l' =>
      if Js.truthy (el_optionValueId option) then
        match optionValueIds l' with
        | Ok ids => Ok (Js.template (el_optionValueId option) :: ids)
        | Throw msg => Throw msg
        end
      else Throw "No option value ID found"
  end.

(** [get selectedOptionsValues()]. *)
Definition selectedOptionsValues (p : Picker) : Result (list string) :=
  optionValueIds (selectedOptions p).

(** [get selectedOption()]. *)
Definition selectedOption (p : Picker) : option Element :=
  hd_error (selectedOptions p).

(** [get selectedOptionId()]. *)
Definition selectedOptionId (p : Picker) : Result (option string) :=
  match selectedOption p with
  | None => Ok None
  | Some option =>
      if Js.truthy (el_optionValueId option) then Ok (el_optionValueId option)
      else Throw "No option value ID found"
  end.

(** The end of [buildRequestUrl] and of [#buildHoverUrl]: the section
    rendering URL inside a quick-add or a swatches picker, the plain one
    elsewhere. *)
Definition renderUrl (inCard : bool) (productUrl : option string)
  (params : list string) : string :=
  if inCard then
    let productUrl :=
      match productUrl with
      | Some u => if Js.includes "?" u then Some (Js.before "?" u) else Some u
      | None => None
      end in
    (Js.template productUrl ++ "?section_id=section-rendering-product-card&"
       ++ Js.join "&" params)%string
  else (Js.template productUrl ++ "?" ++ Js.join "&" params)%string.

(** [buildRequestUrl(selectedOption, source = null,
    sourceSelectedOptionsValues = [])]. *)
Definition buildRequestUrl (selectedOption : Element) (source : option string)
  (sourceSelectedOptionsValues : list string) : M string :=
  s <- get ;;
  let productUrl :=
    Js.or (el_connectedProductUrl selectedOption)
      (Js.or (pendingRequestUrl s) (productUrl (picker s))) in
  modify (set_pendingRequestUrl productUrl) ;;
  values <- lift (selectedOptionsValues (picker s)) ;;
  let params :=
    if negb (Nat.eqb (length values) 0) && negb (Js.truthy source) then
      [("option_values=" ++ Js.join "," values)%string]
    else if opt_eqb source (Some "product-card") then
      if negb (Nat.eqb (length values) 0) then
        [("option_values=" ++ Js.join "," sourceSelectedOptionsValues)%string]
      else [("option_values=" ++ Js.template (el_optionValueId selectedOption))%string]
    else [] in
  ret (renderUrl (embedded s) productUrl params).

(** [#buildHoverUrl(option)]. *)
Definition buildHoverUrl (option : Element) : M string :=
  match el_fieldset option with
  | None => buildRequestUrl option None []
  | Some fieldset =>
      s <- get ;;
      let selected := selectedOptions (picker s) in
      let sameFieldset (opt : Element) :=
        match el_fieldset opt with
        | Some f => Nat.eqb f fieldset
        | None => false
        end in
      let optionValueIds :=
        flat_map
          (fun opt =>
             match (if sameFieldset opt then el_optionValueId option
                    else el_optionValueId opt) with
             | Some id => [id]
             | None => []
             end)
          selected in
      let hasFieldsetOption := existsb sameFieldset selected in
      let optionValueIds :=
        if negb hasFieldsetOption && Js.truthy (el_optionValueId option) then
          optionValueIds ++ [Js.template (el_optionValueId option)]
        else optionValueIds in
      let productUrl :=
        Js.or (el_connectedProductUrl option) (productUrl (picker s)) in
      let params :=
        if negb (Nat.eqb (length optionValueIds) 0) then
          [("option_values=" ++ Js.join "," optionValueIds)%string]
        else [] in
      ret (renderUrl (embedded s) productUrl params)
  end.

(** The URL [#cacheCurrentPage()] builds ("to match what buildRequestUrl will
    produce"), if an input with an option value id is checked. *)
Definition currentPageUrl (p : Picker) : option string :=
  let allCheckedOptions :=
    filter (fun e => isInput e && el_checked e && isSome (el_optionValueId e))
      (controls p) in
  let optionValueIds :=
    map (fun option => Js.template (el_optionValueId option)) allCheckedOptions in
  if Nat.eqb (length optionValueIds) 0 then None
  else
    Some (Js.template (productUrl p) ++ "?option_values="
            ++ Js.join "," optionValueIds)%string.

(** [#cacheCurrentPage()]. *)
Definition cacheCurrentPage : M unit :=
  s <- get ;;
  match currentPageUrl (picker s) with
  | None => ret tt
  | Some url =>
      match pg_main (page s) with
      | None => ret tt
      | Some currentHtml =>
          modify (fun s => set_htmlCache (cache_put url currentHtml (htmlCache s)) s)
      end
  end.

(** [fetch(url)] of a prefetch: the request is in flight until the browser
    delivers its outcome. *)
Definition startPrefetch (url : string) : M unit :=
  s <- get ;;
  let id := nextId s in
  modify (set_nextId (S id)) ;;
  modify (fun s => set_prefetches (prefetches s ++ [(id, url)]) s) ;;
  emit (FetchPrefetch id url).

(** [#prefetchSingleVariant(option)], up to its first [await]. *)
Definition prefetchSingleVariant (option : Element) : M unit :=
  try_ (url <- buildHoverUrl option ;;
        s <- get ;;
        if (url =? EmptyString) || JsMap.has url (htmlCache s) then ret tt
        else startPrefetch url).

(** [isOnProductPage] of [variantChanged]. *)
Definition isOnProductPage (target : Element) (s : State) : bool :=
  (templateName s =? "product")
  && negb (el_inProductCard target)
  && negb (el_inQuickAddDialog target).

(** [loadsNewProduct] of [variantChanged]:
    [isOnProductPage && !!newUrl && newUrl !== currentUrl]. *)
Definition loadsNewProduct (target : Element) (s : State) : bool :=
  let currentUrl := option_map (Js.before "?") (productUrl (picker s)) in
  let newUrl := el_connectedProductUrl target in
  isOnProductPage target s && Js.truthy newUrl && negb (opt_eqb newUrl currentUrl).

Section Platform.

(** What the methods call outside this file: the HTML and JSON parsers of the
    browser, and [morph] of [@theme/morph], given here by the page it leaves
    behind. *)
Variable parseFromString : string -> Document.
Variable JSON_parses : string -> bool.
Variable morph_picker : Page -> Picker -> Page.
Variable morph_main : Page -> Document -> Page.

(** [#prefetchSingleVariant(option)], from [await fetch(url)] on, for a
    response with [response.ok = ok] and body [text]. *)
Definition prefetchSingleVariant_resume (url : string) (ok : bool)
  (text : string) : M unit :=
  try_ (if negb ok then ret tt
        else if (text =? EmptyString) || Js.isBlank text then ret tt
        else
          match doc_main (parseFromString text) with
          | None => ret tt
          | Some minimalHtml =>
              modify (fun s => set_htmlCache (cache_put url minimalHtml (htmlCache s)) s)
          end).

(** The loop of [#prefetchAvailableColorVariants()], with the value of
    [currentlySelected?.name] so far. *)
Fixpoint prefetchEach (allInputs : list Element)
  (currentlySelected : option string) : M unit :=
  match allInputs with
  | [] => ret tt
  | option :: rest =>
      let isColor := isColorOption option in
      let currentlySelected :=
        if el_checked option && isColor then Some (el_value option)
        else currentlySelected in
      (if el_checked option then ret tt
       else if negb isColor then ret tt
       else if el_labelHidden option then ret tt
       else if match currentlySelected with
               | Some name => el_value option =? name
               | None => false
               end then ret tt
       else
         url <- buildHoverUrl option ;;
         s <- get ;;
         when (negb (url =? EmptyString) && negb (JsMap.has url (htmlCache s)))
           (prefetchSingleVariant option)) ;;
      prefetchEach rest currentlySelected
  end.

(** [#prefetchAvailableColorVariants()]. *)
Definition prefetchAvailableColorVariants : M unit :=
  s <- get ;;
  let allInputs :=
    filter (fun e => isRadio e && isSome (el_optionValueId e))
      (controls (picker s)) in
  prefetchEach allInputs None.

(** [requestIdleCallback(callback, { timeout })] where the browser has it,
    [setTimeout(callback, timeout)] elsewhere. *)
Definition schedule (origin : Origin) (timeout : nat) : M unit :=
  modify (fun s =>
            set_scheduled
              (scheduled s ++ [mkTask origin (hasIdleCallback s) timeout]) s).

(** The callback both [connectedCallback] and [#prefetchAfterSizeChange]
    schedule. *)
Definition runTask (t : Task) : M unit :=
  match t_origin t with
  | OnConnect => cacheCurrentPage ;; prefetchAvailableColorVariants
  | AfterSizeChange => cacheCurrentPage ;; prefetchAvailableColorVariants
  end.

(** [#prefetchAfterSizeChange()]. *)
Definition prefetchAfterSizeChange : M unit := schedule AfterSizeChange 50.

(** [setupVariantHoverListeners()]. *)
Definition setupVariantHoverListeners : M unit :=
  s <- get ;;
  if listenersAttached s then ret tt
  else modify (set_hoverListeners true).

(** [connectedCallback()]. *)
Definition connectedCallback : M unit :=
  modify (fun s => set_changeListeners (S (changeListeners s)) s) ;;
  setupVariantHoverListeners ;;
  schedule OnConnect 100.

(** [disconnectedCallback()]. *)
Definition disconnectedCallback : M unit :=
  s <- get ;;
  when (listenersAttached s && boundHoverHandler s && boundLeaveHandler s)
    (modify (set_hoverListeners false)) ;;
  modify (set_htmlCache []).

(** [updateSelectedOption(target)] for an element. *)
Definition updateSelectedOption (target : Element) : M unit :=
  match el_kind target with
  | EInput _ =>
      modify (fun s =>
                set_controls
                  (map (fun e => if Nat.eqb (el_node e) (el_node target)
                                 then set_checked true e else e)
                     (controls (picker s))) s)
  | ESelect sel =>
      s <- get ;;
      let options := filter (isOptionOf sel) (controls (picker s)) in
      match find (fun option => el_value option =? el_value target) options with
      | None => throw "Option not found"
      | Some newSelectedOption =>
          modify (fun s =>
                    set_controls
                      (map (fun e =>
                              if isOptionOf sel e then
                                set_checked
                                  (Nat.eqb (el_node e) (el_node newSelectedOption)) e
                              else e)
                         (controls (picker s))) s)
      end
  | _ => ret tt
  end.

(** [updateVariantPicker(newHtml)]. *)
Definition updateVariantPicker (newHtml : Document)
  : M (option (string * string)) :=
  match doc_picker newHtml with
  | None => throw "No new variant picker source found"
  | Some newVariantPickerSource =>
      s <- get ;;
      let newProductId := productId newVariantPickerSource in
      let newProductUrl := productUrl newVariantPickerSource in
      let newProduct :=
        if Js.truthy newProductId && Js.truthy newProductUrl
           && negb (opt_eqb (productId (picker s)) newProductId)
        then Some (Js.template newProductId, Js.template newProductUrl)
        else None in
      modify (fun s =>
                set_picker
                  (mkPicker (Some (Js.template newProductUrl))
                     (Some (Js.template newProductId)) (controls (picker s))) s) ;;
      modify (fun s => set_page (morph_picker (page s) newVariantPickerSource) s) ;;
      emit (MorphPicker newVariantPickerSource) ;;
      ret newProduct
  end.

(** [updateMain(newHtml)]. *)
Definition updateMain (newHtml : Document) : M unit :=
  s <- get ;;
  if isSome (pg_main (page s)) && isSome (doc_main newHtml) then
    modify (fun s => set_page (morph_main (page s) newHtml) s) ;;
    emit (MorphMain newHtml)
  else throw "No new main source found".

(** [html.querySelector('overflow-list[defer]')?.removeAttribute('defer')]. *)
Definition removeDefer (html : Document) : Document :=
  mkDocument false (doc_main html) (doc_payload html) (doc_picker html).

(** What [#updateWithCachedHtml] and the [then] callback of
    [fetchUpdatedSection] do alike once the payload is there. First the
    morph, of <main> or of the picker, and for the picker the announcement: *)
Definition morphAndAnnounce (html : Document) (textContent : string)
  (shouldMorphMain : bool) : M unit :=
  if shouldMorphMain then updateMain html
  else
    newProduct <- updateVariantPicker html ;;
    s <- get ;;
    id <- lift (selectedOptionId (picker s)) ;;
    match id with
    | None => ret tt
    | Some selectedOptionId =>
        if JSON_parses textContent then
          emit (VariantUpdateEvent textContent selectedOptionId html
                  (match productId (picker s) with
                   | Some id => id
                   | None => EmptyString
                   end)
                  newProduct)
        else throw "SyntaxError"
    end.

(** then the prefetch pass, "after size changes (not color changes - those
    use cache)". *)
Definition applyUpdate (html : Document) (textContent : string)
  (shouldMorphMain isColorChange : bool) : M unit :=
  morphAndAnnounce html textContent shouldMorphMain ;;
  when (negb isColorChange) prefetchAfterSizeChange.

(** [#updateWithCachedHtml(cachedHtml, shouldMorphMain, isColorChange)]. *)
Definition updateWithCachedHtml (cachedHtml : Document)
  (shouldMorphMain isColorChange : bool) : M unit :=
  let cachedHtml := removeDefer cachedHtml in
  let textContent := doc_payload cachedHtml in
  if negb (Js.truthy textContent) then ret tt
  else applyUpdate cachedHtml (Js.template textContent) shouldMorphMain isColorChange.

(** The [then] callback of [fetchUpdatedSection] on the response text. *)
Definition fetchUpdatedSection_then (responseText : string)
  (shouldMorphMain isColorChange : bool) : M unit :=
  modify (set_pendingRequestUrl None) ;;
  let html := removeDefer (parseFromString responseText) in
  let textContent := doc_payload html in
  if negb (Js.truthy textContent) then ret tt
  else applyUpdate html (Js.template textContent) shouldMorphMain isColorChange.

(** What [controller.abort()] does to the fetch it controls: a fetch that is
    still pending is rejected, and its [then] callbacks will not run. *)
Definition markAborted (id : nat) (f : UserFetch) : UserFetch :=
  if Nat.eqb (uf_id f) id then
    match uf_status f with
    | Pending =>
        mkUserFetch (uf_id f) (uf_url f) (uf_morphMain f) (uf_isColorChange f) Aborted
    | _ => f
    end
  else f.

(** [controller.abort()]. *)
Definition abort (id : nat) : M unit :=
  modify (fun s => set_userFetches (map (markAborted id) (userFetches s)) s) ;;
  emit (AbortFetch id).

(** [fetchUpdatedSection(requestUrl, shouldMorphMain, isColorChange)], up to
    the [fetch] call. *)
Definition fetchUpdatedSection (requestUrl : string)
  (shouldMorphMain isColorChange : bool) : M unit :=
  s <- get ;;
  match abortController s with
  | Some id => abort id
  | None => ret tt
  end ;;
  let id := nextId s in
  modify (set_nextId (S id)) ;;
  modify (set_abortController (Some id)) ;;
  modify (fun s =>
            set_userFetches
              (userFetches s
                 ++ [mkUserFetch id requestUrl shouldMorphMain isColorChange Pending]) s) ;;
  emit (FetchUser id requestUrl).

(** [url.searchParams.set('variant', id)] when the target has a variant id,
    [url.searchParams.delete('variant')] when it has none. *)
Definition withVariant (target : Element) (url : Location) : Location :=
  if Js.truthy (el_variantId target) then
    mkLocation (loc_pathname url) (el_variantId target)
  else mkLocation (loc_pathname url) None.

Definition location_eqb (a b : Location) : bool :=
  (loc_pathname a =? loc_pathname b) && opt_eqb (loc_variant a) (loc_variant b).

(** [if (url.href !== window.location.href) history.replaceState({}, '', url)]. *)
Definition replaceState (url : Location) : M unit :=
  s <- get ;;
  if location_eqb url (location s) then ret tt
  else modify (set_location url) ;; emit (ReplaceState url).

(** [variantChanged(event)], for [event.target] an element. *)
Definition variantChanged (target : Element) : M unit :=
  updateSelectedOption target ;;
  emit (VariantSelectedEvent
          (match el_optionValueId target with
           | Some id => id
           | None => EmptyString
           end)) ;;
  s <- get ;;
  let isOnProductPage := isOnProductPage target s in
  let newUrl := el_connectedProductUrl target in
  let loadsNewProduct := loadsNewProduct target s in
  requestUrl <- buildRequestUrl target None [] ;;
  let cachedHtmlText := JsMap.get requestUrl (htmlCache s) in
  let isColorChange := isColorOptionChange target in
  if Js.truthy cachedHtmlText && isOnProductPage && isColorChange then
    let cachedHtml := parseFromString (Js.template cachedHtmlText) in
    updateWithCachedHtml cachedHtml loadsNewProduct isColorChange ;;
    s <- get ;;
    replaceState (withVariant target (location s))
  else
    fetchUpdatedSection requestUrl loadsNewProduct isColorChange ;;
    s <- get ;;
    let url := location s in
    let url := if isOnProductPage then withVariant target url else url in
    let url :=
      if loadsNewProduct then mkLocation (Js.template newUrl) (loc_variant url)
      else url in
    replaceState url.

End Platform.

(* ------------------------------------------------------------------ *)
(** ** The browser driving the picker *)

Inductive Event : Type :=
| Connect                                        (* the element is attached *)
| Disconnect                                     (* the element is detached *)
| Change (target : Element)                      (* a 'change' event reaches it *)
| Idle (k : nat)                                 (* the scheduled callback number k runs *)
| Response (id : nat) (text : string)            (* the body of fetch [id] has arrived *)
| NetworkError (id : nat)                        (* fetch [id] failed *)
| PrefetchResponse (id : nat) (ok : bool) (text : string)
| PrefetchError (id : nat).

Section Browser.

Variable parseFromString : string -> Document.
Variable JSON_parses : string -> bool.
Variable morph_picker : Page -> Picker -> Page.
Variable morph_main : Page -> Document -> Page.

(** A callback called by the browser: what it throws is reported and goes no
    further. *)
Definition callback (c : M unit) (s : State) : State :=
  match c s with
  | (Ok _, s') => s'
  | (Throw msg, s') => set_trace (trace s' ++ [Uncaught msg]) s'
  end.

(** What the browser has done when a 'change' event is dispatched: the radio
    button the user picked is checked and the other radio buttons of its
    group, here of its fieldset, are not. *)
Definition userPicks (target : Element) (s : State) : State :=
  match el_kind target, el_fieldset target with
  | EInput true, Some fieldset =>
      set_controls
        (map (fun e =>
                if isRadio e
                   && match el_fieldset e with
                      | Some f => Nat.eqb f fieldset
                      | None => false
                      end
                then set_checked (Nat.eqb (el_node e) (el_node target)) e
                else e)
           (controls (picker s))) s
  | _, _ => s
  end.

Definition findFetch (id : nat) (s : State) : option UserFetch :=
  find (fun f => Nat.eqb (uf_id f) id) (userFetches s).

Definition settle (id : nat) (s : State) : State :=
  set_userFetches
    (map (fun f =>
            if Nat.eqb (uf_id f) id then
              mkUserFetch (uf_id f) (uf_url f) (uf_morphMain f)
                (uf_isColorChange f) Settled
            else f)
       (userFetches s)) s.

(** The promise chain of [fetchUpdatedSection] when the response text
    arrives: the [then] callback runs unless the fetch was aborted, and the
    final [catch] swallows whatever it throws. *)
Definition deliver (id : nat) (text : string) (s : State) : State :=
  match findFetch id s with
  | Some f =>
      match uf_status f with
      | Pending =>
          snd (try_ (fetchUpdatedSection_then parseFromString JSON_parses
                       morph_picker morph_main text
                       (uf_morphMain f) (uf_isColorChange f))
                 (settle id s))
      | _ => s
      end
  | None => s
  end.

(** The same chain when the fetch rejects: the [catch] callback does
    nothing. *)
Definition fail (id : nat) (s : State) : State :=
  match findFetch id s with
  | Some f =>
      match uf_status f with
      | Pending => settle id s
      | _ => s
      end
  | None => s
  end.

Definition findPrefetch (id : nat) (s : State) : option string :=
  option_map snd (find (fun p => Nat.eqb (fst p) id) (prefetches s)).

Definition dropPrefetch (id : nat) (s : State) : State :=
  set_prefetches (filter (fun p => negb (Nat.eqb (fst p) id)) (prefetches s)) s.

Definition step (e : Event) (s : State) : State :=
  match e with
  | Connect => callback connectedCallback s
  | Disconnect => callback disconnectedCallback s
  | Change target =>
      Nat.iter (changeListeners s)
        (callback (variantChanged parseFromString JSON_parses
                     morph_picker morph_main target))
        (userPicks target s)
  | Idle k =>
      match nth_error (scheduled s) k with
      | Some t =>
          callback (runTask t)
            (set_scheduled (firstn k (scheduled s) ++ skipn (S k) (scheduled s)) s)
      | None => s
      end
  | Response id text => deliver id text s
  | NetworkError id => fail id s
  | PrefetchResponse id ok text =>
      match findPrefetch id s with
      | Some url =>
          snd (prefetchSingleVariant_resume parseFromString url ok text
                 (dropPrefetch id s))
      | None => s
      end
  | PrefetchError id => dropPrefetch id s
  end.

Definition run (events : list Event) (s : State) : State :=
  fold_left (fun s e => step e s) events s.

End Browser.

(** A picker that has just been created on a page. *)
Definition initial (pg : Page) (loc : Location) (template : string)
  (idle inCard : bool) : State :=
  mkState None None [] false false false 0 pg loc template idle inCard [] [] [] 0 [].

(** User fetches not yet answered nor aborted. *)
Definition pendingFetches (s : State) : list UserFetch :=
  filter (fun f => match uf_status f with Pending => true | _ => false end)
    (userFetches s).

(** The URLs the trace shows a network request for. *)
Definition fetchedUrls (t : list Effect) : list string :=
  flat_map (fun e =>
              match e with
              | FetchUser _ url => [url]
              | FetchPrefetch _ url => [url]
              | _ => []
              end) t.

(** [variantChanged] up to the request URL: select, announce, build. *)
Definition requestUrlFor (target : Element) : M string :=
  updateSelectedOption target ;;
  emit (VariantSelectedEvent
          (match el_optionValueId target with
           | Some id => id
           | None => EmptyString
           end)) ;;
  buildRequestUrl target None [].

(** The test [variantChanged] serves a selection from the cache on:
    [cachedHtmlText && isOnProductPage && isColorChange]. *)
Definition servedFromCache (target : Element) (requestUrl : string)
  (s : State) : bool :=
  Js.truthy (JsMap.get requestUrl (htmlCache s))
  && isOnProductPage target s
  && isColorOptionChange target.

Definition isMorph (e : Effect) : bool :=
  match e with
  | MorphMain _ | MorphPicker _ => true
  | _ => false
  end.

(** The morphs a trace shows, oldest first. *)
Definition morphs (s : State) : list Effect := filter isMorph (trace s).

Definition isFetch (e : Effect) : bool :=
  match e with
  | FetchUser _ _ | FetchPrefetch _ _ => true
  | _ => false
  end.

(** What shows network activity and background work: the requests made so
    far, the fetches and prefetches in flight, the callbacks scheduled. *)
Definition network (s : State)
  : list string * list UserFetch * list (nat * string) * list Task
    * option nat * nat :=
  (fetchedUrls (trace s), userFetches s, prefetches s, scheduled s,
   abortController s, nextId s).

(** What [variantChanged] decides on besides the target. *)
Definition context (s : State) : string * option string * JsMap.t :=
  (templateName s, productUrl (picker s), htmlCache s).

(** What scheduling a callback reads and writes. *)
Definition idleState (s : State) : list Task * bool :=
  (scheduled s, hasIdleCallback s).

Definition isUncaught (e : Effect) : bool :=
  match e with
  | Uncaught _ => true
  | _ => false
  end.

(** The variant the address bar shows once [withVariant] is applied. *)
Definition variantOf (target : Element) : option string :=
  if Js.truthy (el_variantId target) then el_variantId target else None.

(* ------------------------------------------------------------------ *)
(** ** The preload queue of [VariantImagePreloader] *)

Module Preloader.

Record State : Type := mkState {
  productData : bool;          (* #productData !== null *)
  preloadQueue : list string;  (* #preloadQueue, a Set in insertion order *)
  loading : list string        (* colour keys whose images are being loaded *)
}.

Definition queueHas (key : string) (q : list string) : bool :=
  existsb (String.eqb key) q.

Definition queueAdd (key : string) (q : list string) : list string :=
  if queueHas key q then q else q ++ [key].

Definition queueDelete (key : string) (q : list string) : list string :=
  filter (fun k => negb (String.eqb key k)) q.

(** [#preloadImagesForColor(colorValue)] up to [await
    this.#preloadImageSet(imagesToPreload)]. [colorKey] is
    [colorValue.toUpperCase().replace(/\s+/g, '')], which goes by the Unicode
    tables of the browser and is left to it; [imagesToPreload] gives the
    number of images found for a colour key. *)
Definition preloadImagesForColor (colorKey : string -> string)
  (imagesToPreload : string -> nat) (colorValue : string) (s : State) : State :=
  if negb (productData s) then s
  else
    let key := colorKey colorValue in
    if queueHas key (preloadQueue s) then s
    else
      let queue := queueAdd key (preloadQueue s) in
      if (0 <? imagesToPreload key)%nat then
        mkState (productData s) queue (loading s ++ [key])
      else mkState (productData s) (queueDelete key queue) (loading s).

(** The same method once the images have loaded or failed:
    [this.#preloadQueue.delete(colorKey)]. *)
Definition preloadImagesForColor_resume (key : string) (s : State) : State :=
  mkState (productData s) (queueDelete key (preloadQueue s))
    (filter (fun k => negb (String.eqb key k)) (loading s)).

(** [#getImageUrl(src, width)], with [width] as a template literal prints
    it. *)
Definition getImageUrl (src width : string) : string :=
  if src =? EmptyString then EmptyString
  else (Js.before "?" src ++ "?width=" ++ width)%string.

(** The preloader with its debounce timer and the timeouts of the browser. *)
Record Instance : Type := mkInstance {
  core : State;
  hoverDebounceTimer : option nat;   (* #hoverDebounceTimer, by the timeout it names *)
  timeouts : list (nat * string);    (* timeouts set and neither run nor cleared,
                                        each with the colorValue its callback
                                        closes over *)
  nextTimeout : nat
}.

(** [#clearDebounce()]. *)
Definition clearDebounce (i : Instance) : Instance :=
  match hoverDebounceTimer i with
  | Some id =>
      mkInstance (core i) None
        (filter (fun t => negb (Nat.eqb (fst t) id)) (timeouts i)) (nextTimeout i)
  | None => i
  end.

(** [#debouncedPreload(colorValue)]. *)
Definition debouncedPreload (colorValue : string) (i : Instance) : Instance :=
  let i := clearDebounce i in
  let id := nextTimeout i in
  mkInstance (core i) (Some id) (timeouts i ++ [(id, colorValue)]) (S id).

(** [disconnectedCallback()]. *)
Definition disconnectedCallback (i : Instance) : Instance :=
  let i := clearDebounce i in
  mkInstance (mkState (productData (core i)) [] (loading (core i)))
    (hoverDebounceTimer i) (timeouts i) (nextTimeout i).

Inductive Event : Type :=
| MouseEnter (input : option (string * bool))
    (* 'mouseenter' on the picker: [#findColorInput(target)], by its value and
       whether it is checked *)
| MouseLeave (onVariant : bool)
    (* 'mouseleave': whether the target is a variant input or its label *)
| Timeout (id : nat)          (* the browser runs the callback of a timeout *)
| Settled (key : string)      (* the images of a colour have loaded or failed *)
| Disconnect.

Section Run.

Variable colorKey : string -> string.
Variable imagesToPreload : string -> nat.

Definition step (e : Event) (i : Instance) : Instance :=
  match e with
  | MouseEnter (Some (colorValue, checked)) =>
      if checked then i else debouncedPreload colorValue i
  | MouseEnter None => i
  | MouseLeave onVariant => if onVariant then clearDebounce i else i
  | Timeout id =>
      match find (fun t => Nat.eqb (fst t) id) (timeouts i) with
      | Some (_, colorValue) =>
          mkInstance
            (preloadImagesForColor colorKey imagesToPreload colorValue (core i))
            None
            (filter (fun t => negb (Nat.eqb (fst t) id)) (timeouts i))
            (nextTimeout i)
      | None => i
      end
  | Settled key =>
      mkInstance (preloadImagesForColor_resume key (core i))
        (hoverDebounceTimer i) (timeouts i) (nextTimeout i)
  | Disconnect => disconnectedCallback i
  end.

Definition run (events : list Event) (i : Instance) : Instance :=
  fold_left (fun i e => step e i) events i.

End Run.

Definition initial (data : bool) : Instance :=
  mkInstance (mkState data [] []) None [] 0.

(** No timeout is pending, or one is and [#hoverDebounceTimer] names it. *)
Definition oneTimer (i : Instance) : Prop :=
  (hoverDebounceTimer i = None /\ timeouts i = [])
  \/ exists id colorValue,
      hoverDebounceTimer i = Some id /\ timeouts i = [(id, colorValue)].

End Preloader.

(* ------------------------------------------------------------------ *)
(** ** The image filter of [MediaGallery] *)

Module Gallery.

(** A media element of the main gallery, with what [#filterMediaImages] reads
    from it. *)
Record Media : Type := mkMedia {
  m_src : option string;   (* querySelector('img')?.getAttribute('src') *)
  m_html : bool            (* element instanceof HTMLElement *)
}.

Definition Item : Type := (Media * nat)%type.   (* { element, index } *)

Fixpoint hasChar (c : ascii) (s : string) : bool :=
  match s with
  | EmptyString => false
  | String a s' => Ascii.eqb a c || hasChar c s'
  end.

(** [s.split(c).pop()] for a one-character separator. *)
Fixpoint pop (c : ascii) (s : string) : string :=
  match s with
  | EmptyString => EmptyString
  | String a s' =>
      if Ascii.eqb a c then pop c s'
      else if hasChar c s' then pop c s' else s
  end.

(** [src.split('/').pop()?.split('?')[0]]. *)
Definition fileNameOf (src : string) : string := Js.before "?" (pop "/" src).

(** The Map [fileNameToElements], keys in insertion order:
    [if (!m.has(fileName)) m.set(fileName, []); m.get(fileName)?.push(item)]. *)
Fixpoint push (fileName : string) (item : Item) (m : list (string * list Item))
  : list (string * list Item) :=
  match m with
  | [] => [(fileName, [item])]
  | (k, items) :: m' =>
      if k =? fileName then (k, items ++ [item]) :: m'
      else (k, items) :: push fileName item m'
  end.

(** The first [forEach], from index [index] on. *)
Fixpoint collect (gallery : list Media) (index : nat)
  (m : list (string * list Item)) : list (string * list Item) :=
  match gallery with
  | [] => m
  | media :: rest =>
      collect rest (S index)
        (match m_src media with
         | None => m
         | Some src =>
             if src =? EmptyString then m
             else
               let fileName := fileNameOf src in
               if fileName =? EmptyString then m
               else push fileName (media, index) m
         end)
  end.

(** [hiddenIndices.add(index)] on a Set in insertion order. *)
Definition add (index : nat) (set : list nat) : list nat :=
  if existsb (Nat.eqb index) set then set else set ++ [index].

(** [items.forEach(({ element, index }) => { if (element instanceof
    HTMLElement) { ...; hiddenIndices.add(index) } })]. *)
Definition hideAll (items : list Item) (hiddenIndices : list nat) : list nat :=
  fold_left (fun set item => if m_html (fst item) then add (snd item) set else set)
    items hiddenIndices.

Section Filter.

(** [s.length], in UTF-16 code units. *)
Variable length16 : string -> nat.

(** [fileNames.reduce((shortest, current) =>
    current.length < shortest.length ? current : shortest)]. *)
Definition shortestOf (first : string) (rest : list string) : string :=
  fold_left
    (fun shortest current =>
       if (length16 current <? length16 shortest)%nat then current else shortest)
    rest first.

(** The second [forEach], over the entries of the Map. *)
Definition hideGroup (shortestFileName shortestNameWithoutExt : string)
  (hiddenIndices : list nat) (entry : string * list Item) : list nat :=
  let (fileName, items) := entry in
  if negb (fileName =? shortestFileName)
     && Js.includes shortestNameWithoutExt fileName
  then hideAll items hiddenIndices
  else if (1 <? length items)%nat then hideAll (tl items) hiddenIndices
  else hiddenIndices.

(** [#filterMediaImages(container)] on the media of the main gallery: the
    indices it hides and [visibleCount]; nothing when it returns before the
    filtering. *)
Definition filterMediaImages (gallery : list Media) : option (list nat * nat) :=
  if Nat.eqb (length gallery) 0 then None
  else
    match collect gallery 0 [] with
    | [] => None
    | (first, items) :: entries =>
        let fileNameToElements := (first, items) :: entries in
        let shortestFileName := shortestOf first (map fst entries) in
        let shortestNameWithoutExt :=
          let stem := Js.before "." shortestFileName in
          if stem =? EmptyString then shortestFileName else stem in
        let hiddenIndices :=
          fold_left (hideGroup shortestFileName shortestNameWithoutExt)
            fileNameToElements [] in
        Some (hiddenIndices, length gallery - length hiddenIndices)
    end.

End Filter.

Definition itemsOf (m : list (string * list Item)) : list Item :=
  concat (map snd m).

(** The items the second loop hides in a group, if they are HTML elements. *)
Definition candidates (shortestFileName shortestNameWithoutExt : string)
  (entry : string * list Item) : list Item :=
  if negb (fst entry =? shortestFileName)
     && Js.includes shortestNameWithoutExt (fst entry)
  then snd entry else tl (snd entry).

(** What the first loop keeps true of the Map. *)
Definition collected (gallery : list Media) (n : nat)
  (m : list (string * list Item)) : Prop :=
  (forall item, In item (itemsOf m) ->
                snd item < n
                /\ nth_error gallery (snd item) = Some (fst item)
                /\ m_src (fst item) <> None)
  /\ NoDup (map snd (itemsOf m))
  /\ (forall k items, In (k, items) m -> items <> []).

(** The layout class the gallery ends with. *)
Inductive Layout : Type := NoLayout | SingleMedia | MultipleMedia.

Definition layoutOf (visibleCount : nat) : Layout :=
  if Nat.eqb visibleCount 1 then SingleMedia
  else if (1 <? visibleCount)%nat then MultipleMedia
  else NoLayout.

End Gallery.

(* ------------------------------------------------------------------ *)
(** ** A shirt in four colours and two sizes *)

Module Shirt.

Definition radio (node fieldset : nat) (name value id : string)
  (variant connected : option string) (checked : bool) : Element :=
  mkElement node (EInput true) (Some fieldset) (Some name) false value checked
    (Some id) variant connected false false.

(** The controls with colour [color] and size [size] checked, by node. *)
Definition controlsWith (color size : nat) : list Element :=
  [ radio 1 1 "Color" "Red" "1" (Some "101") None (Nat.eqb color 1);
    radio 2 1 "Color" "Blue" "2" (Some "102") None (Nat.eqb color 2);
    radio 3 1 "Color" "Green" "3" (Some "103") None (Nat.eqb color 3);
    radio 6 1 "Color" "Navy" "4" (Some "201") (Some "/products/shirt-navy")
      (Nat.eqb color 6);
    radio 4 2 "Size" "M" "10" None None (Nat.eqb size 4);
    radio 5 2 "Size" "L" "11" None None (Nat.eqb size 5) ].

Definition pickerWith (color size : nat) : Picker :=
  mkPicker (Some "/products/shirt") (Some "7") (controlsWith color size).

Definition red : Element := radio 1 1 "Color" "Red" "1" (Some "101") None false.
Definition blue : Element := radio 2 1 "Color" "Blue" "2" (Some "102") None false.
Definition green : Element := radio 3 1 "Color" "Green" "3" (Some "103") None false.
Definition sizeM : Element := radio 4 2 "Size" "M" "10" None None false.
Definition sizeL : Element := radio 5 2 "Size" "L" "11" None None false.

(** A colour of the combined listing that lives on another product. *)
Definition navy : Element :=
  radio 6 1 "Color" "Navy" "4" (Some "201") (Some "/products/shirt-navy") false.

(** The <main> of the page that shows picker [p]. *)
Definition mainOf (p : Picker) : string :=
  ("<main>" ++ Js.join "-" (map el_value (selectedOptions p)) ++ "</main>")%string.

Definition fragment (color size : nat) : Document :=
  mkDocument true (Some (mainOf (pickerWith color size))) (Some "{}")
    (Some (pickerWith color size)).

(** The responses of the shop, by their text. *)
Definition responses : list (string * Document) :=
  [ ("<main>Red-M</main>", fragment 1 4);
    ("<main>Blue-M</main>", fragment 2 4);
    ("<main>Green-M</main>", fragment 3 4);
    ("<main>Red-L</main>", fragment 1 5);
    ("<main>no picker</main>",
      mkDocument false (Some "<main>no picker</main>") None None);
    ("<main>other picker</main>",
      mkDocument false (Some "<main>other picker</main>") (Some "{}") None) ].

Definition parse (text : string) : Document :=
  match find (fun r => fst r =? text) responses with
  | Some r => snd r
  | None => mkDocument false None None None
  end.

Definition json (text : string) : bool := text =? "{}".

Definition morphPicker (pg : Page) (src : Picker) : Page :=
  mkPage (option_map (fun _ => mainOf src) (pg_main pg)) src.

Definition morphMain (pg : Page) (html : Document) : Page :=
  mkPage (doc_main html)
    (match doc_picker html with
     | Some src => src
     | None => pg_picker pg
     end).

Definition page0 : Page := mkPage (Some "<main>Red-M</main>") (pickerWith 1 4).

(** The picker on the product page, red and M selected, not yet attached. *)
Definition start : State :=
  initial page0 (mkLocation "/products/shirt" None) "product" true false.

Definition go (events : list Event) (s : State) : State :=
  run parse json morphPicker morphMain events s.

(** The same controls in a [swatches-variant-picker-component] on the product
    page, outside any product card: the element is its own
    [closest('swatches-variant-picker-component')]. *)
Definition swatches : State :=
  initial page0 (mkLocation "/products/shirt" None) "product" true true.

(** Attached, the idle pass run, the blue fragment prefetched and the other
    two prefetches failed. *)
Definition warmed : State :=
  go [Connect; Idle 0; PrefetchResponse 0 true "<main>Blue-M</main>";
      PrefetchError 1; PrefetchError 2] start.

End Shirt.

(* ------------------------------------------------------------------ *)
(** ** A paint in fifty-one colours *)

Module Palette.

Definition name (n : nat) : string := String (ascii_of_nat (65 + n)) EmptyString.

Definition colour (n : nat) : Element :=
  mkElement n (EInput true) (Some 1) (Some "Color") false (name n) (Nat.eqb n 0)
    (Some (name n)) None None false false.

(** The first colour is selected. *)
Definition page0 : Page :=
  mkPage (Some "<main>A</main>")
    (mkPicker (Some "/products/paint") (Some "9") (map colour (seq 0 51))).

(** Every response is a page whose <main> is the whole text. *)
Definition parse (text : string) : Document :=
  mkDocument false (Some text) None None.

Definition start : State :=
  initial page0 (mkLocation "/products/paint" None) "product" true false.

Definition go (events : list Event) (s : State) : State :=
  run parse (fun _ => true) Shirt.morphPicker Shirt.morphMain events s.

(** Attach, let the idle pass take the snapshot and start fifty prefetches,
    and let forty-nine of them arrive. *)
Definition fill : list Event :=
  Connect :: Idle 0
    :: map (fun id => PrefetchResponse id true "<main>x</main>") (seq 0 49).

End Palette.

(** No string occurs twice. *)
Fixpoint distinct (l : list string) : bool :=
  match l with
  | [] => true
  | x :: l' => negb (existsb (String.eqb x) l') && distinct l'
  end.

(* ------------------------------------------------------------------ *)
(** ** Statements of the specification that the code does not meet *)

(** "Identical selections and identical context give identical URLs,
    whichever requests were built or pending before." *)
Definition url_ignores_earlier_requests : Prop :=
  forall (s1 s2 : State) (target : Element) (source : option string)
         (values : list string),
    picker s1 = picker s2 ->
    embedded s1 = embedded s2 ->
    fst (buildRequestUrl target source values s1)
    = fst (buildRequestUrl target source values s2).

(** "A colour change on a product page whose request URL is cached is applied
    from the cache, without a network call, and the variant parameter of the
    address is set or cleared." *)
Definition cached_color_change_always_applied : Prop :=
  forall parse json morphPicker morphMain (target : Element) (s : State)
         (requestUrl : string),
    fst (requestUrlFor target s) = Ok requestUrl ->
    servedFromCache target requestUrl s = true ->
    let s' := snd (variantChanged parse json morphPicker morphMain target s) in
    fetchedUrls (trace s') = fetchedUrls (trace s)
    /\ (exists e, morphs s' = morphs s ++ [e])
    /\ loc_variant (location s') = variantOf target.

(** "On a cache miss the fetched fragment is stored in the cache under the
    request URL." *)
Definition fetched_fragment_cached : Prop :=
  forall parse json morphPicker morphMain (target : Element) (s : State)
         (requestUrl text : string),
    changeListeners s = 1 ->
    fst (requestUrlFor target s) = Ok requestUrl ->
    servedFromCache target requestUrl s = false ->
    Js.truthy (doc_payload (parse text)) = true ->
    JsMap.has requestUrl
      (htmlCache
         (run parse json morphPicker morphMain
            [Change target; Response (nextId s) text] s)) = true.

(** "The pass scheduled after a non-colour change does not take the snapshot
    of the current page again." *)
Definition size_change_pass_skips_snapshot : Prop :=
  forall (s : State) (idle : bool),
    htmlCache (snd (runTask (mkTask AfterSizeChange idle 50) s)) = htmlCache s.

(** "A response without the payload or without the picker subtree makes the
    resolution step fail, and the failure reaches its caller." *)
Definition structural_failure_surfaces : Prop :=
  forall parse json morphPicker morphMain (id : nat) (text : string)
         (s : State) (f : UserFetch),
    findFetch id s = Some f ->
    uf_status f = Pending ->
    Js.truthy (doc_payload (parse text)) = false
    \/ (uf_morphMain f = false /\ doc_picker (parse text) = None) ->
    existsb isUncaught
      (trace (step parse json morphPicker morphMain (Response id text) s)) = true.

(** "On detach the scheduled callbacks are cleared and so is the cache." *)
Definition detach_clears_scheduled_work : Prop :=
  forall (s : State),
    scheduled (callback disconnectedCallback s) = []
    /\ htmlCache (callback disconnectedCallback s) = [].

(* ------------------------------------------------------------------ *)
(** ** Invariants and frames *)

(** What the cache is expected to be at any time: a map (no key twice)
    within the capacity. *)
Definition cache_ok (m : JsMap.t) : Prop :=
  NoDup (JsMap.keys m) /\ JsMap.size m <= MAX_CACHE_SIZE.

(** [c] does not change what [f] reads from the state, whether it returns or
    throws. *)
Definition preserves {A B : Type} (f : State -> B) (c : M A) : Prop :=
  forall s, f (snd (c s)) = f s.


(* ------------------------------------------------------------------ *)
(** ** Further observations *)

Definition isPending (f : UserFetch) : bool :=
  match uf_status f with
  | Pending => true
  | _ => false
  end.

(** What the work in the background has no business with: the user's fetch
    and its controller, the listeners, the page, the address, the scheduled
    callbacks and the morphs done so far. *)
Definition foreground (s : State)
  : list UserFetch * option nat * nat * Page * Location * list Task * list Effect :=
  (userFetches s, abortController s, changeListeners s, page s, location s,
   scheduled s, morphs s).

(** The user's fetches, their controller and the 'change' listeners. *)
Definition wiring (s : State) : list UserFetch * option nat * nat :=
  (userFetches s, abortController s, changeListeners s).

Definition isConnect (e : Event) : bool :=
  match e with
  | Connect => true
  | _ => false
  end.

(** The inputs the prefetch loop does anything for: those of a colour option
    that are checked (they set [currentlySelected]) or visible. *)
Definition mattersToPrefetch (e : Element) : bool :=
  isColorOption e && (el_checked e || negb (el_labelHidden e)).

(** What [#buildHoverUrl] reads for an input inside a fieldset, and what the
    prefetch loop tests its result against. *)
Definition hoverContext (s : State) : Picker * bool * JsMap.t :=
  (picker s, embedded s, htmlCache s).

(** [currentlySelected?.name] after the loop has passed [input]. *)
Definition nextSelected (input : Element) (currentlySelected : option string)
  : option string :=
  if el_checked input && isColorOption input then Some (el_value input)
  else currentlySelected.

(** [isSameColorAsSelected] of the loop. *)
Definition sameAs (currentlySelected : option string) (input : Element) : bool :=
  match currentlySelected with
  | Some name => el_value input =? name
  | None => false
  end.

(** An input the loop of [#prefetchAvailableColorVariants] does not skip,
    wherever the checked colour inputs stand: unchecked, of a colour option,
    visible, and of another value than any checked colour input. *)
Definition prefetchCandidate (allInputs : list Element) (input : Element) : bool :=
  negb (el_checked input)
  && isColorOption input
  && negb (el_labelHidden input)
  && negb (existsb (fun c => el_checked c && isColorOption c
                             && (el_value input =? el_value c))
             allInputs).

(** [opt.closest('fieldset') === fieldset] of [#buildHoverUrl], the fieldsets
    being numbered. *)
Definition inFieldset (fieldset : nat) (e : Element) : bool :=
  match el_fieldset e with
  | Some f => Nat.eqb f fieldset
  | None => false
  end.

(** [option.dataset.optionValueId] of a control inside a URL. *)
Definition idOf (e : Element) : string := Js.template (el_optionValueId e).
(* ------------------------------------------------------------------ *)
(** ** The map *)

Lemma has_In (k : string) (m : JsMap.t) :
  JsMap.has k m = true <-> In k (JsMap.keys m).
Proof.
  induction m as [|[k' v'] m IH]; simpl.
  - split; [discriminate | tauto].
  - rewrite orb_true_iff, IH, String.eqb_eq. tauto.
Qed.

Lemma set_size (k v : string) (m : JsMap.t) :
  JsMap.size (JsMap.set k v m)
  = if JsMap.has k m then JsMap.size m else S (JsMap.size m).
Proof.
  induction m as [|[k' v'] m IH]; simpl; [reflexivity|].
  destruct (k' =? k); simpl; [reflexivity|].
  unfold JsMap.size in *. rewrite IH. destruct (JsMap.has k m); reflexivity.
Qed.

Lemma set_new (k v : string) (m : JsMap.t) :
  JsMap.has k m = false -> JsMap.set k v m = m ++ [(k, v)].
Proof.
  induction m as [|[k' v'] m IH]; simpl; [reflexivity|].
  intros H. apply orb_false_iff in H as [Hk Hm].
  rewrite Hk, IH by assumption. reflexivity.
Qed.

Lemma set_keys (k v : string) (m : JsMap.t) :
  JsMap.keys (JsMap.set k v m)
  = if JsMap.has k m then JsMap.keys m else JsMap.keys m ++ [k].
Proof.
  induction m as [|[k' v'] m IH]; simpl; [reflexivity|].
  destruct (k' =? k); simpl; [reflexivity|].
  unfold JsMap.keys in *. rewrite IH. destruct (JsMap.has k m); reflexivity.
Qed.

Lemma get_set_same (k v : string) (m : JsMap.t) :
  JsMap.get k (JsMap.set k v m) = Some v.
Proof.
  induction m as [|[k' v'] m IH]; simpl.
  - now rewrite String.eqb_refl.
  - destruct (k' =? k) eqn:E; simpl; rewrite E; [reflexivity | exact IH].
Qed.

Lemma get_set_other (k k' v : string) (m : JsMap.t) :
  k' <> k -> JsMap.get k' (JsMap.set k v m) = JsMap.get k' m.
Proof.
  intros Hne. induction m as [|[k0 v0] m IH]; simpl.
  - apply String.eqb_neq in Hne. rewrite String.eqb_sym in Hne. now rewrite Hne.
  - destruct (k0 =? k) eqn:E; simpl.
    + apply String.eqb_eq in E. subst k0.
      assert ((k =? k') = false) as -> by (apply String.eqb_neq; congruence).
      reflexivity.
    + destruct (k0 =? k'); [reflexivity | exact IH].
Qed.

Lemma has_set_other (k k' v : string) (m : JsMap.t) :
  k' <> k -> JsMap.has k' (JsMap.set k v m) = JsMap.has k' m.
Proof.
  intros Hne. induction m as [|[k0 v0] m IH]; simpl.
  - apply String.eqb_neq in Hne. rewrite String.eqb_sym in Hne. now rewrite Hne.
  - destruct (k0 =? k) eqn:E; simpl; [reflexivity | now rewrite IH].
Qed.

Lemma NoDup_set (k v : string) (m : JsMap.t) :
  NoDup (JsMap.keys m) -> NoDup (JsMap.keys (JsMap.set k v m)).
Proof.
  intros H. rewrite set_keys. destruct (JsMap.has k m) eqn:E; [assumption|].
  apply NoDup_app; [assumption | repeat constructor; intros [] | ].
  intros x Hx [Hk|[]]. subst x. apply has_In in Hx. congruence.
Qed.

Lemma deleteFirst_cons (k v : string) (m : JsMap.t) :
  JsMap.deleteFirst ((k, v) :: m) = m.
Proof. unfold JsMap.deleteFirst. simpl. now rewrite String.eqb_refl. Qed.

Lemma deleteFirst_size (m : JsMap.t) :
  JsMap.size (JsMap.deleteFirst m) = pred (JsMap.size m).
Proof. destruct m as [|[k v] m]; [reflexivity | now rewrite deleteFirst_cons]. Qed.

Lemma NoDup_deleteFirst (m : JsMap.t) :
  NoDup (JsMap.keys m) -> NoDup (JsMap.keys (JsMap.deleteFirst m)).
Proof.
  destruct m as [|[k v] m]; [trivial|].
  rewrite deleteFirst_cons. simpl. now inversion 1.
Qed.

Lemma cache_put_ok (url html : string) (m : JsMap.t) :
  cache_ok m -> cache_ok (cache_put url html m).
Proof.
  intros [Hnd Hsz]. unfold cache_put, cache_ok, MAX_CACHE_SIZE in *.
  destruct (50 <=? JsMap.size m)%nat eqn:E.
  - split.
    + now apply NoDup_set, NoDup_deleteFirst.
    + rewrite set_size, deleteFirst_size. apply Nat.leb_le in E.
      destruct (JsMap.has url (JsMap.deleteFirst m)); lia.
  - split.
    + now apply NoDup_set.
    + rewrite set_size. apply Nat.leb_gt in E.
      destruct (JsMap.has url m); lia.
Qed.

Lemma cache_put_full_new (url html k v : string) (m : JsMap.t) :
  JsMap.size ((k, v) :: m) = MAX_CACHE_SIZE ->
  JsMap.has url ((k, v) :: m) = false ->
  cache_put url html ((k, v) :: m) = m ++ [(url, html)].
Proof.
  intros Hsz Hnew. unfold cache_put. rewrite Hsz, Nat.leb_refl, deleteFirst_cons.
  simpl in Hnew. apply orb_false_iff in Hnew as [_ Hnew]. now apply set_new.
Qed.

Lemma cache_put_room_new (url html : string) (m : JsMap.t) :
  JsMap.size m < MAX_CACHE_SIZE ->
  JsMap.has url m = false ->
  cache_put url html m = m ++ [(url, html)].
Proof.
  intros Hsz Hnew. unfold cache_put.
  apply Nat.leb_gt in Hsz. rewrite Hsz. now apply set_new.
Qed.

Lemma get_cache_put_same (url html : string) (m : JsMap.t) :
  JsMap.get url (cache_put url html m) = Some html.
Proof. unfold cache_put. apply get_set_same. Qed.

(* ------------------------------------------------------------------ *)
(** ** What a method leaves alone *)

Section Preserves.

Context {B : Type} (f : State -> B).

Lemma preserves_ret {A : Type} (a : A) : preserves f (ret a).
Proof. intros s. reflexivity. Qed.

Lemma preserves_throw {A : Type} (msg : string) : preserves f (@throw A msg).
Proof. intros s. reflexivity. Qed.

Lemma preserves_get : preserves f get.
Proof. intros s. reflexivity. Qed.

Lemma preserves_lift {A : Type} (r : Result A) : preserves f (lift r).
Proof. intros s. reflexivity. Qed.

Lemma preserves_modify (g : State -> State) :
  (forall s, f (g s) = f s) -> preserves f (modify g).
Proof. intros H s. apply H. Qed.

Lemma preserves_bind {A C : Type} (c : M A) (k : A -> M C) :
  preserves f c -> (forall a, preserves f (k a)) -> preserves f (bind c k).
Proof.
  intros Hc Hk s. unfold bind. specialize (Hc s).
  destruct (c s) as [[a|msg] s']; simpl in *.
  - now rewrite Hk.
  - exact Hc.
Qed.

Lemma preserves_try (c : M unit) : preserves f c -> preserves f (try_ c).
Proof.
  intros Hc s. unfold try_. specialize (Hc s).
  destruct (c s) as [[a|msg] s']; exact Hc.
Qed.

Lemma preserves_when (b : bool) (c : M unit) :
  preserves f c -> preserves f (when b c).
Proof. intros Hc. destruct b; [exact Hc | apply preserves_ret]. Qed.

End Preserves.

Ltac frame_step :=
  lazymatch goal with
  | |- preserves _ (bind _ _) => apply preserves_bind; [ | intros ? ]
  | |- preserves _ (ret _) => apply preserves_ret
  | |- preserves _ (throw _) => apply preserves_throw
  | |- preserves _ get => apply preserves_get
  | |- preserves _ (lift _) => apply preserves_lift
  | |- preserves _ (try_ _) => apply preserves_try
  | |- preserves _ (when _ _) => apply preserves_when
  | |- preserves _ (modify _) => apply preserves_modify; intros []; reflexivity
  | |- preserves _ (match ?x with _ => _ end) => destruct x
  | |- preserves _ (let _ := _ in _) => cbv zeta
  end.

Create HintDb frame.

Ltac frame := repeat first [ solve [ auto with frame ] | frame_step ].

Lemma emit_cache (e : Effect) : preserves htmlCache (emit e).
Proof. unfold emit. frame. Qed.

Lemma buildRequestUrl_cache (target : Element) (source : option string)
  (values : list string) :
  preserves htmlCache (buildRequestUrl target source values).
Proof. unfold buildRequestUrl. frame. Qed.

#[export] Hint Resolve emit_cache buildRequestUrl_cache : frame.

Lemma buildHoverUrl_cache (option : Element) :
  preserves htmlCache (buildHoverUrl option).
Proof. unfold buildHoverUrl. frame. Qed.

Lemma startPrefetch_cache (url : string) : preserves htmlCache (startPrefetch url).
Proof. unfold startPrefetch. frame. Qed.

#[export] Hint Resolve buildHoverUrl_cache startPrefetch_cache : frame.

Lemma prefetchSingleVariant_cache (option : Element) :
  preserves htmlCache (prefetchSingleVariant option).
Proof. unfold prefetchSingleVariant. frame. Qed.

#[export] Hint Resolve prefetchSingleVariant_cache : frame.

Lemma prefetchEach_cache (inputs : list Element) (current : option string) :
  preserves htmlCache (prefetchEach inputs current).
Proof.
  revert current. induction inputs as [|option rest IH]; intros current; simpl.
  - frame.
  - apply preserves_bind; [ frame | intros _; apply IH ].
Qed.

#[export] Hint Resolve prefetchEach_cache : frame.

Lemma prefetchAvailableColorVariants_cache :
  preserves htmlCache prefetchAvailableColorVariants.
Proof. unfold prefetchAvailableColorVariants. frame. Qed.

Lemma schedule_cache (origin : Origin) (timeout : nat) :
  preserves htmlCache (schedule origin timeout).
Proof. unfold schedule. frame. Qed.

#[export] Hint Resolve prefetchAvailableColorVariants_cache schedule_cache : frame.

Lemma connectedCallback_cache : preserves htmlCache connectedCallback.
Proof. unfold connectedCallback, setupVariantHoverListeners. frame. Qed.

Lemma updateSelectedOption_cache (target : Element) :
  preserves htmlCache (updateSelectedOption target).
Proof. unfold updateSelectedOption. frame. Qed.

#[export] Hint Resolve connectedCallback_cache updateSelectedOption_cache : frame.

Section PlatformFrames.

Variable parseFromString : string -> Document.
Variable JSON_parses : string -> bool.
Variable morph_picker : Page -> Picker -> Page.
Variable morph_main : Page -> Document -> Page.

Lemma applyUpdate_cache (html : Document) (textContent : string)
  (shouldMorphMain isColorChange : bool) :
  preserves htmlCache
    (applyUpdate JSON_parses morph_picker morph_main html textContent
       shouldMorphMain isColorChange).
Proof.
  unfold applyUpdate, morphAndAnnounce, updateMain, updateVariantPicker,
    prefetchAfterSizeChange.
  frame.
Qed.

#[local] Hint Resolve applyUpdate_cache : frame.

Lemma updateWithCachedHtml_cache (html : Document) (morphMain isColor : bool) :
  preserves htmlCache
    (updateWithCachedHtml JSON_parses morph_picker morph_main html morphMain isColor).
Proof. unfold updateWithCachedHtml. frame. Qed.

Lemma fetchUpdatedSection_then_cache (text : string) (morphMain isColor : bool) :
  preserves htmlCache
    (fetchUpdatedSection_then parseFromString JSON_parses morph_picker morph_main
       text morphMain isColor).
Proof. unfold fetchUpdatedSection_then. frame. Qed.

Lemma fetchUpdatedSection_cache (url : string) (morphMain isColor : bool) :
  preserves htmlCache (fetchUpdatedSection url morphMain isColor).
Proof. unfold fetchUpdatedSection, abort. frame. Qed.

Lemma replaceState_cache (url : Location) : preserves htmlCache (replaceState url).
Proof. unfold replaceState. frame. Qed.

#[local] Hint Resolve updateWithCachedHtml_cache fetchUpdatedSection_then_cache
  fetchUpdatedSection_cache replaceState_cache : frame.

(** Reading the cache does not reorder it: no handler of a selection writes
    to [#htmlCache]. *)
Lemma variantChanged_cache (target : Element) :
  preserves htmlCache
    (variantChanged parseFromString JSON_parses morph_picker morph_main target).
Proof. unfold variantChanged. frame. Qed.

End PlatformFrames.

(* ------------------------------------------------------------------ *)
(** ** The cache along a run *)

Lemma distinct_NoDup (l : list string) : distinct l = true -> NoDup l.
Proof.
  induction l as [|x l IH]; simpl; intros H; constructor.
  - apply andb_true_iff in H as [H _]. intros Hin.
    apply negb_true_iff in H.
    assert (existsb (String.eqb x) l = true) as E; [|congruence].
    apply existsb_exists. exists x. split; [assumption | apply String.eqb_refl].
  - apply andb_true_iff in H as [_ H]. auto.
Qed.

Lemma cacheCurrentPage_run (s : State) :
  cacheCurrentPage s
  = (Ok tt,
     match currentPageUrl (picker s), pg_main (page s) with
     | Some url, Some currentHtml =>
         set_htmlCache (cache_put url currentHtml (htmlCache s)) s
     | _, _ => s
     end).
Proof.
  unfold cacheCurrentPage, bind, get. simpl.
  destruct (currentPageUrl (picker s)); [|reflexivity].
  destruct (pg_main (page s)); reflexivity.
Qed.

Lemma cacheCurrentPage_cache (s : State) :
  htmlCache (snd (cacheCurrentPage s))
  = match currentPageUrl (picker s), pg_main (page s) with
    | Some url, Some currentHtml => cache_put url currentHtml (htmlCache s)
    | _, _ => htmlCache s
    end.
Proof.
  rewrite cacheCurrentPage_run. simpl.
  destruct (currentPageUrl (picker s)); [|reflexivity].
  destruct (pg_main (page s)); [|reflexivity].
  destruct s; reflexivity.
Qed.

Lemma runTask_cache (t : Task) (s : State) :
  htmlCache (snd (runTask t s)) = htmlCache (snd (cacheCurrentPage s)).
Proof.
  assert (forall s, htmlCache (snd ((cacheCurrentPage ;; prefetchAvailableColorVariants)%js s))
                    = htmlCache (snd (cacheCurrentPage s))) as H.
  { intros s0. unfold bind at 1. rewrite cacheCurrentPage_run. simpl.
    apply prefetchAvailableColorVariants_cache. }
  unfold runTask. destruct (t_origin t); apply H.
Qed.

Lemma prefetchSingleVariant_resume_cache parse (url : string) (ok : bool)
  (text : string) (s : State) :
  htmlCache (snd (prefetchSingleVariant_resume parse url ok text s))
  = if ok && negb (Js.isBlank text) then
      match doc_main (parse text) with
      | Some minimalHtml => cache_put url minimalHtml (htmlCache s)
      | None => htmlCache s
      end
    else htmlCache s.
Proof.
  unfold prefetchSingleVariant_resume, try_.
  destruct ok; simpl; [|reflexivity].
  destruct text as [|a text]; [reflexivity|].
  change (String a text =? EmptyString) with false. simpl orb.
  destruct (Js.isBlank (String a text)); simpl; [reflexivity|].
  destruct (doc_main (parse (String a text))); [|reflexivity].
  destruct s; reflexivity.
Qed.

Lemma callback_preserves {B : Type} (f : State -> B) (c : M unit) :
  (forall x s, f (set_trace x s) = f s) ->
  preserves f c -> forall s, f (callback c s) = f s.
Proof.
  intros Hf Hc s. unfold callback. specialize (Hc s).
  destruct (c s) as [[a|msg] s']; simpl in *; [assumption|].
  now rewrite Hf.
Qed.

Lemma htmlCache_set_trace (x : list Effect) (s : State) :
  htmlCache (set_trace x s) = htmlCache s.
Proof. destruct s; reflexivity. Qed.

Section Runs.

Variable parseFromString : string -> Document.
Variable JSON_parses : string -> bool.
Variable morph_picker : Page -> Picker -> Page.
Variable morph_main : Page -> Document -> Page.

Abbreviation step := (step parseFromString JSON_parses morph_picker morph_main).
Abbreviation run := (run parseFromString JSON_parses morph_picker morph_main).

(** A 'change' event never writes to the cache. *)
Lemma change_cache (target : Element) (s : State) :
  htmlCache (step (Change target) s) = htmlCache s.
Proof.
  simpl. generalize (changeListeners s) as n.
  assert (htmlCache (userPicks target s) = htmlCache s) as <-.
  { unfold userPicks. destruct (el_kind target) as [[|]| | |];
      try reflexivity. destruct (el_fieldset target); destruct s; reflexivity. }
  generalize (userPicks target s) as s0.
  intros s0 n. induction n as [|n IH]; simpl; [reflexivity|].
  rewrite callback_preserves; [exact IH | apply htmlCache_set_trace | ].
  apply variantChanged_cache.
Qed.

(** Each step leaves the cache as it is, empties it, or adds to it with
    [cache_put]. *)
Lemma step_cache (e : Event) (s : State) :
  htmlCache (step e s) = htmlCache s
  \/ htmlCache (step e s) = []
  \/ exists url html, htmlCache (step e s) = cache_put url html (htmlCache s).
Proof.
  destruct e as [| |target|k|id text|id|id ok text|id].
  - left. simpl. apply callback_preserves;
      [apply htmlCache_set_trace | apply connectedCallback_cache].
  - right. left. simpl. unfold callback, disconnectedCallback, bind, get, when, modify.
    simpl. destruct (listenersAttached s && boundHoverHandler s && boundLeaveHandler s);
      destruct s; reflexivity.
  - left. apply change_cache.
  - simpl. destruct (nth_error (scheduled s) k) as [t|]; [|now left].
    set (s1 := set_scheduled _ s).
    assert (htmlCache s1 = htmlCache s) as E1 by (destruct s; reflexivity).
    assert (htmlCache (callback (runTask t) s1) = htmlCache (snd (runTask t s1))) as ->.
    { unfold callback. destruct (runTask t s1) as [[a|msg] s']; simpl;
        [reflexivity | apply htmlCache_set_trace]. }
    rewrite runTask_cache, cacheCurrentPage_cache, E1.
    destruct (currentPageUrl (picker s1)); [|now left].
    destruct (pg_main (page s1)); [|now left].
    right. right. eauto.
  - left. simpl. unfold deliver.
    destruct (findFetch id s) as [f|]; [|reflexivity].
    destruct (uf_status f); try reflexivity.
    rewrite (preserves_try htmlCache _
               (fetchUpdatedSection_then_cache parseFromString JSON_parses
                  morph_picker morph_main text (uf_morphMain f) (uf_isColorChange f))).
    destruct s; reflexivity.
  - left. simpl. unfold fail.
    destruct (findFetch id s) as [f|]; [|reflexivity].
    destruct (uf_status f); try reflexivity. destruct s; reflexivity.
  - simpl. destruct (findPrefetch id s) as [url|]; [|now left].
    rewrite prefetchSingleVariant_resume_cache.
    assert (htmlCache (dropPrefetch id s) = htmlCache s) as -> by (destruct s; reflexivity).
    destruct (ok && negb (Js.isBlank text)); [|now left].
    destruct (doc_main (parseFromString text)); [|now left].
    right. right. eauto.
  - left. simpl. destruct s; reflexivity.
Qed.

Lemma step_cache_ok (e : Event) (s : State) :
  cache_ok (htmlCache s) -> cache_ok (htmlCache (step e s)).
Proof.
  intros H. destruct (step_cache e s) as [E|[E|(url & html & E)]]; rewrite E.
  - assumption.
  - split; [constructor | simpl; unfold MAX_CACHE_SIZE; lia].
  - now apply cache_put_ok.
Qed.

Lemma run_cache_ok (events : list Event) (s : State) :
  cache_ok (htmlCache s) -> cache_ok (htmlCache (run events s)).
Proof.
  revert s. induction events as [|e events IH]; intros s H; simpl; [assumption|].
  apply IH. now apply step_cache_ok.
Qed.

End Runs.

(* ------------------------------------------------------------------ *)
(** ** The fragment cache: capacity and eviction *)

Lemma initial_cache_ok (pg : Page) (loc : Location) (template : string)
  (idle inCard : bool) :
  cache_ok (htmlCache (initial pg loc template idle inCard)).
Proof. split; [constructor | simpl; unfold MAX_CACHE_SIZE; lia]. Qed.

Lemma full_cache_evicts (url html : string) (m : JsMap.t) :
  NoDup (JsMap.keys m) ->
  JsMap.has url m = false ->
  JsMap.size m = MAX_CACHE_SIZE ->
  exists oldest v rest,
    m = (oldest, v) :: rest
    /\ cache_put url html m = rest ++ [(url, html)]
    /\ JsMap.has oldest (cache_put url html m) = false
    /\ forall k, k <> oldest ->
         JsMap.get k (cache_put url html m)
         = if k =? url then Some html else JsMap.get k m.
Proof.
  intros Hnd Hnew Hsz. destruct m as [|[oldest v] rest]; [discriminate|].
  exists oldest, v, rest. split; [reflexivity|].
  assert (cache_put url html ((oldest, v) :: rest) = JsMap.set url html rest) as Eset.
  { unfold cache_put. now rewrite Hsz, Nat.leb_refl, deleteFirst_cons. }
  simpl in Hnew. apply orb_false_iff in Hnew as [Hhead Hrest].
  split; [|split].
  - rewrite Eset. now apply set_new.
  - rewrite Eset, has_set_other.
    + simpl in Hnd. inversion Hnd as [|? ? Hnotin _]; subst.
      destruct (JsMap.has oldest rest) eqn:E; [|reflexivity].
      apply has_In in E. contradiction.
    + apply String.eqb_neq in Hhead. congruence.
  - intros k Hk. rewrite Eset. destruct (k =? url) eqn:E.
    + apply String.eqb_eq in E. subst k. apply get_set_same.
    + apply String.eqb_neq in E. rewrite get_set_other by assumption.
      simpl. apply String.eqb_neq in Hk. rewrite String.eqb_sym in Hk.
      now rewrite Hk.
Qed.

(** C2. Along every run of the picker the fragment cache holds at most 50
    entries. The only writes are [cache_put] at the snapshot site and at the
    prefetch site and the [clear] on detach; a [cache_put] of a new key below
    capacity appends it; at capacity it removes exactly the head of the
    insertion order, the entry inserted first, and leaves every other key
    with its fragment; a selection, served from the cache or not, does not
    change the cache, so a read promotes nothing. *)
Theorem fragment_cache_bounded_fifo
  (parse : string -> Document) (json : string -> bool)
  (morphPicker : Page -> Picker -> Page) (morphMain : Page -> Document -> Page)
  (pg : Page) (loc : Location) (template : string) (idle inCard : bool)
  (events : list Event) (url html : string) :
  let s := run parse json morphPicker morphMain events
             (initial pg loc template idle inCard) in
  let m := htmlCache s in
  JsMap.size m <= MAX_CACHE_SIZE
  /\ JsMap.size (cache_put url html m) <= MAX_CACHE_SIZE
  /\ (forall e,
        let m' := htmlCache (step parse json morphPicker morphMain e s) in
        m' = m \/ m' = [] \/ exists url' html', m' = cache_put url' html' m)
  /\ (JsMap.has url m = false -> JsMap.size m < MAX_CACHE_SIZE ->
        cache_put url html m = m ++ [(url, html)])
  /\ (JsMap.has url m = false -> JsMap.size m = MAX_CACHE_SIZE ->
        exists oldest v rest,
          m = (oldest, v) :: rest
          /\ cache_put url html m = rest ++ [(url, html)]
          /\ JsMap.has oldest (cache_put url html m) = false
          /\ forall k, k <> oldest ->
               JsMap.get k (cache_put url html m)
               = if k =? url then Some html else JsMap.get k m)
  /\ (forall target,
        htmlCache (step parse json morphPicker morphMain (Change target) s) = m).
Proof.
  intros s m.
  assert (cache_ok m) as Hok.
  { apply run_cache_ok, initial_cache_ok. }
  split; [apply Hok|].
  split; [apply (cache_put_ok url html m Hok)|].
  split; [intros e; apply step_cache|].
  split; [intros Hnew Hsz; now apply cache_put_room_new|].
  split; [intros Hnew Hsz; apply full_cache_evicts; [apply Hok|assumption..]|].
  intros target. apply change_cache.
Qed.

(** At capacity after fifty insertions, the fifty-first evicts the snapshot,
    which went in first. *)
Lemma fragment_cache_bounded_fifo_witness :
  let m := htmlCache (Palette.go Palette.fill Palette.start) in
  JsMap.size m = 50
  /\ JsMap.firstKey m = Some "/products/paint?option_values=A"
  /\ JsMap.size (cache_put "/products/paint?option_values=s" "<main>x</main>" m) <= 50
  /\ JsMap.has "/products/paint?option_values=A"
       (cache_put "/products/paint?option_values=s" "<main>x</main>" m) = false
  /\ JsMap.get "/products/paint?option_values=B"
       (cache_put "/products/paint?option_values=s" "<main>x</main>" m)
     = Some "<main>x</main>".
Proof.
  intros m.
  pose proof (fragment_cache_bounded_fifo Palette.parse (fun _ => true)
                Shirt.morphPicker Shirt.morphMain Palette.page0
                (mkLocation "/products/paint" None) "product" true false
                Palette.fill "/products/paint?option_values=s" "<main>x</main>")
    as (_ & Hput & _ & _ & Hfull & _).
  destruct Hfull as (oldest & v & rest & Em & _ & Hgone & Hkeep);
    [vm_compute; reflexivity | vm_compute; reflexivity |].
  assert (oldest = "/products/paint?option_values=A") as ->.
  { vm_compute in Em. congruence. }
  split; [vm_compute; reflexivity|].
  split; [vm_compute; reflexivity|].
  split; [exact Hput|].
  split; [exact Hgone|].
  rewrite Hkeep by discriminate. vm_compute. reflexivity.
Defined.

(** C10. With exactly 50 entries in the cache, a put of a key that is already
    there (and is not the oldest) still deletes the oldest entry before it
    overwrites: the oldest fragment is lost and the cache is left with 49
    entries. Both writers do so, the snapshot and the prefetch. *)
Theorem redundant_put_evicts_oldest (parse : string -> Document) (s : State)
  (oldest v url html : string) (rest : JsMap.t) :
  htmlCache s = (oldest, v) :: rest ->
  NoDup (JsMap.keys (htmlCache s)) ->
  JsMap.size (htmlCache s) = MAX_CACHE_SIZE ->
  JsMap.has url rest = true ->
  url <> oldest ->
  let m' := cache_put url html (htmlCache s) in
  JsMap.has oldest m' = false
  /\ JsMap.get url m' = Some html
  /\ JsMap.size m' = 49
  /\ (currentPageUrl (picker s) = Some url -> pg_main (page s) = Some html ->
      htmlCache (snd (cacheCurrentPage s)) = m')
  /\ (forall text, Js.isBlank text = false -> doc_main (parse text) = Some html ->
      htmlCache (snd (prefetchSingleVariant_resume parse url true text s)) = m').
Proof.
  intros Em Hnd Hsz Hin Hne m'.
  assert (m' = JsMap.set url html rest) as Eset.
  { unfold m', cache_put. rewrite Hsz, Nat.leb_refl, Em. now rewrite deleteFirst_cons. }
  split; [|split; [|split; [|split]]].
  - rewrite Eset, has_set_other by congruence.
    rewrite Em in Hnd. simpl in Hnd. inversion Hnd as [|? ? Hnotin _]; subst.
    destruct (JsMap.has oldest rest) eqn:E; [|reflexivity].
    apply has_In in E. contradiction.
  - apply get_cache_put_same.
  - rewrite Eset, set_size, Hin. rewrite Em in Hsz.
    unfold MAX_CACHE_SIZE, JsMap.size in *. simpl in Hsz. lia.
  - intros Hurl Hmain. rewrite cacheCurrentPage_cache, Hurl, Hmain. reflexivity.
  - intros text Hblank Hmain.
    rewrite prefetchSingleVariant_resume_cache, Hblank, Hmain. reflexivity.
Qed.

(** A second response for a fragment that is already cached, with the cache
    at capacity, drops the snapshot and leaves 49 entries. *)
Lemma redundant_put_evicts_oldest_witness :
  let s := Palette.go Palette.fill Palette.start in
  let s' := snd (prefetchSingleVariant_resume Palette.parse
                   "/products/paint?option_values=B" true "<main>y</main>" s) in
  JsMap.size (htmlCache s) = 50
  /\ JsMap.size (htmlCache s') = 49
  /\ JsMap.has "/products/paint?option_values=A" (htmlCache s') = false
  /\ JsMap.get "/products/paint?option_values=B" (htmlCache s') = Some "<main>y</main>".
Proof.
  intros s s'.
  destruct (redundant_put_evicts_oldest Palette.parse s
              "/products/paint?option_values=A" "<main>A</main>"
              "/products/paint?option_values=B" "<main>y</main>"
              (tl (htmlCache s)))
    as (Hgone & Hget & Hsize & _ & Hsite).
  - vm_compute. reflexivity.
  - apply distinct_NoDup. vm_compute. reflexivity.
  - vm_compute. reflexivity.
  - vm_compute. reflexivity.
  - discriminate.
  - unfold s'. rewrite (Hsite "<main>y</main>") by (vm_compute; reflexivity).
    split; [vm_compute; reflexivity|].
    split; [exact Hsize|]. split; [exact Hgone | exact Hget].
Defined.

(* ------------------------------------------------------------------ *)
(** ** The request URL *)

(** With a request for the navy shirt pending, the URL built for size L
    starts from the navy product; once that request is answered it starts
    from the shirt again. The picker and its context are the same in both
    states. *)
Lemma url_ignores_earlier_requests_fails : ~ url_ignores_earlier_requests.
Proof.
  intros H.
  specialize
    (H (Shirt.go [Connect; Change Shirt.navy] Shirt.start)
       (Shirt.go [Connect; Change Shirt.navy; Response 0 "<main>no picker</main>"]
          Shirt.start)
       Shirt.sizeL None [] eq_refl eq_refl).
  vm_compute in H. discriminate H.
Qed.

Lemma buildRequestUrl_result (target : Element) (source : option string)
  (values : list string) (s : State) :
  fst (buildRequestUrl target source values s)
  = match selectedOptionsValues (picker s) with
    | Throw msg => Throw msg
    | Ok selected =>
        Ok (renderUrl (embedded s)
              (Js.or (el_connectedProductUrl target)
                 (Js.or (pendingRequestUrl s) (productUrl (picker s))))
              (if negb (Nat.eqb (length selected) 0) && negb (Js.truthy source) then
                 [("option_values=" ++ Js.join "," selected)%string]
               else if opt_eqb source (Some "product-card") then
                 if negb (Nat.eqb (length selected) 0) then
                   [("option_values=" ++ Js.join "," values)%string]
                 else [("option_values=" ++ Js.template (el_optionValueId target))%string]
               else []))
    end.
Proof.
  unfold buildRequestUrl, bind, get, modify, lift, ret. simpl.
  assert (picker (set_pendingRequestUrl
                    (Js.or (el_connectedProductUrl target)
                       (Js.or (pendingRequestUrl s) (productUrl (picker s)))) s)
          = picker s) as E by (destruct s; reflexivity).
  destruct (selectedOptionsValues (picker s)) as [selected|msg]; reflexivity.
Qed.

(** C1, as the code has it. The URL [buildRequestUrl] returns is a function
    of the selected options in document order, of the product URL of the
    picker, of the embedding, of the changed value and of the product URL of
    the request that is pending, if any: two states that agree on these give
    the same URL (or the same error), whatever their caches, their fetches in
    flight and their histories are. When the changed value carries a
    connected-product URL the pending request does not matter either. *)
Theorem buildRequestUrl_deterministic (s1 s2 : State) (target : Element)
  (source : option string) (values : list string) :
  selectedOptions (picker s1) = selectedOptions (picker s2) ->
  productUrl (picker s1) = productUrl (picker s2) ->
  embedded s1 = embedded s2 ->
  Js.truthy (el_connectedProductUrl target) = true
  \/ pendingRequestUrl s1 = pendingRequestUrl s2 ->
  fst (buildRequestUrl target source values s1)
  = fst (buildRequestUrl target source values s2).
Proof.
  intros Hsel Hurl Hemb Hpending.
  rewrite !buildRequestUrl_result. unfold selectedOptionsValues.
  rewrite Hsel, Hurl, Hemb.
  destruct Hpending as [Hconn | ->]; [|reflexivity].
  unfold Js.or at 1 3. rewrite Hconn. reflexivity.
Qed.

(** Before and after the idle pass and its prefetches the URL for blue is
    the same. *)
Lemma buildRequestUrl_deterministic_witness :
  fst (buildRequestUrl Shirt.blue None [] Shirt.start)
  = fst (buildRequestUrl Shirt.blue None [] Shirt.warmed)
  /\ htmlCache Shirt.start <> htmlCache Shirt.warmed.
Proof.
  split.
  - apply (buildRequestUrl_deterministic Shirt.start Shirt.warmed Shirt.blue None []).
    + vm_compute. reflexivity.
    + vm_compute. reflexivity.
    + vm_compute. reflexivity.
    + right. vm_compute. reflexivity.
  - vm_compute. discriminate.
Defined.

(* ------------------------------------------------------------------ *)
(** ** Selections that overtake a pending fetch *)

(** C4, where the code departs from it. Green is selected and its fetch
    (number 3) is pending; blue is selected next and served from the cache,
    which does not abort fetch 3; the response for green then arrives and is
    applied over blue: the picker is morphed a second time and shows green
    while the address bar names the blue variant. *)
Theorem cached_selection_leaves_fetch_pending :
  let s1 := Shirt.go [Change Shirt.green] Shirt.warmed in
  let s2 := Shirt.go [Change Shirt.blue] s1 in
  let s3 := Shirt.go [Response 3 "<main>Green-M</main>"] s2 in
  map uf_id (pendingFetches s1) = [3]
  /\ fetchedUrls (trace s2) = fetchedUrls (trace s1)
  /\ map uf_id (pendingFetches s2) = [3]
  /\ existsb (fun e => match e with AbortFetch _ => true | _ => false end)
       (trace s2) = false
  /\ map el_value (selectedOptions (picker s2)) = ["Blue"; "M"]
  /\ filter isMorph (skipn (length (trace s2)) (trace s3))
     = [MorphPicker (Shirt.pickerWith 3 4)]
  /\ map el_value (selectedOptions (picker s3)) = ["Green"; "M"]
  /\ loc_variant (location s3) = Some "102".
Proof. vm_compute. repeat split. Qed.

(* ------------------------------------------------------------------ *)
(** ** Prefetches for the same URL *)

(** C8, where the code departs from it. The idle pass after attach starts a
    prefetch for blue in size M (number 0). The user switches to size L and
    back to M; the pass after the second change starts another prefetch for
    the same URL (number 8) while number 0 is still in flight: the picker
    keeps no set of URLs being fetched, only the cache is consulted. *)
Theorem prefetch_started_twice_for_one_url :
  let s :=
    Shirt.go
      [Connect; Idle 0;
       Change Shirt.sizeL; Response 3 "<main>Red-L</main>"; Idle 0;
       Change Shirt.sizeM; Response 7 "<main>Red-M</main>"; Idle 0]
      Shirt.start in
  In (0, "/products/shirt?option_values=2,10") (prefetches s)
  /\ In (8, "/products/shirt?option_values=2,10") (prefetches s)
  /\ JsMap.has "/products/shirt?option_values=2,10" (htmlCache s) = false.
Proof. vm_compute. intuition. Qed.

(** The image preloader next to it does keep such a set: a colour whose
    images are being loaded is in [#preloadQueue], asking for it again
    starts nothing, and it leaves the queue when its images have settled. *)
Lemma preloader_skips_queued (colorKey : string -> string)
  (images : string -> nat) (colorValue : string)
  (s : Preloader.State) :
  Preloader.queueHas (colorKey colorValue) (Preloader.preloadQueue s) = true ->
  Preloader.preloadImagesForColor colorKey images colorValue s = s.
Proof.
  intros H. unfold Preloader.preloadImagesForColor. rewrite H.
  destruct (Preloader.productData s); reflexivity.
Qed.

Lemma preloader_queue_transient (colorKey : string -> string)
  (images : string -> nat) (colorValue : string)
  (s : Preloader.State) :
  let key := colorKey colorValue in
  Preloader.productData s = true ->
  Preloader.queueHas key (Preloader.preloadQueue s) = false ->
  0 < images key ->
  let s1 := Preloader.preloadImagesForColor colorKey images colorValue s in
  Preloader.queueHas key (Preloader.preloadQueue s1) = true
  /\ Preloader.preloadImagesForColor colorKey images colorValue s1 = s1
  /\ Preloader.queueHas key
       (Preloader.preloadQueue (Preloader.preloadImagesForColor_resume key s1)) = false.
Proof.
  intros key Hdata Hnew Himg s1.
  assert (Preloader.preloadQueue s1 = Preloader.preloadQueue s ++ [key]) as Eq.
  { unfold s1, Preloader.preloadImagesForColor. fold key.
    rewrite Hdata, Hnew. simpl. apply Nat.ltb_lt in Himg. rewrite Himg. simpl.
    unfold Preloader.queueAdd. now rewrite Hnew. }
  assert (Preloader.queueHas key (Preloader.preloadQueue s1) = true) as Hin.
  { rewrite Eq. unfold Preloader.queueHas. rewrite existsb_app. simpl.
    rewrite String.eqb_refl. now rewrite orb_true_r. }
  split; [exact Hin|]. split; [now apply preloader_skips_queued|].
  unfold Preloader.preloadImagesForColor_resume, Preloader.queueHas,
    Preloader.queueDelete. simpl.
  destruct (existsb _ _) eqn:E; [|reflexivity].
  apply existsb_exists in E as (k & Hk & Ek).
  apply filter_In in Hk as [_ Hk]. rewrite Ek in Hk. discriminate.
Qed.

(* ------------------------------------------------------------------ *)
(** ** Detach *)

(** Attached and detached at once: the idle callback of [connectedCallback]
    is still scheduled. *)
Lemma detach_clears_scheduled_work_fails : ~ detach_clears_scheduled_work.
Proof.
  intros H. destruct (H (Shirt.go [Connect] Shirt.start)) as [Hsched _].
  vm_compute in Hsched. discriminate Hsched.
Qed.

(** C9, where the code departs from it. [disconnectedCallback] sets out to
    tear the instance down: it removes the hover listeners and empties the
    fragment cache. It cancels nothing: the callbacks scheduled with
    [requestIdleCallback] or [setTimeout], the user fetch and the prefetches
    in flight are as before. So for a picker attached and detached before its
    idle callback has run, the callback is still scheduled after the detach;
    when it runs it puts the snapshot of the page into the cache that was
    just emptied and starts three prefetches. *)
Theorem detach_clears_cache_only (s : State) :
  let s' := callback disconnectedCallback s in
  htmlCache s' = []
  /\ listenersAttached s'
     = (if listenersAttached s && boundHoverHandler s && boundLeaveHandler s
        then false else listenersAttached s)
  /\ scheduled s' = scheduled s
  /\ userFetches s' = userFetches s
  /\ abortController s' = abortController s
  /\ prefetches s' = prefetches s
  /\ trace s' = trace s
  /\ (let detached := Shirt.go [Connect; Disconnect] Shirt.start in
      let after := Shirt.go [Idle 0] detached in
      htmlCache detached = []
      /\ scheduled detached = [mkTask OnConnect true 100]
      /\ htmlCache after
         = [("/products/shirt?option_values=1,10", "<main>Red-M</main>")]
      /\ map snd (prefetches after)
         = ["/products/shirt?option_values=2,10";
            "/products/shirt?option_values=3,10";
            "/products/shirt-navy?option_values=4,10"]).
Proof.
  intros s'.
  assert (s' = set_htmlCache []
                 (if listenersAttached s && boundHoverHandler s
                     && boundLeaveHandler s
                  then set_hoverListeners false s else s)) as ->.
  { unfold s', callback, disconnectedCallback, bind, get, when, modify.
    destruct (listenersAttached s && boundHoverHandler s && boundLeaveHandler s);
      reflexivity. }
  repeat (split; [destruct s; simpl; destruct (_ && _); reflexivity|]).
  vm_compute. repeat split.
Qed.

(* ------------------------------------------------------------------ *)
(** ** The pass after a change of size *)

Lemma bind_Ok {A B : Type} (c : M A) (k : A -> M B) (s s' : State) (b : B) :
  bind c k s = (Ok b, s') ->
  exists a s1, c s = (Ok a, s1) /\ k a s1 = (Ok b, s').
Proof.
  unfold bind. destruct (c s) as [[a|msg] s1]; intros H.
  - now exists a, s1.
  - discriminate H.
Qed.

Lemma fst_snd_pair {A : Type} (r : Result A * State) (a : A) :
  fst r = Ok a -> r = (Ok a, snd r).
Proof. destruct r as [x s]; simpl. now intros ->. Qed.

Lemma emit_idleState (e : Effect) : preserves idleState (emit e).
Proof. unfold emit. frame. Qed.

#[export] Hint Resolve emit_idleState : frame.

Section AfterChange.

Variable parseFromString : string -> Document.
Variable JSON_parses : string -> bool.
Variable morph_picker : Page -> Picker -> Page.
Variable morph_main : Page -> Document -> Page.

Lemma updateMain_idleState (html : Document) :
  preserves idleState (updateMain morph_main html).
Proof. unfold updateMain. frame. Qed.

Lemma updateVariantPicker_idleState (html : Document) :
  preserves idleState (updateVariantPicker morph_picker html).
Proof. unfold updateVariantPicker. frame. Qed.

#[local] Hint Resolve updateMain_idleState updateVariantPicker_idleState : frame.

Lemma morphAndAnnounce_idleState (html : Document) (textContent : string)
  (shouldMorphMain : bool) :
  preserves idleState
    (morphAndAnnounce JSON_parses morph_picker morph_main html textContent
       shouldMorphMain).
Proof. unfold morphAndAnnounce. frame. Qed.

(** Once the payload is there and nothing throws, [applyUpdate] for a change
    that is not a colour change ends by scheduling the pass. *)
Lemma applyUpdate_schedules (html : Document) (textContent : string)
  (shouldMorphMain : bool) (s s' : State) :
  applyUpdate JSON_parses morph_picker morph_main html textContent
    shouldMorphMain false s = (Ok tt, s') ->
  scheduled s' = scheduled s ++ [mkTask AfterSizeChange (hasIdleCallback s) 50].
Proof.
  unfold applyUpdate. intros H.
  apply bind_Ok in H as (a & s1 & H1 & H2).
  pose proof (morphAndAnnounce_idleState html textContent shouldMorphMain s) as E.
  rewrite H1 in E. simpl in E, H2.
  unfold prefetchAfterSizeChange, schedule, modify in H2.
  injection H2 as <-. unfold idleState in E. injection E as E1 E2.
  rewrite <- E1, <- E2. destruct s1; reflexivity.
Qed.

End AfterChange.

(** *** The prefetch loop *)

Lemma emit_hoverContext (e : Effect) : preserves hoverContext (emit e).
Proof. unfold emit. frame. Qed.

Lemma buildRequestUrl_hoverContext (target : Element) (source : option string)
  (values : list string) :
  preserves hoverContext (buildRequestUrl target source values).
Proof. unfold buildRequestUrl. frame. Qed.

#[export] Hint Resolve emit_hoverContext buildRequestUrl_hoverContext : frame.

Lemma buildHoverUrl_hoverContext (option : Element) :
  preserves hoverContext (buildHoverUrl option).
Proof. unfold buildHoverUrl. frame. Qed.

Lemma startPrefetch_hoverContext (url : string) :
  preserves hoverContext (startPrefetch url).
Proof. unfold startPrefetch. frame. Qed.

#[export] Hint Resolve buildHoverUrl_hoverContext startPrefetch_hoverContext : frame.

Lemma prefetchSingleVariant_hoverContext (option : Element) :
  preserves hoverContext (prefetchSingleVariant option).
Proof. unfold prefetchSingleVariant. frame. Qed.

#[export] Hint Resolve prefetchSingleVariant_hoverContext : frame.

Lemma prefetchEach_hoverContext (inputs : list Element) (current : option string) :
  preserves hoverContext (prefetchEach inputs current).
Proof.
  revert current. induction inputs as [|option rest IH]; intros current; simpl.
  - frame.
  - apply preserves_bind; [ frame | intros _; apply IH ].
Qed.

#[export] Hint Resolve prefetchEach_hoverContext : frame.

Lemma append_nonempty (a : string) (c : ascii) (b : string) :
  ((a ++ String c b) =? EmptyString) = false.
Proof. destruct a; reflexivity. Qed.

Lemma renderUrl_nonempty (inCard : bool) (productUrl : option string)
  (params : list string) :
  (renderUrl inCard productUrl params =? EmptyString) = false.
Proof. unfold renderUrl. destruct inCard; apply append_nonempty. Qed.

(** For an option inside a fieldset [#buildHoverUrl] returns, changes
    nothing, and reads the picker and the embedding only. *)
Lemma buildHoverUrl_run (option : Element) (s : State) :
  isSome (el_fieldset option) = true ->
  exists url,
    (url =? EmptyString) = false
    /\ forall s', picker s' = picker s -> embedded s' = embedded s ->
                  buildHoverUrl option s' = (Ok url, s').
Proof.
  unfold buildHoverUrl. destruct (el_fieldset option) as [fieldset|]; [|discriminate].
  intros _. eexists. split.
  2:{ intros s' Hp He. unfold bind, get, ret. rewrite Hp, He. reflexivity. }
  apply renderUrl_nonempty.
Qed.

Lemma startPrefetch_run (url : string) (s : State) :
  startPrefetch url s
  = (Ok tt,
     set_trace (trace s ++ [FetchPrefetch (nextId s) url])
       (set_prefetches (prefetches s ++ [(nextId s, url)])
          (set_nextId (S (nextId s)) s))).
Proof. destruct s; reflexivity. Qed.

Lemma prefetchSingleVariant_keeps (option : Element) (s : State) (p : nat * string) :
  In p (prefetches s) -> In p (prefetches (snd (prefetchSingleVariant option s))).
Proof.
  intros Hin. unfold prefetchSingleVariant, try_.
  assert (preserves prefetches (buildHoverUrl option)) as P.
  { unfold buildHoverUrl, buildRequestUrl. frame. }
  specialize (P s).
  unfold bind at 1.
  destruct (buildHoverUrl option s) as [[url|msg] s1]; simpl in P.
  2:{ simpl. now rewrite P. }
  unfold bind, get.
  destruct ((url =? EmptyString) || JsMap.has url (htmlCache s1)).
  - simpl. now rewrite P.
  - rewrite startPrefetch_run. destruct s1; simpl in *.
    rewrite P. apply in_or_app. now left.
Qed.

(** The loop, one input at a time. *)
Lemma prefetchEach_cons (input : Element) (rest : list Element)
  (current : option string) (s : State) :
  prefetchEach (input :: rest) current s
  = (prefetchEach [input] current ;;
     prefetchEach rest (nextSelected input current))%js s.
Proof.
  cbn [prefetchEach]. unfold nextSelected, bind.
  match goal with
  | |- context [(if el_checked input then ?a else ?b) s] =>
      destruct ((if el_checked input then a else b) s) as [[[]|msg] s']
  end; reflexivity.
Qed.

(** What one round does for an input it does not skip. *)
Lemma prefetchEach_one (input : Element) (current : option string) (s : State) :
  prefetchEach [input] current s
  = if el_checked input || negb (isColorOption input) || el_labelHidden input
       || sameAs current input
    then (Ok tt, s)
    else (url <- buildHoverUrl input ;;
          s <- get ;;
          when (negb (url =? EmptyString) && negb (JsMap.has url (htmlCache s)))
            (prefetchSingleVariant input))%js s.
Proof.
  cbn [prefetchEach]. unfold sameAs.
  destruct (el_checked input) eqn:Ec; [reflexivity|]. rewrite andb_false_l.
  destruct (isColorOption input); [|reflexivity].
  destruct (el_labelHidden input); [reflexivity|].
  simpl negb. cbv iota. simpl orb.
  destruct current as [name|].
  - destruct (el_value input =? name); [reflexivity|].
    unfold bind.
    destruct (buildHoverUrl input s) as [[url|msg] s1]; [|reflexivity].
    unfold get.
    match goal with |- context [when ?b ?c s1] => destruct (when b c s1) as [[[]|m] s2] end;
      reflexivity.
  - unfold bind.
    destruct (buildHoverUrl input s) as [[url|msg] s1]; [|reflexivity].
    unfold get.
    match goal with |- context [when ?b ?c s1] => destruct (when b c s1) as [[[]|m] s2] end;
      reflexivity.
Qed.

Lemma prefetchSingleVariant_returns (input : Element) (s : State) :
  fst (prefetchSingleVariant input s) = Ok tt.
Proof.
  unfold prefetchSingleVariant, try_.
  match goal with |- context [match ?c s with _ => _ end] => destruct (c s) as [[[]|m] s'] end;
    reflexivity.
Qed.

Lemma prefetchEach_one_keeps (input : Element) (current : option string)
  (s : State) (p : nat * string) :
  In p (prefetches s) -> In p (prefetches (snd (prefetchEach [input] current s))).
Proof.
  intros Hin. rewrite prefetchEach_one.
  destruct (_ || _); [exact Hin|].
  assert (preserves prefetches (buildHoverUrl input)) as P.
  { unfold buildHoverUrl, buildRequestUrl. frame. }
  specialize (P s). unfold bind at 1.
  destruct (buildHoverUrl input s) as [[url|msg] s1]; simpl in P.
  2:{ simpl. now rewrite P. }
  unfold bind, get.
  destruct (negb (url =? EmptyString) && negb (JsMap.has url (htmlCache s1))).
  - simpl when. apply prefetchSingleVariant_keeps. now rewrite P.
  - simpl. now rewrite P.
Qed.

Lemma prefetchEach_keeps (inputs : list Element) (current : option string)
  (s : State) (p : nat * string) :
  In p (prefetches s) -> In p (prefetches (snd (prefetchEach inputs current s))).
Proof.
  revert current s. induction inputs as [|input rest IH]; intros current s Hin.
  - exact Hin.
  - rewrite prefetchEach_cons. unfold bind.
    pose proof (prefetchEach_one_keeps input current s p Hin) as H1.
    destruct (prefetchEach [input] current s) as [[[]|msg] s1]; simpl in H1.
    + now apply IH.
    + exact H1.
Qed.

(** One round for a candidate whose hover URL is not cached starts the
    prefetch. *)
Lemma prefetchEach_one_starts (input : Element) (current : option string)
  (s : State) (url : string) :
  el_checked input = false ->
  isColorOption input = true ->
  el_labelHidden input = false ->
  sameAs current input = false ->
  isSome (el_fieldset input) = true ->
  fst (buildHoverUrl input s) = Ok url ->
  JsMap.has url (htmlCache s) = false ->
  In url (map snd (prefetches (snd (prefetchEach [input] current s)))).
Proof.
  intros Hc Hcol Hhid Hsame Hfs Hurl Hcache.
  rewrite prefetchEach_one, Hc, Hcol, Hhid, Hsame. simpl orb. cbv iota.
  destruct (buildHoverUrl_run input s Hfs) as (url' & Hne & Hrun).
  pose proof (Hrun s eq_refl eq_refl) as E. rewrite E in Hurl. simpl in Hurl.
  injection Hurl as ->.
  unfold bind at 1. rewrite E. unfold bind, get.
  rewrite Hne, Hcache. simpl when.
  unfold prefetchSingleVariant, try_, bind. rewrite E. unfold get.
  rewrite Hne, Hcache.
  change ((if false || false then ret tt else startPrefetch url) s)
    with (startPrefetch url s).
  rewrite startPrefetch_run. destruct s; simpl.
  rewrite map_app. apply in_or_app. right. now left.
Qed.

Lemma prefetchEach_one_returns (input : Element) (current : option string)
  (s : State) :
  (isColorOption input = true -> isSome (el_fieldset input) = true) ->
  fst (prefetchEach [input] current s) = Ok tt.
Proof.
  intros Hfs. rewrite prefetchEach_one.
  destruct (isColorOption input) eqn:Hcol.
  2:{ rewrite orb_true_r. reflexivity. }
  destruct (_ || _); [reflexivity|].
  destruct (buildHoverUrl_run input s (Hfs eq_refl)) as (url' & Hne & Hrun).
  unfold bind at 1. rewrite (Hrun s eq_refl eq_refl). unfold bind, get.
  destruct (negb _ && _); [apply prefetchSingleVariant_returns | reflexivity].
Qed.

Lemma hoverContext_url (input : Element) (s s' : State) :
  isSome (el_fieldset input) = true ->
  hoverContext s' = hoverContext s ->
  fst (buildHoverUrl input s') = fst (buildHoverUrl input s).
Proof.
  intros Hfs H. unfold hoverContext in H. injection H as Hp He _.
  destruct (buildHoverUrl_run input s Hfs) as (url & _ & Hrun).
  now rewrite (Hrun s eq_refl eq_refl), (Hrun s' Hp He).
Qed.

(** The loop returns, and starts a prefetch for every candidate whose hover
    URL is not in the cache. *)
Lemma prefetchEach_starts (inputs : list Element) (current : option string)
  (s : State) (input : Element) (url : string) :
  (forall e, In e inputs -> isColorOption e = true -> isSome (el_fieldset e) = true) ->
  In input inputs ->
  el_checked input = false ->
  isColorOption input = true ->
  el_labelHidden input = false ->
  sameAs current input = false ->
  (forall c, In c inputs -> el_checked c = true -> isColorOption c = true ->
             (el_value input =? el_value c) = false) ->
  fst (buildHoverUrl input s) = Ok url ->
  JsMap.has url (htmlCache s) = false ->
  In url (map snd (prefetches (snd (prefetchEach inputs current s)))).
Proof.
  revert current s.
  induction inputs as [|head rest IH];
    intros current s Hfs Hin Hc Hcol Hhid Hsame Hother Hurl Hcache; [destruct Hin|].
  rewrite prefetchEach_cons. unfold bind.
  pose proof (prefetchEach_one_returns head current s
                (Hfs head (or_introl eq_refl))) as Hret.
  pose proof (prefetchEach_hoverContext [head] current s) as Hctx.
  destruct Hin as [-> | Hin].
  - pose proof (prefetchEach_one_starts input current s url Hc Hcol Hhid Hsame
                  (Hfs input (or_introl eq_refl) Hcol) Hurl Hcache) as Hstart.
    destruct (prefetchEach [input] current s) as [[[]|msg] s1];
      simpl in Hret, Hstart; [|discriminate Hret].
    apply in_map_iff in Hstart as (p & <- & Hp).
    apply in_map. now apply prefetchEach_keeps.
  - destruct (prefetchEach [head] current s) as [[[]|msg] s1];
      simpl in Hret, Hctx; [|discriminate Hret].
    apply IH.
    + intros e He. apply Hfs. now right.
    + exact Hin.
    + exact Hc.
    + exact Hcol.
    + exact Hhid.
    + unfold nextSelected, sameAs.
      destruct (el_checked head && isColorOption head) eqn:Eh; [|exact Hsame].
      apply andb_true_iff in Eh as [E1 E2].
      exact (Hother head (or_introl eq_refl) E1 E2).
    + intros c Hc'. apply Hother. now right.
    + rewrite (hoverContext_url input s s1 (Hfs input (or_intror Hin) Hcol) Hctx).
      exact Hurl.
    + unfold hoverContext in Hctx. injection Hctx as _ _ ->. exact Hcache.
Qed.

Lemma prefetchEach_returns (inputs : list Element) (current : option string)
  (s : State) :
  (forall e, In e inputs -> isColorOption e = true -> isSome (el_fieldset e) = true) ->
  fst (prefetchEach inputs current s) = Ok tt.
Proof.
  revert current s. induction inputs as [|head rest IH]; intros current s Hfs.
  - reflexivity.
  - rewrite prefetchEach_cons. unfold bind.
    pose proof (prefetchEach_one_returns head current s
                  (Hfs head (or_introl eq_refl))) as Hret.
    destruct (prefetchEach [head] current s) as [[[]|msg] s1];
      simpl in Hret; [|discriminate Hret].
    apply IH. intros e He. apply Hfs. now right.
Qed.

Lemma prefetchCandidate_cases (allInputs : list Element) (input : Element) :
  prefetchCandidate allInputs input = true ->
  el_checked input = false
  /\ isColorOption input = true
  /\ el_labelHidden input = false
  /\ forall c, In c allInputs -> el_checked c = true -> isColorOption c = true ->
                (el_value input =? el_value c) = false.
Proof.
  unfold prefetchCandidate. intros H.
  apply andb_true_iff in H as [H Hother].
  apply andb_true_iff in H as [H Hhid].
  apply andb_true_iff in H as [Hc Hcol].
  apply negb_true_iff in Hc, Hhid, Hother.
  repeat (split; [assumption|]).
  intros c Hin E1 E2.
  destruct (el_value input =? el_value c) eqn:E; [|reflexivity].
  assert (existsb (fun c => el_checked c && isColorOption c
                            && (el_value input =? el_value c)) allInputs = true)
    as Hex; [|congruence].
  apply existsb_exists. exists c. split; [exact Hin|]. now rewrite E1, E2, E.
Qed.

(** After a change of size the scheduled pass stores the current page in the
    cache again. *)
Lemma size_change_pass_skips_snapshot_fails : ~ size_change_pass_skips_snapshot.
Proof.
  intros H.
  specialize
    (H (Shirt.go [Connect; Change Shirt.sizeL; Response 0 "<main>Red-L</main>"]
          Shirt.start) true).
  vm_compute in H. discriminate H.
Qed.

(** C6, as the code has it. When the response to a change that is not a
    colour change has been applied, a callback is scheduled with a timeout of
    50 ms, and that callback does what the one scheduled on attach does.
    It first takes the snapshot of the current page: <main> is stored under
    the URL [#cacheCurrentPage] builds from the product URL and the ids of
    the checked inputs. It then runs the prefetch loop on the cache that
    holds the snapshot: the prefetches in flight stay, and, the colour inputs
    being inside fieldsets, the pass returns and has a prefetch in flight
    for the hover URL of every unchecked, visible colour input of another
    value than the checked colour inputs, unless that URL is in the cache. *)
Theorem size_change_pass_repeats_snapshot
  (parse : string -> Document) (json : string -> bool)
  (morphPicker : Page -> Picker -> Page) (morphMain : Page -> Document -> Page)
  (text : string) (shouldMorphMain : bool) (s s1 s2 : State) (url html : string) :
  Js.truthy (doc_payload (parse text)) = true ->
  fetchUpdatedSection_then parse json morphPicker morphMain text
    shouldMorphMain false s = (Ok tt, s1) ->
  currentPageUrl (picker s2) = Some url ->
  pg_main (page s2) = Some html ->
  let pass := mkTask AfterSizeChange (hasIdleCallback s) 50 in
  let allInputs :=
    filter (fun e => isRadio e && isSome (el_optionValueId e))
      (controls (picker s2)) in
  let s3 := snd (runTask pass s2) in
  scheduled s1 = scheduled s ++ [pass]
  /\ runTask pass s2 = runTask (mkTask OnConnect (hasIdleCallback s) 100) s2
  /\ htmlCache s3 = cache_put url html (htmlCache s2)
  /\ JsMap.get url (htmlCache s3) = Some html
  /\ runTask pass s2
     = prefetchEach allInputs None
         (set_htmlCache (cache_put url html (htmlCache s2)) s2)
  /\ (forall p, In p (prefetches s2) -> In p (prefetches s3))
  /\ ((forall e, In e allInputs -> isColorOption e = true ->
                 isSome (el_fieldset e) = true) ->
      fst (runTask pass s2) = Ok tt
      /\ forall input hoverUrl,
           In input allInputs ->
           prefetchCandidate allInputs input = true ->
           fst (buildHoverUrl input s2) = Ok hoverUrl ->
           JsMap.has hoverUrl (htmlCache s3) = false ->
           In hoverUrl (map snd (prefetches s3))).
Proof.
  intros Hpayload Hthen Hurl Hmain pass allInputs s3.
  assert (htmlCache s3 = cache_put url html (htmlCache s2)) as Ecache.
  { unfold s3. rewrite runTask_cache, cacheCurrentPage_cache, Hurl, Hmain.
    reflexivity. }
  assert (runTask pass s2
          = prefetchEach allInputs None
              (set_htmlCache (cache_put url html (htmlCache s2)) s2)) as Erun.
  { unfold runTask, pass. cbn [t_origin]. unfold bind at 1.
    rewrite cacheCurrentPage_run, Hurl, Hmain.
    unfold prefetchAvailableColorVariants, bind, get.
    destruct s2; reflexivity. }
  set (s2' := set_htmlCache (cache_put url html (htmlCache s2)) s2) in *.
  assert (hoverContext s2' = (picker s2, embedded s2, htmlCache s3)) as Ectx.
  { rewrite Ecache. unfold s2'. destruct s2; reflexivity. }
  assert (prefetches s2' = prefetches s2) as Epre.
  { unfold s2'. destruct s2; reflexivity. }
  split; [|split; [reflexivity|split; [exact Ecache|split; [|split; [exact Erun|split]]]]].
  - unfold fetchUpdatedSection_then in Hthen.
    apply bind_Ok in Hthen as (a & s0 & H0 & Hthen).
    unfold modify in H0. injection H0 as _ <-.
    change (doc_payload (removeDefer (parse text))) with (doc_payload (parse text)) in Hthen.
    rewrite Hpayload in Hthen. simpl in Hthen.
    apply applyUpdate_schedules in Hthen. rewrite Hthen.
    destruct s; reflexivity.
  - rewrite Ecache. apply get_cache_put_same.
  - intros p Hin. unfold s3. rewrite Erun. apply prefetchEach_keeps.
    now rewrite Epre.
  - intros Hfs.
    split; [rewrite Erun; now apply prefetchEach_returns|].
    intros input hoverUrl Hin Hcand Hhover Hmiss.
    apply prefetchCandidate_cases in Hcand as (Hc & Hcol & Hhid & Hother).
    unfold hoverContext in Ectx. injection Ectx as Ep Ee Ec.
    unfold s3. rewrite Erun.
    apply prefetchEach_starts with (input := input); try assumption.
    + reflexivity.
    + destruct (buildHoverUrl_run input s2 (Hfs input Hin Hcol)) as (u & _ & Hrun).
      rewrite (Hrun s2' Ep Ee). rewrite (Hrun s2 eq_refl eq_refl) in Hhover.
      exact Hhover.
    + now rewrite Ec.
Qed.

(** The response to the change to size L schedules the pass; the pass stores
    the page for red in L and starts the prefetch for blue in L. *)
Lemma size_change_pass_repeats_snapshot_witness :
  let s := Shirt.go [Connect; Change Shirt.sizeL] Shirt.start in
  let s1 := Shirt.go [Response 0 "<main>Red-L</main>"] s in
  let s3 := snd (runTask (mkTask AfterSizeChange true 50) s1) in
  scheduled s1
  = [mkTask OnConnect true 100; mkTask AfterSizeChange true 50]
  /\ JsMap.get "/products/shirt?option_values=1,11" (htmlCache s3)
     = Some "<main>Red-L</main>"
  /\ In "/products/shirt?option_values=2,11" (map snd (prefetches s3)).
Proof.
  intros s s1 s3.
  pose proof (size_change_pass_repeats_snapshot Shirt.parse Shirt.json
                Shirt.morphPicker Shirt.morphMain "<main>Red-L</main>" false
                (settle 0 s) s1 s1
                "/products/shirt?option_values=1,11" "<main>Red-L</main>") as H.
  destruct H as (Hsched & _ & _ & Hget & _ & _ & Hloop);
    try (vm_compute; reflexivity).
  split; [rewrite Hsched; vm_compute; reflexivity|].
  split; [exact Hget|].
  destruct Hloop as [_ Hstart].
  - intros e He Hcol. vm_compute in He.
    repeat (destruct He as [<- | He]; [reflexivity|]). destruct He.
  - apply (Hstart Shirt.blue).
    + vm_compute. auto.
    + vm_compute. reflexivity.
    + vm_compute. reflexivity.
    + vm_compute. reflexivity.
Defined.

(* ------------------------------------------------------------------ *)
(** ** A selection, step by step *)

Lemma fetchedUrls_app (t1 t2 : list Effect) :
  fetchedUrls (t1 ++ t2) = fetchedUrls t1 ++ fetchedUrls t2.
Proof. unfold fetchedUrls. apply flat_map_app. Qed.

Lemma fetchedUrls_quiet (t : list Effect) (e : Effect) :
  isFetch e = false -> fetchedUrls (t ++ [e]) = fetchedUrls t.
Proof.
  intros H. rewrite fetchedUrls_app.
  destruct e; try discriminate H; simpl; apply app_nil_r.
Qed.

Lemma emit_network (e : Effect) : isFetch e = false -> preserves network (emit e).
Proof.
  intros H s. unfold emit, modify, network. simpl.
  destruct s; simpl. now rewrite fetchedUrls_quiet.
Qed.

Lemma emit_morphs (e : Effect) : isMorph e = false -> preserves morphs (emit e).
Proof.
  intros H s. unfold emit, modify, morphs. simpl.
  destruct s; simpl. rewrite filter_app. simpl. rewrite H. apply app_nil_r.
Qed.

Lemma emit_context (e : Effect) : preserves context (emit e).
Proof. unfold emit. frame. Qed.

Lemma emit_location (e : Effect) : preserves location (emit e).
Proof. unfold emit. frame. Qed.

#[export] Hint Resolve emit_network emit_morphs emit_context emit_location : frame.

Lemma updateSelectedOption_network (target : Element) :
  preserves network (updateSelectedOption target).
Proof. unfold updateSelectedOption. frame. Qed.

Lemma updateSelectedOption_morphs (target : Element) :
  preserves morphs (updateSelectedOption target).
Proof. unfold updateSelectedOption. frame. Qed.

Lemma updateSelectedOption_context (target : Element) :
  preserves context (updateSelectedOption target).
Proof. unfold updateSelectedOption. frame. Qed.

Lemma updateSelectedOption_location (target : Element) :
  preserves location (updateSelectedOption target).
Proof. unfold updateSelectedOption. frame. Qed.

Lemma buildRequestUrl_network (target : Element) (source : option string)
  (values : list string) :
  preserves network (buildRequestUrl target source values).
Proof. unfold buildRequestUrl. frame. Qed.

Lemma buildRequestUrl_morphs (target : Element) (source : option string)
  (values : list string) :
  preserves morphs (buildRequestUrl target source values).
Proof. unfold buildRequestUrl. frame. Qed.

Lemma buildRequestUrl_context (target : Element) (source : option string)
  (values : list string) :
  preserves context (buildRequestUrl target source values).
Proof. unfold buildRequestUrl. frame. Qed.

Lemma buildRequestUrl_location (target : Element) (source : option string)
  (values : list string) :
  preserves location (buildRequestUrl target source values).
Proof. unfold buildRequestUrl. frame. Qed.

#[export] Hint Resolve updateSelectedOption_network updateSelectedOption_morphs
  updateSelectedOption_context updateSelectedOption_location
  buildRequestUrl_network buildRequestUrl_morphs buildRequestUrl_context
  buildRequestUrl_location : frame.

Lemma requestUrlFor_network (target : Element) :
  preserves network (requestUrlFor target).
Proof. unfold requestUrlFor. frame. Qed.

Lemma requestUrlFor_morphs (target : Element) :
  preserves morphs (requestUrlFor target).
Proof. unfold requestUrlFor. frame. Qed.

Lemma requestUrlFor_context (target : Element) :
  preserves context (requestUrlFor target).
Proof. unfold requestUrlFor. frame. Qed.

Lemma requestUrlFor_location (target : Element) :
  preserves location (requestUrlFor target).
Proof. unfold requestUrlFor. frame. Qed.

Lemma context_isOnProductPage (target : Element) (s1 s2 : State) :
  context s1 = context s2 -> isOnProductPage target s1 = isOnProductPage target s2.
Proof. unfold context, isOnProductPage. intros H. injection H as -> _ _. reflexivity. Qed.

Lemma context_loadsNewProduct (target : Element) (s1 s2 : State) :
  context s1 = context s2 -> loadsNewProduct target s1 = loadsNewProduct target s2.
Proof.
  intros H. unfold loadsNewProduct. rewrite (context_isOnProductPage target s1 s2 H).
  unfold context in H. injection H as _ -> _. reflexivity.
Qed.

Lemma context_htmlCache (s1 s2 : State) :
  context s1 = context s2 -> htmlCache s1 = htmlCache s2.
Proof. unfold context. intros H. now injection H. Qed.

Lemma replaceState_network (url : Location) : preserves network (replaceState url).
Proof. unfold replaceState. frame. Qed.

Lemma replaceState_morphs (url : Location) : preserves morphs (replaceState url).
Proof. unfold replaceState. frame. Qed.

Lemma replaceState_location (url : Location) (s : State) :
  fst (replaceState url s) = Ok tt
  /\ loc_variant (location (snd (replaceState url s))) = loc_variant url.
Proof.
  unfold replaceState, bind, get. simpl.
  destruct (location_eqb url (location s)) eqn:E; simpl.
  - split; [reflexivity|]. unfold location_eqb in E.
    apply andb_true_iff in E as [_ E].
    destruct (loc_variant url) as [a|], (loc_variant (location s)) as [b|];
      simpl in E; try discriminate E; [|reflexivity].
    apply String.eqb_eq in E. now subst.
  - split; [reflexivity|]. destruct s; reflexivity.
Qed.

Section Selection.

Variable parseFromString : string -> Document.
Variable JSON_parses : string -> bool.
Variable morph_picker : Page -> Picker -> Page.
Variable morph_main : Page -> Document -> Page.

Abbreviation variantChanged' :=
  (variantChanged parseFromString JSON_parses morph_picker morph_main).
Abbreviation updateWithCachedHtml' :=
  (updateWithCachedHtml JSON_parses morph_picker morph_main).
Abbreviation applyUpdate' := (applyUpdate JSON_parses morph_picker morph_main).
Abbreviation morphAndAnnounce' :=
  (morphAndAnnounce JSON_parses morph_picker morph_main).

(** [variantChanged] is: build the request URL, then serve it from the cache
    or fetch it, the test and its inputs being those of the state the event
    arrived in. *)
Lemma variantChanged_split (target : Element) (s : State) :
  variantChanged' target s
  = match requestUrlFor target s with
    | (Throw msg, s1) => (Throw msg, s1)
    | (Ok requestUrl, s1) =>
        if servedFromCache target requestUrl s then
          (updateWithCachedHtml'
             (parseFromString (Js.template (JsMap.get requestUrl (htmlCache s))))
             (loadsNewProduct target s) (isColorOptionChange target) ;;
           s2 <- get ;;
           replaceState (withVariant target (location s2)))%js s1
        else
          (fetchUpdatedSection requestUrl (loadsNewProduct target s)
             (isColorOptionChange target) ;;
           s2 <- get ;;
           replaceState
             (let url := location s2 in
              let url :=
                if isOnProductPage target s then withVariant target url else url in
              if loadsNewProduct target s then
                mkLocation (Js.template (el_connectedProductUrl target))
                  (loc_variant url)
              else url))%js s1
    end.
Proof.
  unfold variantChanged, requestUrlFor, bind.
  pose proof (updateSelectedOption_context target s) as C1.
  destruct (updateSelectedOption target s) as [[[]|msg] s1]; [|reflexivity].
  simpl in C1.
  pose proof (emit_context
                (VariantSelectedEvent
                   match el_optionValueId target with
                   | Some id => id
                   | None => EmptyString
                   end) s1) as C2.
  destruct (emit _ s1) as [[[]|msg] s2]; [|reflexivity].
  simpl in C2. rewrite C1 in C2. clear C1.
  unfold get at 1. cbv iota beta.
  destruct (buildRequestUrl target None [] s2) as [[requestUrl|msg] s3];
    [|reflexivity].
  unfold servedFromCache.
  rewrite (context_isOnProductPage target s2 s C2),
    (context_loadsNewProduct target s2 s C2), (context_htmlCache s2 s C2).
  destruct (Js.truthy (JsMap.get requestUrl (htmlCache s))
            && isOnProductPage target s && isColorOptionChange target);
    reflexivity.
Qed.

Lemma emit_morph (e : Effect) (s : State) :
  isMorph e = true -> morphs (snd (emit e s)) = morphs s ++ [e].
Proof.
  intros H. unfold emit, modify, morphs. simpl. destruct s; simpl.
  rewrite filter_app. simpl. now rewrite H.
Qed.

Lemma updateWithCachedHtml_network (html : Document) (shouldMorphMain : bool) :
  preserves network (updateWithCachedHtml' html shouldMorphMain true).
Proof.
  unfold updateWithCachedHtml, applyUpdate, morphAndAnnounce, updateMain,
    updateVariantPicker.
  cbn [negb when]. frame.
Qed.

Lemma updateMain_morphs (html : Document) (s s' : State) :
  updateMain morph_main html s = (Ok tt, s') ->
  morphs s' = morphs s ++ [MorphMain html].
Proof.
  unfold updateMain. unfold bind at 1, get at 1. cbv beta iota.
  destruct (isSome (pg_main (page s)) && isSome (doc_main html)); [|discriminate].
  unfold bind, modify at 1. cbv beta iota. intros H.
  change s' with (snd (Ok tt, s')). rewrite <- H.
  rewrite emit_morph by reflexivity. destruct s; reflexivity.
Qed.

Lemma updateVariantPicker_morphs (html : Document) (s s' : State)
  (newProduct : option (string * string)) :
  updateVariantPicker morph_picker html s = (Ok newProduct, s') ->
  exists src, doc_picker html = Some src /\ morphs s' = morphs s ++ [MorphPicker src].
Proof.
  unfold updateVariantPicker.
  destruct (doc_picker html) as [src|]; [|discriminate].
  intros H. exists src. split; [reflexivity|].
  apply bind_Ok in H as (s0 & s1 & H0 & H). unfold get in H0. injection H0 as <- <-.
  apply bind_Ok in H as ([] & s2 & H2 & H). unfold modify in H2. injection H2 as <-.
  apply bind_Ok in H as ([] & s3 & H3 & H). unfold modify in H3. injection H3 as <-.
  apply bind_Ok in H as ([] & s4 & H4 & H). unfold ret in H. injection H as _ <-.
  change s4 with (snd (Ok tt, s4)). rewrite <- H4.
  rewrite emit_morph by reflexivity. destruct s; reflexivity.
Qed.

(** When [applyUpdate] returns, it has morphed once: <main> in full-page
    mode, the picker otherwise. *)
Lemma applyUpdate_morphs (html : Document) (textContent : string)
  (shouldMorphMain isColorChange : bool) (s s' : State) :
  applyUpdate' html textContent shouldMorphMain isColorChange s = (Ok tt, s') ->
  if shouldMorphMain then morphs s' = morphs s ++ [MorphMain html]
  else exists src,
      doc_picker html = Some src /\ morphs s' = morphs s ++ [MorphPicker src].
Proof.
  unfold applyUpdate. intros H.
  apply bind_Ok in H as ([] & s1 & H1 & H2).
  assert (morphs s' = morphs s1) as ->.
  { change s' with (snd (Ok tt, s')). rewrite <- H2.
    assert (preserves morphs (when (negb isColorChange) prefetchAfterSizeChange)) as P.
    { unfold prefetchAfterSizeChange, schedule. frame. }
    apply P. }
  unfold morphAndAnnounce in H1. destruct shouldMorphMain.
  - now apply updateMain_morphs.
  - apply bind_Ok in H1 as (newProduct & s2 & H1 & H3).
    apply updateVariantPicker_morphs in H1 as (src & Esrc & Em).
    exists src. split; [exact Esrc|]. rewrite <- Em.
    change s1 with (snd (Ok tt, s1)). rewrite <- H3.
    revert s2 H3 Em. 
    assert (preserves morphs
              (s <- get ;;
               id <- lift (selectedOptionId (picker s)) ;;
               match id with
               | None => ret tt
               | Some selectedOptionId =>
                   if JSON_parses textContent then
                     emit (VariantUpdateEvent textContent selectedOptionId html
                             (match productId (picker s) with
                              | Some id => id
                              | None => EmptyString
                              end)
                             newProduct)
                   else throw "SyntaxError"
               end)%js) as P by frame.
    intros s2 _ _. apply P.
Qed.

End Selection.

(* ------------------------------------------------------------------ *)
(** ** A colour change served from the cache *)

(** Blue was prefetched, and the response was a page with a <main> but
    without a picker: it is cached all the same. Selecting blue then hits the
    cache, and nothing is morphed. *)
Lemma cached_color_change_always_applied_fails :
  ~ cached_color_change_always_applied.
Proof.
  intros H.
  specialize
    (H Shirt.parse Shirt.json Shirt.morphPicker Shirt.morphMain Shirt.blue
       (userPicks Shirt.blue
          (Shirt.go
             [Connect; Idle 0; PrefetchResponse 0 true "<main>no picker</main>"]
             Shirt.start))
       "/products/shirt?option_values=2,10" eq_refl eq_refl).
  destruct H as (_ & (e & He) & _). vm_compute in He. discriminate He.
Qed.

(** C3, as the code has it. For a colour change on a product page whose
    request URL has a non-empty fragment in the cache, the handler makes no
    network call, starts no prefetch, schedules nothing and leaves the cache
    as it is. When the cached fragment carries the payload and the handler
    returns, the fragment has been morphed in, <main> for a connected
    product and the picker otherwise, within the handler. When the handler
    returns, the variant parameter of the address is the variant id of the
    target, or absent if it has none. A cached fragment without the payload
    is not applied, and the handler returns all the same. *)
Theorem cached_color_change_served_from_cache
  (parse : string -> Document) (json : string -> bool)
  (morphPicker : Page -> Picker -> Page) (morphMain : Page -> Document -> Page)
  (target : Element) (s : State) (requestUrl : string) :
  fst (requestUrlFor target s) = Ok requestUrl ->
  servedFromCache target requestUrl s = true ->
  let r := variantChanged parse json morphPicker morphMain target s in
  let s' := snd r in
  let cachedHtml :=
    removeDefer (parse (Js.template (JsMap.get requestUrl (htmlCache s)))) in
  fetchedUrls (trace s') = fetchedUrls (trace s)
  /\ userFetches s' = userFetches s
  /\ prefetches s' = prefetches s
  /\ scheduled s' = scheduled s
  /\ htmlCache s' = htmlCache s
  /\ (fst r = Ok tt -> loc_variant (location s') = variantOf target)
  /\ (fst r = Ok tt -> Js.truthy (doc_payload cachedHtml) = true ->
      if loadsNewProduct target s then
        morphs s' = morphs s ++ [MorphMain cachedHtml]
      else exists src,
          doc_picker cachedHtml = Some src
          /\ morphs s' = morphs s ++ [MorphPicker src])
  /\ (Js.truthy (doc_payload cachedHtml) = false ->
      fst r = Ok tt /\ morphs s' = morphs s).
Proof.
  intros Hkey Hhit r s' cachedHtml.
  pose proof (variantChanged_split parse json morphPicker morphMain target s) as E.
  pose proof (requestUrlFor_network target s) as Nreq.
  pose proof (requestUrlFor_morphs target s) as Mreq.
  destruct (requestUrlFor target s) as [[url|msg] s1]; simpl in Hkey;
    [|discriminate Hkey].
  injection Hkey as ->. simpl in Nreq, Mreq. rewrite Hhit in E.
  assert (isColorOptionChange target = true) as Hcolor.
  { unfold servedFromCache in Hhit. now apply andb_true_iff in Hhit as [_ ?]. }
  rewrite Hcolor in E. fold r in E.
  set (cached := parse (Js.template (JsMap.get requestUrl (htmlCache s)))) in *.
  set (apply := updateWithCachedHtml json morphPicker morphMain cached
                  (loadsNewProduct target s) true) in *.
  assert (network s' = network s) as N.
  { unfold s'. rewrite E, <- Nreq.
    assert (preserves network
              (apply ;; s2 <- get ;; replaceState (withVariant target (location s2)))%js)
      as P.
    { apply preserves_bind; [apply updateWithCachedHtml_network|intros _].
      apply preserves_bind; [apply preserves_get|intros s2].
      apply replaceState_network. }
    apply P. }
  unfold network in N. injection N as N1 N2 N3 N4 _ _.
  repeat (split; [assumption|]).
  split; [apply variantChanged_cache|].
  assert (forall s2, apply s1 = (Ok tt, s2) ->
            fst r = Ok tt
            /\ loc_variant (location s') = variantOf target
            /\ morphs s' = morphs s2) as Hrest.
  { intros s2 Happly.
    assert (r = replaceState (withVariant target (location s2)) s2) as Er.
    { rewrite E. unfold bind at 1. rewrite Happly. reflexivity. }
    unfold s'. rewrite Er.
    destruct (replaceState_location (withVariant target (location s2)) s2)
      as [Hok Hloc].
    split; [exact Hok|]. split.
    - rewrite Hloc. unfold withVariant, variantOf.
      destruct (Js.truthy (el_variantId target)); reflexivity.
    - apply replaceState_morphs. }
  split; [|split].
  - intros Hok. rewrite E in Hok. unfold bind at 1 in Hok.
    destruct (apply s1) as [[[]|msg] s2] eqn:Happly; [|discriminate Hok].
    now apply Hrest with s2.
  - intros Hok Hpayload. rewrite E in Hok. unfold bind at 1 in Hok.
    destruct (apply s1) as [[[]|msg] s2] eqn:Happly; [|discriminate Hok].
    destruct (Hrest s2 eq_refl) as (_ & _ & ->).
    unfold apply, updateWithCachedHtml in Happly. fold cachedHtml in Happly.
    rewrite Hpayload in Happly. simpl negb in Happly. cbv iota in Happly.
    apply applyUpdate_morphs in Happly. rewrite Mreq in Happly. exact Happly.
  - intros Hpayload.
    assert (apply s1 = (Ok tt, s1)) as Happly.
    { unfold apply, updateWithCachedHtml. fold cachedHtml. now rewrite Hpayload. }
    destruct (Hrest s1 Happly) as (Hok & _ & ->). split; [exact Hok | exact Mreq].
Qed.

(** Blue is cached; selecting it morphs the picker from the cache, sets the
    variant to 102 and asks the network for nothing. *)
Lemma cached_color_change_served_from_cache_witness :
  let s' := Shirt.go [Change Shirt.blue] Shirt.warmed in
  fetchedUrls (trace s') = fetchedUrls (trace Shirt.warmed)
  /\ prefetches s' = []
  /\ loc_variant (location s') = Some "102"
  /\ morphs s' = [MorphPicker (Shirt.pickerWith 2 4)].
Proof.
  intros s'.
  destruct (cached_color_change_served_from_cache Shirt.parse Shirt.json
              Shirt.morphPicker Shirt.morphMain Shirt.blue
              (userPicks Shirt.blue Shirt.warmed)
              "/products/shirt?option_values=2,10")
    as (Hnet & _ & Hpre & _ & _ & Hloc & Hmorph & _).
  - vm_compute. reflexivity.
  - vm_compute. reflexivity.
  - assert (s' = snd (variantChanged Shirt.parse Shirt.json Shirt.morphPicker
                        Shirt.morphMain Shirt.blue
                        (userPicks Shirt.blue Shirt.warmed))) as E
      by (vm_compute; reflexivity).
    rewrite E.
    split; [exact Hnet|]. split; [exact Hpre|].
    split; [apply Hloc; vm_compute; reflexivity|].
    specialize (Hmorph ltac:(vm_compute; reflexivity) ltac:(vm_compute; reflexivity)).
    vm_compute in Hmorph. destruct Hmorph as (src & Esrc & Hm).
    injection Esrc as <-. vm_compute. vm_compute in Hm. exact Hm.
Defined.

(* ------------------------------------------------------------------ *)
(** ** A selection that goes to the network *)

Lemma find_fresh (id : nat) (g : UserFetch -> UserFetch) (new : UserFetch)
  (l : list UserFetch) :
  (forall f, uf_id (g f) = uf_id f) ->
  uf_id new = id ->
  forallb (fun f => negb (Nat.eqb (uf_id f) id)) l = true ->
  find (fun f => Nat.eqb (uf_id f) id) (map g l ++ [new]) = Some new.
Proof.
  intros Hg Hnew. induction l as [|f l IH]; simpl; intros H.
  - now rewrite Hnew, Nat.eqb_refl.
  - apply andb_true_iff in H as [Hf Hl]. rewrite Hg.
    apply negb_true_iff in Hf. rewrite Hf. now apply IH.
Qed.

Lemma find_map_id (id : nat) (g : UserFetch -> UserFetch) (l : list UserFetch)
  (f : UserFetch) :
  (forall f, uf_id (g f) = uf_id f) ->
  find (fun f => Nat.eqb (uf_id f) id) l = Some f ->
  find (fun f => Nat.eqb (uf_id f) id) (map g l) = Some (g f).
Proof.
  intros Hg. induction l as [|x l IH]; simpl; [discriminate|].
  rewrite Hg. destruct (Nat.eqb (uf_id x) id); [|exact IH].
  intros H. now injection H as ->.
Qed.

Lemma markAborted_id (id : nat) (f : UserFetch) : uf_id (markAborted id f) = uf_id f.
Proof.
  unfold markAborted. destruct (Nat.eqb (uf_id f) id); [|reflexivity].
  destruct (uf_status f); reflexivity.
Qed.

Lemma abort_run (id : nat) (s : State) :
  abort id s
  = (Ok tt,
     set_trace (trace s ++ [AbortFetch id])
       (set_userFetches (map (markAborted id) (userFetches s)) s)).
Proof. unfold abort, bind, modify, emit. simpl. destruct s; reflexivity. Qed.

(** [fetchUpdatedSection] aborts the fetch of the current controller, if
    any, and starts a fetch of its own, pending under a new controller. *)
Lemma fetchUpdatedSection_run (url : string) (morphMain isColor : bool) (s : State) :
  let r := fetchUpdatedSection url morphMain isColor s in
  let aborted :=
    match abortController s with
    | Some id => map (markAborted id) (userFetches s)
    | None => userFetches s
    end in
  fst r = Ok tt
  /\ abortController (snd r) = Some (nextId s)
  /\ userFetches (snd r)
     = aborted ++ [mkUserFetch (nextId s) url morphMain isColor Pending]
  /\ fetchedUrls (trace (snd r)) = fetchedUrls (trace s) ++ [url].
Proof.
  destruct s as [p [id|] c l h v n pg loc t i e sch fs pf nid tr];
    unfold fetchUpdatedSection, abort, bind, get, modify, emit, ret;
    cbn -[fetchedUrls markAborted]; repeat split;
    rewrite !fetchedUrls_app; simpl; now rewrite ?app_nil_r.
Qed.

(** The fetched fragment is applied and not written to the cache: after the
    response the request URL is still absent from it. *)
Lemma fetched_fragment_cached_fails : ~ fetched_fragment_cached.
Proof.
  intros H.
  specialize
    (H Shirt.parse Shirt.json Shirt.morphPicker Shirt.morphMain Shirt.sizeL
       (userPicks Shirt.sizeL (Shirt.go [Connect] Shirt.start))
       "/products/shirt?option_values=1,11" "<main>Red-L</main>"
       eq_refl eq_refl eq_refl eq_refl).
  vm_compute in H. discriminate H.
Qed.

(** C5, as the code has it. When a selection is not served from the cache,
    [variantChanged] starts one fetch of the request URL under a new abort
    controller, which a later abort rejects so that its response is dropped.
    When the response arrives, carries the payload and the callback returns,
    the fragment has been morphed in: <main> when the selection leads to a
    connected product, the picker otherwise. The fetched fragment is not
    written to the fragment cache, which is the same before and after. *)
Theorem cache_miss_fetches_and_applies
  (parse : string -> Document) (json : string -> bool)
  (morphPicker : Page -> Picker -> Page) (morphMain : Page -> Document -> Page)
  (target : Element) (s : State) (requestUrl : string) :
  fst (requestUrlFor target s) = Ok requestUrl ->
  servedFromCache target requestUrl s = false ->
  forallb (fun f => negb (Nat.eqb (uf_id f) (nextId s))) (userFetches s) = true ->
  let r := variantChanged parse json morphPicker morphMain target s in
  let s1 := snd r in
  let id := nextId s in
  let shouldMorphMain := loadsNewProduct target s in
  let isColorChange := isColorOptionChange target in
  let started := mkUserFetch id requestUrl shouldMorphMain isColorChange Pending in
  fst r = Ok tt
  /\ abortController s1 = Some id
  /\ findFetch id s1 = Some started
  /\ fetchedUrls (trace s1) = fetchedUrls (trace s) ++ [requestUrl]
  /\ htmlCache s1 = htmlCache s
  /\ (forall text,
        let aborted := snd (abort id s1) in
        step parse json morphPicker morphMain (Response id text) aborted = aborted)
  /\ (forall text,
        step parse json morphPicker morphMain (Response id text) s1
        = snd (try_ (fetchUpdatedSection_then parse json morphPicker morphMain
                       text shouldMorphMain isColorChange)
                 (settle id s1)))
  /\ (forall text s2 s3,
        let html := removeDefer (parse text) in
        Js.truthy (doc_payload html) = true ->
        fetchUpdatedSection_then parse json morphPicker morphMain
          text shouldMorphMain isColorChange s2 = (Ok tt, s3) ->
        htmlCache s3 = htmlCache s2
        /\ if shouldMorphMain then morphs s3 = morphs s2 ++ [MorphMain html]
           else exists src,
               doc_picker html = Some src
               /\ morphs s3 = morphs s2 ++ [MorphPicker src]).
Proof.
  intros Hkey Hmiss Hfresh r s1 id shouldMorphMain isColorChange started.
  pose proof (variantChanged_split parse json morphPicker morphMain target s) as E.
  pose proof (requestUrlFor_network target s) as Nreq.
  destruct (requestUrlFor target s) as [[url|msg] s0]; simpl in Hkey;
    [|discriminate Hkey].
  injection Hkey as ->. simpl in Nreq. rewrite Hmiss in E. fold r in E.
  fold shouldMorphMain isColorChange in E.
  unfold network in Nreq. injection Nreq as N1 N2 _ _ _ N6.
  destruct (fetchUpdatedSection_run requestUrl shouldMorphMain isColorChange s0)
    as (Fok & Fctl & Ffetches & Furls).
  set (url' := fun s2 : State =>
                 let url := location s2 in
                 let url :=
                   if isOnProductPage target s then withVariant target url else url in
                 if shouldMorphMain then
                   mkLocation (Js.template (el_connectedProductUrl target))
                     (loc_variant url)
                 else url) in *.
  assert (r = replaceState
                (url' (snd (fetchUpdatedSection requestUrl shouldMorphMain
                              isColorChange s0)))
                (snd (fetchUpdatedSection requestUrl shouldMorphMain
                        isColorChange s0))) as Er.
  { rewrite E. unfold bind at 1.
    destruct (fetchUpdatedSection requestUrl shouldMorphMain isColorChange s0)
      as [[[]|msg] sf]; [reflexivity | discriminate Fok]. }
  set (sf := snd (fetchUpdatedSection requestUrl shouldMorphMain isColorChange s0)) in *.
  pose proof (replaceState_network (url' sf) sf) as Nrep.
  rewrite <- Er in Nrep. fold s1 in Nrep.
  unfold network in Nrep. injection Nrep as R1 R2 _ _ R5 _.
  assert (findFetch id s1 = Some started) as Hfind.
  { unfold findFetch. rewrite R2, Ffetches, N6, N2. fold id started.
    destruct (abortController s0) as [old|].
    - apply find_fresh; [apply markAborted_id | reflexivity | exact Hfresh].
    - rewrite <- (map_id (userFetches s)) at 1.
      apply find_fresh; [reflexivity | reflexivity | exact Hfresh]. }
  split; [rewrite Er; apply replaceState_location|].
  split; [rewrite R5, Fctl; now rewrite N6|].
  split; [exact Hfind|].
  split; [rewrite R1, Furls; now rewrite N1|].
  split; [apply variantChanged_cache|].
  split; [|split].
  - intros text aborted. simpl. unfold deliver.
    assert (findFetch id aborted = Some (markAborted id started)) as ->.
    { unfold aborted. rewrite abort_run. unfold findFetch.
      replace (userFetches _) with (map (markAborted id) (userFetches s1))
        by (destruct s1; reflexivity).
      apply find_map_id; [apply markAborted_id | exact Hfind]. }
    unfold markAborted, started. simpl. now rewrite Nat.eqb_refl.
  - intros text. simpl. unfold deliver. rewrite Hfind. reflexivity.
  - intros text s2 s3 html Hpayload Hthen. split.
    + change s3 with (snd (Ok tt, s3)). rewrite <- Hthen.
      apply fetchUpdatedSection_then_cache.
    + unfold fetchUpdatedSection_then in Hthen.
      apply bind_Ok in Hthen as ([] & s4 & H4 & Hthen).
      unfold modify in H4. injection H4 as <-.
      fold html in Hthen. rewrite Hpayload in Hthen. simpl negb in Hthen.
      cbv iota in Hthen. apply applyUpdate_morphs in Hthen.
      replace (morphs (set_pendingRequestUrl None s2)) with (morphs s2) in Hthen
        by (destruct s2; reflexivity).
      exact Hthen.
Qed.

(** Size L is not in the cache: it is fetched, the response morphs the
    picker, and the URL is not in the cache afterwards. *)
Lemma cache_miss_fetches_and_applies_witness :
  let s := userPicks Shirt.sizeL (Shirt.go [Connect] Shirt.start) in
  let s1 := Shirt.go [Change Shirt.sizeL] (Shirt.go [Connect] Shirt.start) in
  let s3 := Shirt.go [Response 0 "<main>Red-L</main>"] s1 in
  fetchedUrls (trace s1) = ["/products/shirt?option_values=1,11"]
  /\ abortController s1 = Some 0
  /\ morphs s3 = [MorphPicker (Shirt.pickerWith 1 5)]
  /\ htmlCache s3 = [].
Proof.
  intros s s1 s3.
  destruct (cache_miss_fetches_and_applies Shirt.parse Shirt.json
              Shirt.morphPicker Shirt.morphMain Shirt.sizeL s
              "/products/shirt?option_values=1,11")
    as (_ & Hctl & _ & Hurls & _ & _ & Hstep & Hthen).
  - vm_compute. reflexivity.
  - vm_compute. reflexivity.
  - vm_compute. reflexivity.
  - change s1 with
      (snd (variantChanged Shirt.parse Shirt.json Shirt.morphPicker Shirt.morphMain
              Shirt.sizeL s)).
    split; [exact Hurls|]. split; [exact Hctl|].
    change s3 with
      (step Shirt.parse Shirt.json Shirt.morphPicker Shirt.morphMain
         (Response (nextId s) "<main>Red-L</main>")
         (snd (variantChanged Shirt.parse Shirt.json Shirt.morphPicker
                 Shirt.morphMain Shirt.sizeL s))).
    rewrite Hstep.
    destruct (Hthen "<main>Red-L</main>"
                (settle (nextId s)
                   (snd (variantChanged Shirt.parse Shirt.json Shirt.morphPicker
                           Shirt.morphMain Shirt.sizeL s)))
                (Shirt.go [Response 0 "<main>Red-L</main>"] s1))
      as (Hcache & Hmorph).
    + vm_compute. reflexivity.
    + vm_compute. reflexivity.
    + vm_compute in Hmorph. destruct Hmorph as (src & Esrc & Hm).
      injection Esrc as <-. split; [vm_compute; exact Hm | vm_compute; reflexivity].
Defined.

(* ------------------------------------------------------------------ *)
(** ** Responses without the expected markup *)

(** A response with a <main> and no payload, for a pending fetch: nothing is
    reported. *)
Lemma structural_failure_surfaces_fails : ~ structural_failure_surfaces.
Proof.
  intros H.
  specialize
    (H Shirt.parse Shirt.json Shirt.morphPicker Shirt.morphMain 0
       "<main>no picker</main>"
       (Shirt.go [Connect; Change Shirt.sizeL] Shirt.start)
       (mkUserFetch 0 "/products/shirt?option_values=1,11" false false Pending)
       eq_refl eq_refl (or_introl eq_refl)).
  vm_compute in H. discriminate H.
Qed.

(** A selection served from the cache is the request URL, then
    [#updateWithCachedHtml] on the parsed entry, then the address. *)
Lemma variantChanged_cached (parse : string -> Document) (json : string -> bool)
  (morphPicker : Page -> Picker -> Page) (morphMain : Page -> Document -> Page)
  (target : Element) (s : State) (requestUrl : string) :
  fst (requestUrlFor target s) = Ok requestUrl ->
  servedFromCache target requestUrl s = true ->
  variantChanged parse json morphPicker morphMain target s
  = (updateWithCachedHtml json morphPicker morphMain
       (parse (Js.template (JsMap.get requestUrl (htmlCache s))))
       (loadsNewProduct target s) true ;;
     s2 <- get ;;
     replaceState (withVariant target (location s2)))%js
      (snd (requestUrlFor target s)).
Proof.
  intros Hkey Hhit. rewrite variantChanged_split.
  destruct (requestUrlFor target s) as [[url|msg] s1]; simpl in Hkey;
    [|discriminate Hkey].
  injection Hkey as ->. rewrite Hhit.
  unfold servedFromCache in Hhit. apply andb_true_iff in Hhit as [_ ->].
  reflexivity.
Qed.

(** C7, as the code has it. On the fetch path a response to a pending fetch
    that lacks the payload, or that has it but lacks the element to morph the
    picker from, leaves no mark: the page, the address, the cache and the
    scheduled callbacks are as before and the trace shows neither an effect
    nor an error; only [#pendingRequestUrl] is reset. In the second case
    the [then] callback throws, and the [catch] at the end of the promise
    chain absorbs it. On the cache path a cached fragment without the payload
    is not applied and nothing is reported: [variantChanged] returns, having
    morphed nothing, and has gone on to set the variant parameter of the
    address. A cached fragment with the payload and without the element to
    morph the picker from makes [variantChanged] itself throw 'No new variant
    picker source found' to the browser that called it, before the address is
    touched. [updateVariantPicker] throws exactly when that element is
    missing; the payload being looked up under the tag [variant-picker], a
    response with the payload can lack it only for a picker of another tag,
    the subclass [swatches-variant-picker-component]. *)
Theorem structural_failure_dropped
  (parse : string -> Document) (json : string -> bool)
  (morphPicker : Page -> Picker -> Page) (morphMain : Page -> Document -> Page) :
  (forall (id : nat) (text : string) (s : State) (f : UserFetch),
      findFetch id s = Some f ->
      uf_status f = Pending ->
      let html := removeDefer (parse text) in
      Js.truthy (doc_payload html) = false
      \/ (uf_morphMain f = false /\ doc_picker html = None) ->
      let s' := step parse json morphPicker morphMain (Response id text) s in
      trace s' = trace s
      /\ page s' = page s
      /\ location s' = location s
      /\ htmlCache s' = htmlCache s
      /\ scheduled s' = scheduled s
      /\ pendingRequestUrl s' = None
      /\ (Js.truthy (doc_payload html) = true ->
          fst (fetchUpdatedSection_then parse json morphPicker morphMain text
                 (uf_morphMain f) (uf_isColorChange f) (settle id s))
          = Throw "No new variant picker source found"))
  /\ (forall (target : Element) (s : State) (requestUrl : string),
         fst (requestUrlFor target s) = Ok requestUrl ->
         servedFromCache target requestUrl s = true ->
         let cachedHtml :=
           removeDefer (parse (Js.template (JsMap.get requestUrl (htmlCache s)))) in
         let handler := variantChanged parse json morphPicker morphMain target in
         (Js.truthy (doc_payload cachedHtml) = false ->
          fst (handler s) = Ok tt
          /\ callback handler s = snd (handler s)
          /\ morphs (snd (handler s)) = morphs s
          /\ loc_variant (location (snd (handler s))) = variantOf target)
         /\ (Js.truthy (doc_payload cachedHtml) = true ->
             loadsNewProduct target s = false ->
             doc_picker cachedHtml = None ->
             fst (handler s) = Throw "No new variant picker source found"
             /\ trace (callback handler s)
                = trace (snd (handler s))
                    ++ [Uncaught "No new variant picker source found"]
             /\ morphs (snd (handler s)) = morphs s
             /\ location (snd (handler s)) = location s))
  /\ (forall (html : Document) (s : State),
         (exists msg, fst (updateVariantPicker morphPicker html s) = Throw msg)
         <-> doc_picker html = None).
Proof.
  split; [|split].
  3:{ intros html s. unfold updateVariantPicker.
      destruct (doc_picker html) as [src|]; simpl.
      - split; [intros [msg Hmsg]; discriminate Hmsg | discriminate].
      - split; [reflexivity | intros _; eexists; reflexivity]. }
  - intros id text s f Hfind Hpending html Hbroken s'.
    assert (Js.truthy (doc_payload html) = false ->
            forall shouldMorphMain isColorChange s0,
              fetchUpdatedSection_then parse json morphPicker morphMain text
                shouldMorphMain isColorChange s0
              = (Ok tt, set_pendingRequestUrl None s0)) as Hsilent.
    { intros Hp mm ic s0. unfold fetchUpdatedSection_then, bind, modify.
      fold html. now rewrite Hp. }
    assert (Js.truthy (doc_payload html) = true -> doc_picker html = None ->
            forall isColorChange s0,
              fetchUpdatedSection_then parse json morphPicker morphMain text
                false isColorChange s0
              = (Throw "No new variant picker source found",
                 set_pendingRequestUrl None s0)) as Hthrow.
    { intros Hp Hpicker ic s0.
      unfold fetchUpdatedSection_then, applyUpdate, morphAndAnnounce,
        updateVariantPicker, bind, modify.
      fold html. now rewrite Hp, Hpicker. }
    assert (s' = set_pendingRequestUrl None (settle id s)) as ->.
    { unfold s'. simpl. unfold deliver. rewrite Hfind, Hpending. unfold try_.
      destruct (Js.truthy (doc_payload html)) eqn:Hp.
      - destruct Hbroken as [Hb | [Hmode Hpicker]]; [discriminate Hb|].
        rewrite Hmode.
        now rewrite (Hthrow eq_refl Hpicker (uf_isColorChange f) (settle id s)).
      - now rewrite (Hsilent eq_refl (uf_morphMain f) (uf_isColorChange f)
                       (settle id s)). }
    split; [destruct s; reflexivity|].
    split; [destruct s; reflexivity|].
    split; [destruct s; reflexivity|].
    split; [destruct s; reflexivity|].
    split; [destruct s; reflexivity|].
    split; [destruct s; reflexivity|].
    intros Hp. destruct Hbroken as [Hb | [Hmode Hpicker]]; [congruence|].
    now rewrite Hmode, (Hthrow Hp Hpicker).
  - intros target s requestUrl Hkey Hhit cachedHtml handler.
    pose proof (variantChanged_cached parse json morphPicker morphMain target s
                  requestUrl Hkey Hhit) as E.
    fold handler in E.
    pose proof (requestUrlFor_morphs target s) as Mreq.
    pose proof (requestUrlFor_location target s) as Lreq.
    set (s1 := snd (requestUrlFor target s)) in *.
    split.
    + intros Hp.
      assert (handler s = replaceState (withVariant target (location s1)) s1) as Er.
      { rewrite E. unfold updateWithCachedHtml. fold cachedHtml. rewrite Hp.
        reflexivity. }
      destruct (replaceState_location (withVariant target (location s1)) s1)
        as [Hok Hloc].
      assert (fst (handler s) = Ok tt) as Hret by now rewrite Er.
      split; [exact Hret|]. split; [|split].
      * unfold callback. destruct (handler s) as [[[]|msg] s2];
          [reflexivity | discriminate Hret].
      * rewrite Er, <- Mreq. apply replaceState_morphs.
      * rewrite Er, Hloc. unfold withVariant, variantOf.
        destruct (Js.truthy (el_variantId target)); reflexivity.
    + intros Hp Hmode Hpicker.
      assert (handler s = (Throw "No new variant picker source found", s1)) as Er.
      { rewrite E, Hmode.
        unfold updateWithCachedHtml, applyUpdate, morphAndAnnounce,
          updateVariantPicker, bind.
        fold cachedHtml. now rewrite Hp, Hpicker. }
      split; [now rewrite Er|]. split; [|split].
      * unfold callback. rewrite Er. destruct s1; reflexivity.
      * rewrite Er. exact Mreq.
      * rewrite Er. exact Lreq.
Qed.

(** In a swatches picker on the product page a response with the payload and
    without the picker's own element: as the response to a change of size it
    settles the fetch and nothing shows; as the prefetched fragment for blue
    it makes the selection of blue throw, and the address stays. Without the
    payload the cached fragment for blue is passed over and the address
    names the blue variant. *)
Lemma structural_failure_dropped_witness :
  let s := Shirt.go [Connect; Change Shirt.sizeL] Shirt.swatches in
  let s' := Shirt.go [Response 0 "<main>other picker</main>"] s in
  let cached :=
    userPicks Shirt.blue
      (Shirt.go [Connect; Idle 0; PrefetchResponse 0 true "<main>other picker</main>"]
         Shirt.swatches) in
  let hollow :=
    userPicks Shirt.blue
      (Shirt.go [Connect; Idle 0; PrefetchResponse 0 true "<main>no picker</main>"]
         Shirt.start) in
  let handler :=
    variantChanged Shirt.parse Shirt.json Shirt.morphPicker Shirt.morphMain
      Shirt.blue in
  (trace s' = trace s /\ page s' = page s)
  /\ (fst (handler cached) = Throw "No new variant picker source found"
      /\ location (snd (handler cached)) = mkLocation "/products/shirt" None)
  /\ (fst (handler hollow) = Ok tt
      /\ loc_variant (location (snd (handler hollow))) = Some "102").
Proof.
  intros s s' cached hollow handler.
  destruct (structural_failure_dropped Shirt.parse Shirt.json Shirt.morphPicker
              Shirt.morphMain) as (Hfetch & Hcache & _).
  split; [|split].
  - destruct (Hfetch 0 "<main>other picker</main>" s
                (mkUserFetch 0
                   "/products/shirt?section_id=section-rendering-product-card&option_values=1,11"
                   false false Pending))
      as (Htrace & Hpage & _).
    + vm_compute. reflexivity.
    + reflexivity.
    + right. split; vm_compute; reflexivity.
    + split; [exact Htrace | exact Hpage].
  - destruct (Hcache Shirt.blue cached
                "/products/shirt?section_id=section-rendering-product-card&option_values=2,10")
      as [_ Hthrow].
    + vm_compute. reflexivity.
    + vm_compute. reflexivity.
    + destruct Hthrow as (Hmsg & _ & _ & Hloc).
      * vm_compute. reflexivity.
      * vm_compute. reflexivity.
      * vm_compute. reflexivity.
      * split; [exact Hmsg|].
        transitivity (location cached); [exact Hloc | vm_compute; reflexivity].
  - destruct (Hcache Shirt.blue hollow "/products/shirt?option_values=2,10")
      as [Hsilent _].
    + vm_compute. reflexivity.
    + vm_compute. reflexivity.
    + destruct Hsilent as (Hok & _ & _ & Hloc).
      * vm_compute. reflexivity.
      * split; [exact Hok|].
        transitivity (variantOf Shirt.blue); [exact Hloc | reflexivity].
Defined.

(* ------------------------------------------------------------------ *)
(** ** More on the cache *)

Lemma has_set_same (k v : string) (m : JsMap.t) :
  JsMap.has k (JsMap.set k v m) = true.
Proof.
  induction m as [|[k' v'] m IH]; simpl.
  - now rewrite String.eqb_refl.
  - destruct (k' =? k) eqn:E; simpl; rewrite E; [reflexivity | exact IH].
Qed.

Lemma set_set (k v w : string) (m : JsMap.t) :
  JsMap.set k w (JsMap.set k v m) = JsMap.set k w m.
Proof.
  induction m as [|[k' v'] m IH]; simpl.
  - now rewrite String.eqb_refl.
  - destruct (k' =? k) eqn:E; simpl; rewrite E; [reflexivity | now rewrite IH].
Qed.

(** X1. What is put into the cache can be read back: after [cache_put] the
    URL is present and maps to the fragment just stored, whatever was evicted
    to make room. Below capacity no other key is affected, and storing under
    the same URL again only replaces the fragment. *)
Theorem cache_put_then_get (url html html' k : string) (m : JsMap.t) :
  JsMap.get url (cache_put url html m) = Some html
  /\ JsMap.has url (cache_put url html m) = true
  /\ (JsMap.size m < MAX_CACHE_SIZE -> k <> url ->
      JsMap.get k (cache_put url html m) = JsMap.get k m)
  /\ (JsMap.size (cache_put url html m) < MAX_CACHE_SIZE ->
      cache_put url html' (cache_put url html m) = cache_put url html' m).
Proof.
  split; [apply get_cache_put_same|].
  split; [unfold cache_put; apply has_set_same|].
  split.
  - intros Hsz Hk. unfold cache_put. apply Nat.leb_gt in Hsz. rewrite Hsz.
    now apply get_set_other.
  - intros Hsz. unfold cache_put at 1. apply Nat.leb_gt in Hsz. rewrite Hsz.
    unfold cache_put in *. destruct (MAX_CACHE_SIZE <=? JsMap.size m)%nat eqn:E.
    + apply Nat.leb_gt in Hsz. rewrite set_size, deleteFirst_size in Hsz.
      apply Nat.leb_le in E. unfold MAX_CACHE_SIZE in *.
      destruct (JsMap.has url (JsMap.deleteFirst m)); apply set_set.
    + apply set_set.
Qed.

Lemma cache_put_then_get_witness :
  let m := htmlCache Shirt.warmed in
  JsMap.get "/products/shirt?option_values=1,10" m = Some "<main>Red-M</main>"
  /\ JsMap.get "/products/shirt?option_values=1,10"
       (cache_put "/products/shirt?option_values=3,10" "<main>Green-M</main>" m)
     = Some "<main>Red-M</main>"
  /\ cache_put "/products/shirt?option_values=3,10" "<main>new</main>"
       (cache_put "/products/shirt?option_values=3,10" "<main>Green-M</main>" m)
     = cache_put "/products/shirt?option_values=3,10" "<main>new</main>" m.
Proof.
  intros m.
  destruct (cache_put_then_get "/products/shirt?option_values=3,10"
              "<main>Green-M</main>" "<main>new</main>"
              "/products/shirt?option_values=1,10" m)
    as (_ & _ & Hother & Hagain).
  split; [vm_compute; reflexivity|].
  split.
  - rewrite Hother; [vm_compute; reflexivity | vm_compute; lia | discriminate].
  - apply Hagain. vm_compute. lia.
Defined.

(* ------------------------------------------------------------------ *)
(** ** The selected options *)

(** X2. [selectedOptionId] is the first of [selectedOptionsValues]: when the
    latter returns a list of ids, the former returns its head, and nothing
    when the list is empty; the list has one id per selected control. *)
Theorem selectedOptionId_is_first (p : Picker) (ids : list string) :
  selectedOptionsValues p = Ok ids ->
  selectedOptionId p = Ok (hd_error ids)
  /\ length ids = length (selectedOptions p).
Proof.
  unfold selectedOptionsValues, selectedOptionId, selectedOption.
  generalize (selectedOptions p) as l. intros l. revert ids.
  induction l as [|e l IH]; simpl; intros ids H.
  - injection H as <-. split; reflexivity.
  - destruct (Js.truthy (el_optionValueId e)) eqn:T; [|discriminate H].
    destruct (optionValueIds l) as [rest|msg]; [|discriminate H].
    injection H as <-. simpl. split.
    + destruct (el_optionValueId e); [reflexivity | discriminate T].
    + f_equal. now apply (IH rest).
Qed.

Lemma selectedOptionId_is_first_witness :
  selectedOptionsValues (Shirt.pickerWith 2 5) = Ok ["2"; "11"]
  /\ selectedOptionId (Shirt.pickerWith 2 5) = Ok (Some "2").
Proof.
  split; [vm_compute; reflexivity|].
  apply (selectedOptionId_is_first (Shirt.pickerWith 2 5) ["2"; "11"]).
  vm_compute. reflexivity.
Defined.

(* ------------------------------------------------------------------ *)
(** ** Building the request URL again *)

Lemma buildRequestUrl_state (target : Element) (source : option string)
  (values : list string) (s : State) :
  snd (buildRequestUrl target source values s)
  = set_pendingRequestUrl
      (Js.or (el_connectedProductUrl target)
         (Js.or (pendingRequestUrl s) (productUrl (picker s)))) s.
Proof.
  unfold buildRequestUrl, bind, get, modify, lift, ret. simpl.
  assert (picker (set_pendingRequestUrl
                    (Js.or (el_connectedProductUrl target)
                       (Js.or (pendingRequestUrl s) (productUrl (picker s)))) s)
          = picker s) as E by (destruct s; reflexivity).
  destruct (selectedOptionsValues (picker s)); reflexivity.
Qed.

Lemma or_or (a b c : option string) :
  Js.or a (Js.or (Js.or a (Js.or b c)) c) = Js.or a (Js.or b c).
Proof.
  unfold Js.or. destruct (Js.truthy a) eqn:A; [reflexivity|].
  destruct (Js.truthy b) eqn:B; [now rewrite B|].
  destruct (Js.truthy c); reflexivity.
Qed.

(** X3. Building the request URL is idempotent: a second call for the same
    target, right after the first, returns the same URL (or throws the same
    error) and leaves the same state, although the first call has recorded
    the product URL as pending. *)
Theorem buildRequestUrl_twice (target : Element) (source : option string)
  (values : list string) (s : State) :
  let s1 := snd (buildRequestUrl target source values s) in
  buildRequestUrl target source values s1
  = (fst (buildRequestUrl target source values s), s1).
Proof.
  intros s1.
  rewrite (surjective_pairing (buildRequestUrl target source values s1)).
  f_equal.
  - rewrite !buildRequestUrl_result. unfold s1. rewrite buildRequestUrl_state.
    replace (picker (set_pendingRequestUrl _ s)) with (picker s)
      by (destruct s; reflexivity).
    replace (embedded (set_pendingRequestUrl _ s)) with (embedded s)
      by (destruct s; reflexivity).
    replace (pendingRequestUrl (set_pendingRequestUrl _ s))
      with (Js.or (el_connectedProductUrl target)
              (Js.or (pendingRequestUrl s) (productUrl (picker s))))
      by (destruct s; reflexivity).
    now rewrite or_or.
  - unfold s1. rewrite !buildRequestUrl_state.
    replace (picker (set_pendingRequestUrl _ s)) with (picker s)
      by (destruct s; reflexivity).
    replace (pendingRequestUrl (set_pendingRequestUrl _ s))
      with (Js.or (el_connectedProductUrl target)
              (Js.or (pendingRequestUrl s) (productUrl (picker s))))
      by (destruct s; reflexivity).
    rewrite or_or. destruct s; reflexivity.
Qed.

(** X4. The product URL of a request stays until a response resets it: once
    a URL has been built for a value with a connected-product URL, the URL
    built next for a value without one starts from that connected product,
    not from the product of the picker; the [then] callback of the fetch
    clears the record, whatever the response is. *)
Theorem pending_product_url_sticks
  (parse : string -> Document) (json : string -> bool)
  (morphPicker : Page -> Picker -> Page) (morphMain : Page -> Document -> Page)
  (first next : Element) (s : State) (ids : list string) (text : string)
  (morphMain' isColor : bool) :
  Js.truthy (el_connectedProductUrl first) = true ->
  Js.truthy (el_connectedProductUrl next) = false ->
  selectedOptionsValues (picker s) = Ok ids ->
  ids <> [] ->
  let s1 := snd (buildRequestUrl first None [] s) in
  pendingRequestUrl s1 = el_connectedProductUrl first
  /\ fst (buildRequestUrl next None [] s1)
     = Ok (renderUrl (embedded s) (el_connectedProductUrl first)
             [("option_values=" ++ Js.join "," ids)%string])
  /\ pendingRequestUrl
       (snd (fetchUpdatedSection_then parse json morphPicker morphMain text
               morphMain' isColor s1)) = None.
Proof.
  intros Hfirst Hnext Hids Hne s1.
  assert (pendingRequestUrl s1 = el_connectedProductUrl first) as Hp.
  { unfold s1. rewrite buildRequestUrl_state. unfold Js.or at 1. rewrite Hfirst.
    destruct s; reflexivity. }
  split; [exact Hp|]. split.
  - rewrite buildRequestUrl_result, Hp.
    replace (picker s1) with (picker s)
      by (unfold s1; rewrite buildRequestUrl_state; destruct s; reflexivity).
    replace (embedded s1) with (embedded s)
      by (unfold s1; rewrite buildRequestUrl_state; destruct s; reflexivity).
    rewrite Hids. unfold Js.or at 1. rewrite Hnext.
    unfold Js.or at 1. rewrite Hfirst.
    destruct ids as [|i ids]; [contradiction|]. reflexivity.
  - assert (preserves pendingRequestUrl
              (applyUpdate json morphPicker morphMain
                 (removeDefer (parse text))
                 (Js.template (doc_payload (removeDefer (parse text))))
                 morphMain' isColor)) as P.
    { unfold applyUpdate, morphAndAnnounce, updateMain, updateVariantPicker,
        prefetchAfterSizeChange, schedule, emit. frame. }
    unfold fetchUpdatedSection_then, bind, modify.
    destruct (negb (Js.truthy (doc_payload (removeDefer (parse text))))).
    + destruct s1; reflexivity.
    + match goal with
      | |- pendingRequestUrl (snd (applyUpdate _ _ _ ?h ?t ?a ?b ?st)) = None =>
          rewrite (P st)
      end.
      destruct s1; reflexivity.
Qed.

Lemma pending_product_url_sticks_witness :
  let s := userPicks Shirt.navy (Shirt.go [Connect] Shirt.start) in
  let s1 := snd (buildRequestUrl Shirt.navy None [] s) in
  fst (buildRequestUrl Shirt.sizeL None [] s1)
  = Ok "/products/shirt-navy?option_values=4,10".
Proof.
  intros s s1.
  destruct (pending_product_url_sticks Shirt.parse Shirt.json Shirt.morphPicker
              Shirt.morphMain Shirt.navy Shirt.sizeL s ["4"; "10"]
              "<main>no picker</main>" true true)
    as (_ & Hurl & _).
  - vm_compute. reflexivity.
  - vm_compute. reflexivity.
  - vm_compute. reflexivity.
  - discriminate.
  - fold s1 in Hurl. rewrite Hurl. vm_compute. reflexivity.
Defined.

(* ------------------------------------------------------------------ *)
(** ** A selection that cannot be turned into a URL *)

Lemma updateSelectedOption_throws (target : Element) (s s' : State) (msg : string) :
  updateSelectedOption target s = (Throw msg, s') ->
  msg = "Option not found" /\ s' = s.
Proof.
  unfold updateSelectedOption. destruct (el_kind target); try discriminate.
  unfold bind, get. simpl.
  destruct (find _ _); [discriminate|]. unfold throw. intros H.
  injection H as <- <-. split; reflexivity.
Qed.

Lemma optionValueIds_throws (l : list Element) (msg : string) :
  optionValueIds l = Throw msg -> msg = "No option value ID found".
Proof.
  induction l as [|e l IH]; simpl; [discriminate|].
  destruct (Js.truthy (el_optionValueId e)); [|now intros [= <-]].
  destruct (optionValueIds l); [discriminate|]. intros [= <-]. now apply IH.
Qed.



(* ------------------------------------------------------------------ *)
(** ** The address after a selection *)

Lemma location_eqb_eq (a b : Location) : location_eqb a b = true -> a = b.
Proof.
  unfold location_eqb. intros H. apply andb_true_iff in H as [Hp Hv].
  apply String.eqb_eq in Hp. destruct a as [pa va], b as [pb vb]; simpl in *.
  subst pb. destruct va as [x|], vb as [y|]; simpl in Hv; try discriminate Hv.
  - apply String.eqb_eq in Hv. now subst.
  - reflexivity.
Qed.

Lemma replaceState_run (url : Location) (s : State) :
  fst (replaceState url s) = Ok tt /\ location (snd (replaceState url s)) = url.
Proof.
  unfold replaceState, bind, get. simpl.
  destruct (location_eqb url (location s)) eqn:E; simpl.
  - split; [reflexivity|]. symmetry. now apply location_eqb_eq.
  - split; [reflexivity|]. destruct s; reflexivity.
Qed.

Lemma fetchUpdatedSection_location (url : string) (morphMain isColor : bool) :
  preserves location (fetchUpdatedSection url morphMain isColor).
Proof. unfold fetchUpdatedSection, abort. frame. Qed.

Lemma updateWithCachedHtml_location (json : string -> bool)
  (morphPicker : Page -> Picker -> Page) (morphMain : Page -> Document -> Page)
  (html : Document) (shouldMorphMain isColor : bool) :
  preserves location
    (updateWithCachedHtml json morphPicker morphMain html shouldMorphMain isColor).
Proof.
  unfold updateWithCachedHtml, applyUpdate, morphAndAnnounce, updateMain,
    updateVariantPicker, prefetchAfterSizeChange, schedule.
  frame.
Qed.

(** X6. The address bar after a selection. Outside the product page (a
    product card, a quick-add dialog, another template) the handler never
    rewrites the address. On the product page, a selection that goes to the
    network sets the variant parameter to the variant id of the target, or
    removes it, and assigns the path only when the selection leads to
    another product. A selection served from the cache sets the variant
    parameter alike but leaves the path as it is, also when the selection
    leads to another product. *)
Theorem address_after_selection
  (parse : string -> Document) (json : string -> bool)
  (morphPicker : Page -> Picker -> Page) (morphMain : Page -> Document -> Page)
  (target : Element) (s : State) :
  let r := variantChanged parse json morphPicker morphMain target s in
  (isOnProductPage target s = false -> location (snd r) = location s)
  /\ (forall requestUrl,
        isOnProductPage target s = true ->
        fst (requestUrlFor target s) = Ok requestUrl ->
        servedFromCache target requestUrl s = false ->
        loc_variant (location (snd r)) = variantOf target
        /\ (loadsNewProduct target s = false ->
            loc_pathname (location (snd r)) = loc_pathname (location s)))
  /\ (forall requestUrl,
        fst (requestUrlFor target s) = Ok requestUrl ->
        servedFromCache target requestUrl s = true ->
        fst r = Ok tt ->
        location (snd r)
        = mkLocation (loc_pathname (location s)) (variantOf target)).
Proof.
  intros r.
  pose proof (variantChanged_split parse json morphPicker morphMain target s) as E.
  pose proof (requestUrlFor_location target s) as L.
  fold r in E.
  assert (forall url, withVariant target url
                      = mkLocation (loc_pathname url) (variantOf target)) as W.
  { intros url. unfold withVariant, variantOf.
    destruct (Js.truthy (el_variantId target)); reflexivity. }
  assert (forall requestUrl s1 (f : State -> Location),
            r = (fetchUpdatedSection requestUrl (loadsNewProduct target s)
                   (isColorOptionChange target) ;;
                 s2 <- get ;; replaceState (f s2))%js s1 ->
            location s1 = location s ->
            location (snd r) = f (snd (fetchUpdatedSection requestUrl
                                         (loadsNewProduct target s)
                                         (isColorOptionChange target) s1))
            /\ location (snd (fetchUpdatedSection requestUrl
                                (loadsNewProduct target s)
                                (isColorOptionChange target) s1)) = location s)
    as Hfetch.
  { intros requestUrl s1 f Er L1.
    pose proof (fetchUpdatedSection_location requestUrl (loadsNewProduct target s)
                  (isColorOptionChange target) s1) as Lf.
    pose proof (fetchUpdatedSection_run requestUrl (loadsNewProduct target s)
                  (isColorOptionChange target) s1) as (Fok & _).
    rewrite Er. unfold bind at 1.
    destruct (fetchUpdatedSection requestUrl (loadsNewProduct target s)
                (isColorOptionChange target) s1) as [[[]|m] sf];
      [|discriminate Fok].
    simpl in Lf. unfold bind, get. cbv beta iota. simpl snd.
    split; [apply replaceState_run | now rewrite Lf]. }
  split; [|split].
  - intros Hoff.
    destruct (requestUrlFor target s) as [[url|m] s1]; simpl in L;
      [|now rewrite E].
    assert (servedFromCache target url s = false) as Hmiss.
    { unfold servedFromCache. rewrite Hoff. now rewrite andb_false_r. }
    assert (loadsNewProduct target s = false) as Hload.
    { unfold loadsNewProduct. now rewrite Hoff. }
    rewrite Hmiss in E.
    pose (f := fun s2 : State =>
                 let url := location s2 in
                 let url0 :=
                   if isOnProductPage target s then withVariant target url else url in
                 if loadsNewProduct target s then
                   mkLocation (Js.template (el_connectedProductUrl target))
                     (loc_variant url0)
                 else url0).
    destruct (Hfetch url s1 f E L) as [Hloc Hsame].
    rewrite Hloc. unfold f. cbv zeta. rewrite Hsame, Hoff, Hload. reflexivity.
  - intros requestUrl Hon Hkey Hmiss.
    destruct (requestUrlFor target s) as [[url|m] s1]; simpl in L, Hkey;
      [|discriminate Hkey].
    injection Hkey as ->. rewrite Hmiss in E.
    pose (f := fun s2 : State =>
                 let url := location s2 in
                 let url0 :=
                   if isOnProductPage target s then withVariant target url else url in
                 if loadsNewProduct target s then
                   mkLocation (Js.template (el_connectedProductUrl target))
                     (loc_variant url0)
                 else url0).
    destruct (Hfetch requestUrl s1 f E L) as [Hloc Hsame].
    rewrite Hloc. unfold f. cbv zeta. rewrite Hon, Hsame, W.
    destruct (loadsNewProduct target s);
      (split; [reflexivity | intros Hload; try discriminate Hload; reflexivity]).
  - intros requestUrl Hkey Hhit Hok.
    destruct (requestUrlFor target s) as [[url|m] s1]; simpl in L, Hkey;
      [|discriminate Hkey].
    injection Hkey as ->. rewrite Hhit in E.
    set (apply := updateWithCachedHtml json morphPicker morphMain
                    (parse (Js.template (JsMap.get requestUrl (htmlCache s))))
                    (loadsNewProduct target s) (isColorOptionChange target)) in *.
    pose proof (updateWithCachedHtml_location json morphPicker morphMain
                  (parse (Js.template (JsMap.get requestUrl (htmlCache s))))
                  (loadsNewProduct target s) (isColorOptionChange target) s1) as La.
    fold apply in La. rewrite E in Hok |- *.
    unfold bind at 1 in Hok. unfold bind at 1.
    destruct (apply s1) as [[[]|m] s2]; [|discriminate Hok].
    simpl in La. unfold bind, get. cbv beta iota.
    rewrite (proj2 (replaceState_run _ _)), W, La, L. reflexivity.
Qed.

(** Green is fetched and blue is served from the cache: either way the
    address names the variant and keeps its path. *)
Lemma address_after_selection_witness :
  let s := Shirt.go [Connect] Shirt.start in
  location (Shirt.go [Change Shirt.green] s)
  = mkLocation "/products/shirt" (Some "103")
  /\ location (Shirt.go [Change Shirt.blue] Shirt.warmed)
     = mkLocation "/products/shirt" (Some "102").
Proof.
  intros s.
  pose proof (address_after_selection Shirt.parse Shirt.json Shirt.morphPicker
                Shirt.morphMain Shirt.green (userPicks Shirt.green s))
    as (_ & Hfetch & _).
  pose proof (address_after_selection Shirt.parse Shirt.json Shirt.morphPicker
                Shirt.morphMain Shirt.blue (userPicks Shirt.blue Shirt.warmed))
    as (_ & _ & Hcache).
  split.
  - assert (Shirt.go [Change Shirt.green] s
            = snd (variantChanged Shirt.parse Shirt.json Shirt.morphPicker
                     Shirt.morphMain Shirt.green (userPicks Shirt.green s))) as E
      by (vm_compute; reflexivity).
    rewrite E.
    destruct (Hfetch "/products/shirt?option_values=3,10"
                ltac:(vm_compute; reflexivity) ltac:(vm_compute; reflexivity)
                ltac:(vm_compute; reflexivity)) as [Hvariant Hpath].
    specialize (Hpath ltac:(vm_compute; reflexivity)).
    destruct (location _) as [path variant]. simpl in Hvariant, Hpath.
    rewrite Hvariant, Hpath. vm_compute. reflexivity.
  - assert (Shirt.go [Change Shirt.blue] Shirt.warmed
            = snd (variantChanged Shirt.parse Shirt.json Shirt.morphPicker
                     Shirt.morphMain Shirt.blue
                     (userPicks Shirt.blue Shirt.warmed))) as E
      by (vm_compute; reflexivity).
    rewrite E.
    rewrite (Hcache "/products/shirt?option_values=2,10");
      vm_compute; reflexivity.
Defined.

(* ------------------------------------------------------------------ *)
(** ** Work in the background *)

Lemma emit_foreground (e : Effect) :
  isMorph e = false -> preserves foreground (emit e).
Proof.
  intros H s. unfold emit, modify, foreground, morphs. simpl.
  destruct s; simpl. rewrite filter_app. simpl. rewrite H. now rewrite app_nil_r.
Qed.

Lemma buildRequestUrl_foreground (target : Element) (source : option string)
  (values : list string) :
  preserves foreground (buildRequestUrl target source values).
Proof. unfold buildRequestUrl. frame. Qed.

#[export] Hint Resolve emit_foreground buildRequestUrl_foreground : frame.

Lemma buildHoverUrl_foreground (option : Element) :
  preserves foreground (buildHoverUrl option).
Proof. unfold buildHoverUrl. frame. Qed.

Lemma startPrefetch_foreground (url : string) :
  preserves foreground (startPrefetch url).
Proof. unfold startPrefetch. frame. Qed.

#[export] Hint Resolve buildHoverUrl_foreground startPrefetch_foreground : frame.

Lemma prefetchSingleVariant_foreground (option : Element) :
  preserves foreground (prefetchSingleVariant option).
Proof. unfold prefetchSingleVariant. frame. Qed.

#[export] Hint Resolve prefetchSingleVariant_foreground : frame.

Lemma prefetchEach_foreground (inputs : list Element) (current : option string) :
  preserves foreground (prefetchEach inputs current).
Proof.
  revert current. induction inputs as [|option rest IH]; intros current; simpl.
  - frame.
  - apply preserves_bind; [ frame | intros _; apply IH ].
Qed.

#[export] Hint Resolve prefetchEach_foreground : frame.

Lemma cacheCurrentPage_foreground : preserves foreground cacheCurrentPage.
Proof. unfold cacheCurrentPage. frame. Qed.

Lemma prefetchAvailableColorVariants_foreground :
  preserves foreground prefetchAvailableColorVariants.
Proof. unfold prefetchAvailableColorVariants. frame. Qed.

#[export] Hint Resolve cacheCurrentPage_foreground
  prefetchAvailableColorVariants_foreground : frame.

Lemma runTask_foreground (t : Task) : preserves foreground (runTask t).
Proof. unfold runTask. frame. Qed.

Lemma prefetchSingleVariant_resume_foreground (parse : string -> Document)
  (url : string) (ok : bool) (text : string) :
  preserves foreground (prefetchSingleVariant_resume parse url ok text).
Proof. unfold prefetchSingleVariant_resume. frame. Qed.

Lemma runTask_returns (t : Task) (s : State) :
  forall msg, fst (runTask t s) = Throw msg -> msg = "No option value ID found".
Proof.
  assert (forall option st m,
            fst (buildHoverUrl option st) = Throw m ->
            m = "No option value ID found") as Hhover.
  { intros option st m. unfold buildHoverUrl.
    destruct (el_fieldset option); [unfold bind, get, ret; simpl; discriminate|].
    rewrite buildRequestUrl_result.
    destruct (selectedOptionsValues (picker st)) eqn:V; [discriminate|].
    intros [= <-]. now apply (optionValueIds_throws _ _ V). }
  assert (forall inputs cur st m,
            fst (prefetchEach inputs cur st) = Throw m ->
            m = "No option value ID found") as Heach.
  { induction inputs as [|option rest IH]; intros cur st m; simpl;
      [discriminate|].
    unfold bind at 1.
    match goal with
    | |- context [(if el_checked option then ?a else ?b) st] =>
        set (body := if el_checked option then a else b)
    end.
    destruct (body st) as [[[]|m'] st'] eqn:B; [apply IH|].
    simpl. intros [= <-]. unfold body in B.
    destruct (el_checked option); [discriminate B|].
    destruct (negb (isColorOption option)); [discriminate B|].
    destruct (el_labelHidden option); [discriminate B|].
    match type of B with
    | (if ?c then _ else _) st = _ => destruct c; [discriminate B|]
    end.
    unfold bind at 1 in B.
    destruct (buildHoverUrl option st) as [[url|m0] st0] eqn:Hv.
    - unfold bind, get, when in B. simpl in B.
      destruct (negb (url =? EmptyString) && negb (JsMap.has url (htmlCache st0)));
        [|discriminate B].
      unfold prefetchSingleVariant, try_ in B.
      destruct ((url0 <- buildHoverUrl option;;
                 s0 <- get;;
                 (if (url0 =? EmptyString) || JsMap.has url0 (htmlCache s0)
                  then ret tt else startPrefetch url0))%js st0) as [[[]|?] ?];
        discriminate B.
    - injection B as -> _. apply (Hhover option st). now rewrite Hv. }
  intros msg. unfold runTask.
  assert (fst ((cacheCurrentPage;; prefetchAvailableColorVariants)%js s) = Throw msg ->
          msg = "No option value ID found") as H.
  { unfold bind at 1. rewrite cacheCurrentPage_run.
    unfold prefetchAvailableColorVariants, bind, get. simpl. apply Heach. }
  destruct (t_origin t); exact H.
Qed.

(** X7. The work in the background stays in the background. The pass the
    picker runs when idle (snapshot, then prefetches) and the completion of a
    prefetch change neither the page nor the address, morph nothing, leave
    the user's fetch and its abort controller alone and schedule nothing;
    the completion of a prefetch never throws, and the pass can only throw
    'No option value ID found'. *)
Theorem background_work_leaves_foreground (parse : string -> Document)
  (t : Task) (url : string) (ok : bool) (text : string) (s : State) :
  foreground (snd (runTask t s)) = foreground s
  /\ (forall msg, fst (runTask t s) = Throw msg -> msg = "No option value ID found")
  /\ foreground (snd (prefetchSingleVariant_resume parse url ok text s))
     = foreground s
  /\ fst (prefetchSingleVariant_resume parse url ok text s) = Ok tt.
Proof.
  split; [apply runTask_foreground|].
  split; [apply runTask_returns|].
  split; [apply prefetchSingleVariant_resume_foreground|].
  unfold prefetchSingleVariant_resume, try_.
  destruct ((if negb ok then ret tt
             else if (text =? EmptyString) || Js.isBlank text then ret tt
             else match doc_main (parse text) with
                  | Some minimalHtml =>
                      modify (fun s0 =>
                                set_htmlCache
                                  (cache_put url minimalHtml (htmlCache s0)) s0)
                  | None => ret tt
                  end) s) as [[[]|msg] s']; reflexivity.
Qed.

(* ------------------------------------------------------------------ *)
(** ** The user's fetch along a run *)

Lemma emit_wiring (e : Effect) : preserves wiring (emit e).
Proof. unfold emit. frame. Qed.

Lemma updateSelectedOption_wiring (target : Element) :
  preserves wiring (updateSelectedOption target).
Proof. unfold updateSelectedOption. frame. Qed.

Lemma buildRequestUrl_wiring (target : Element) (source : option string)
  (values : list string) :
  preserves wiring (buildRequestUrl target source values).
Proof. unfold buildRequestUrl. frame. Qed.

#[export] Hint Resolve emit_wiring updateSelectedOption_wiring
  buildRequestUrl_wiring : frame.

Lemma requestUrlFor_wiring (target : Element) :
  preserves wiring (requestUrlFor target).
Proof. unfold requestUrlFor. frame. Qed.

Lemma replaceState_wiring (url : Location) : preserves wiring (replaceState url).
Proof. unfold replaceState. frame. Qed.

Lemma schedule_wiring (origin : Origin) (timeout : nat) :
  preserves wiring (schedule origin timeout).
Proof. unfold schedule. frame. Qed.

#[export] Hint Resolve replaceState_wiring schedule_wiring : frame.

Lemma foreground_wiring (s1 s2 : State) :
  foreground s1 = foreground s2 -> wiring s1 = wiring s2.
Proof. unfold foreground, wiring. intros H. injection H as -> -> -> _ _ _ _. reflexivity. Qed.

Lemma pending_without (id : nat) (g : UserFetch -> UserFetch) (l : list UserFetch) :
  (forall f, isPending (g f) = isPending f && negb (Nat.eqb (uf_id f) id)) ->
  (forall f, isPending (g f) = true -> g f = f) ->
  filter isPending (map g l)
  = filter (fun f => negb (Nat.eqb (uf_id f) id)) (filter isPending l).
Proof.
  intros Hg Hsame. induction l as [|f l IH]; simpl; [reflexivity|].
  destruct (isPending (g f)) eqn:E.
  - rewrite (Hsame f E). rewrite Hg in E. apply andb_true_iff in E as [E1 E2].
    rewrite E1. simpl. rewrite E2. now rewrite IH.
  - rewrite Hg in E. destruct (isPending f); simpl in *; [rewrite E|]; exact IH.
Qed.

Lemma markAborted_pending (id : nat) (f : UserFetch) :
  isPending (markAborted id f) = isPending f && negb (Nat.eqb (uf_id f) id).
Proof.
  destruct f as [i u m c st]. unfold markAborted, isPending. simpl.
  destruct (Nat.eqb i id); destruct st; reflexivity.
Qed.

Lemma markAborted_same (id : nat) (f : UserFetch) :
  isPending (markAborted id f) = true -> markAborted id f = f.
Proof.
  destruct f as [i u m c st]. unfold markAborted, isPending. simpl.
  destruct (Nat.eqb i id); destruct st; try discriminate; reflexivity.
Qed.

(** The invariant: no fetch is pending, or one is and the current controller
    is its own. *)
Lemma one_pending_cases (s : State) :
  (pendingFetches s = []
   \/ exists f, pendingFetches s = [f] /\ abortController s = Some (uf_id f))
  <-> (length (pendingFetches s) <= 1
       /\ forall f, In f (pendingFetches s) -> abortController s = Some (uf_id f)).
Proof.
  split.
  - intros [E | (f & E & Hc)]; rewrite E; simpl; split; auto.
    + intros ? [].
    + intros g [<- | []]. exact Hc.
  - intros [Hlen Hall]. destruct (pendingFetches s) as [|f [|g l]]; simpl in *.
    + now left.
    + right. exists f. split; [reflexivity | apply Hall; now left].
    + lia.
Qed.

Lemma fetchUpdatedSection_one_pending (url : string) (morphMain isColor : bool)
  (s : State) :
  (pendingFetches s = []
   \/ exists f, pendingFetches s = [f] /\ abortController s = Some (uf_id f)) ->
  let s' := snd (fetchUpdatedSection url morphMain isColor s) in
  exists f, pendingFetches s' = [f] /\ abortController s' = Some (uf_id f).
Proof.
  intros J s'.
  destruct (fetchUpdatedSection_run url morphMain isColor s) as (_ & Hc & Hf & _).
  fold s' in Hc, Hf.
  exists (mkUserFetch (nextId s) url morphMain isColor Pending).
  split; [|exact Hc].
  unfold pendingFetches. rewrite Hf.
  change (fun f : UserFetch => match uf_status f with
                                | Pending => true
                                | _ => false
                                end) with isPending.
  rewrite filter_app. simpl.
  replace (filter isPending
             match abortController s with
             | Some id => map (markAborted id) (userFetches s)
             | None => userFetches s
             end) with (@nil UserFetch); [reflexivity|].
  symmetry. unfold pendingFetches in J.
  change (fun f : UserFetch => match uf_status f with
                                | Pending => true
                                | _ => false
                                end) with isPending in J.
  destruct (abortController s) as [id|].
  - rewrite (pending_without id); [|apply markAborted_pending|apply markAborted_same].
    destruct J as [-> | (f & -> & Hid)]; [reflexivity|].
    injection Hid as ->. simpl. now rewrite Nat.eqb_refl.
  - destruct J as [-> | (f & _ & Hid)]; [reflexivity | discriminate Hid].
Qed.

Lemma settle_one_pending (id : nat) (s : State) :
  (pendingFetches s = []
   \/ exists f, pendingFetches s = [f] /\ abortController s = Some (uf_id f)) ->
  pendingFetches (settle id s) = []
  \/ exists f, pendingFetches (settle id s) = [f]
               /\ abortController (settle id s) = Some (uf_id f).
Proof.
  intros J.
  assert (abortController (settle id s) = abortController s) as ->
    by (destruct s; reflexivity).
  assert (pendingFetches (settle id s)
          = filter (fun f => negb (Nat.eqb (uf_id f) id)) (pendingFetches s)) as ->.
  { unfold pendingFetches, settle.
    replace (userFetches (set_userFetches _ s))
      with (map (fun f => if Nat.eqb (uf_id f) id then
                            mkUserFetch (uf_id f) (uf_url f) (uf_morphMain f)
                              (uf_isColorChange f) Settled
                          else f) (userFetches s))
      by (destruct s; reflexivity).
    apply (pending_without id).
    - intros [i u m c st]. unfold isPending. simpl.
      destruct (Nat.eqb i id); destruct st; reflexivity.
    - intros [i u m c st]. unfold isPending. simpl.
      destruct (Nat.eqb i id); simpl; [discriminate | reflexivity]. }
  destruct J as [-> | (f & -> & Hid)]; [now left|].
  simpl. destruct (negb (Nat.eqb (uf_id f) id)); [right; eauto | now left].
Qed.

Lemma wiring_one_pending (s s' : State) :
  wiring s' = wiring s ->
  (pendingFetches s = []
   \/ exists f, pendingFetches s = [f] /\ abortController s = Some (uf_id f)) ->
  pendingFetches s' = []
  \/ exists f, pendingFetches s' = [f] /\ abortController s' = Some (uf_id f).
Proof.
  unfold wiring, pendingFetches. intros H. injection H as -> -> _. auto.
Qed.

Lemma wiring_set_trace (x : list Effect) (s : State) :
  wiring (set_trace x s) = wiring s.
Proof. destruct s; reflexivity. Qed.

Section Wiring.

Variable parseFromString : string -> Document.
Variable JSON_parses : string -> bool.
Variable morph_picker : Page -> Picker -> Page.
Variable morph_main : Page -> Document -> Page.

Lemma applyUpdate_wiring (html : Document) (textContent : string)
  (shouldMorphMain isColorChange : bool) :
  preserves wiring
    (applyUpdate JSON_parses morph_picker morph_main html textContent
       shouldMorphMain isColorChange).
Proof.
  unfold applyUpdate, morphAndAnnounce, updateMain, updateVariantPicker,
    prefetchAfterSizeChange.
  frame.
Qed.

#[local] Hint Resolve applyUpdate_wiring : frame.

Lemma updateWithCachedHtml_wiring (html : Document) (morphMain isColor : bool) :
  preserves wiring
    (updateWithCachedHtml JSON_parses morph_picker morph_main html morphMain isColor).
Proof. unfold updateWithCachedHtml. frame. Qed.

Lemma fetchUpdatedSection_then_wiring (text : string) (morphMain isColor : bool) :
  preserves wiring
    (fetchUpdatedSection_then parseFromString JSON_parses morph_picker morph_main
       text morphMain isColor).
Proof. unfold fetchUpdatedSection_then. frame. Qed.

Lemma fetchUpdatedSection_changeListeners (url : string) (morphMain isColor : bool) :
  preserves changeListeners (fetchUpdatedSection url morphMain isColor).
Proof. unfold fetchUpdatedSection, abort, emit. frame. Qed.

(** One run of the 'change' handler keeps the invariant and the number of
    listeners. *)
Lemma variantChanged_one_pending (target : Element) (s : State) :
  let s' := snd (variantChanged parseFromString JSON_parses morph_picker morph_main
                   target s) in
  changeListeners s' = changeListeners s
  /\ ((pendingFetches s = []
       \/ exists f, pendingFetches s = [f] /\ abortController s = Some (uf_id f)) ->
      pendingFetches s' = []
      \/ exists f, pendingFetches s' = [f] /\ abortController s' = Some (uf_id f)).
Proof.
  intros s'. unfold s'.
  rewrite variantChanged_split.
  pose proof (requestUrlFor_wiring target s) as W.
  destruct (requestUrlFor target s) as [[url|msg] s1]; simpl in W.
  - destruct (servedFromCache target url s).
    + match goal with
      | |- context [snd (?c s1)] =>
          assert (preserves wiring c) as P
      end.
      { apply preserves_bind; [apply updateWithCachedHtml_wiring|intros _].
        apply preserves_bind; [apply preserves_get|intros s2].
        apply replaceState_wiring. }
      specialize (P s1). rewrite W in P. split.
      * unfold wiring in P. now injection P.
      * now apply wiring_one_pending.
    + pose proof (fetchUpdatedSection_run url (loadsNewProduct target s)
                    (isColorOptionChange target) s1) as (Fok & _).
      pose proof (fetchUpdatedSection_one_pending url (loadsNewProduct target s)
                    (isColorOptionChange target) s1) as F1.
      pose proof (fetchUpdatedSection_changeListeners url (loadsNewProduct target s)
                    (isColorOptionChange target) s1) as F2.
      unfold bind, get. cbv beta iota.
      destruct (fetchUpdatedSection url (loadsNewProduct target s)
                  (isColorOptionChange target) s1) as [[[]|m] sf];
        [|discriminate Fok].
      simpl in F1, F2.
      match goal with
      | |- context [replaceState ?u sf] =>
          pose proof (replaceState_wiring u sf) as R
      end.
      split.
      * transitivity (changeListeners sf); [exact (f_equal snd R)|].
        rewrite F2. exact (f_equal snd W).
      * intros J. refine (wiring_one_pending sf _ R _).
        right. apply F1. now apply (wiring_one_pending s).
  - split; [apply (f_equal snd) in W; exact W | now apply wiring_one_pending].
Qed.

Lemma callback_wiring (c : M unit) (s : State) :
  wiring (callback c s) = wiring (snd (c s)).
Proof.
  unfold callback. destruct (c s) as [[[]|msg] s']; simpl;
    [reflexivity | apply wiring_set_trace].
Qed.

Lemma step_one_pending (e : Event) (s : State) :
  (pendingFetches s = []
   \/ exists f, pendingFetches s = [f] /\ abortController s = Some (uf_id f)) ->
  let s' := step parseFromString JSON_parses morph_picker morph_main e s in
  (pendingFetches s' = []
   \/ exists f, pendingFetches s' = [f] /\ abortController s' = Some (uf_id f))
  /\ changeListeners s'
     = (if isConnect e then S (changeListeners s) else changeListeners s).
Proof.
  intros J. destruct e as [| |target|k|id text|id|id ok text|id]; simpl.
  - assert (userFetches (callback connectedCallback s) = userFetches s
            /\ abortController (callback connectedCallback s) = abortController s
            /\ changeListeners (callback connectedCallback s)
               = S (changeListeners s)) as (E1 & E2 & E3).
    { destruct s as [p a c [|] h v n pg l t i e sch fs pf nid tr]; repeat split. }
    split; [|exact E3]. unfold pendingFetches in *. now rewrite E1, E2.
  - assert (wiring (callback disconnectedCallback s) = wiring s) as E.
    { destruct s as [p a c [|] [|] [|] n pg l t i e sch fs pf nid tr];
        reflexivity. }
    split; [now apply (wiring_one_pending s) | exact (f_equal snd E)].
  - assert (wiring (userPicks target s) = wiring s) as U.
    { unfold userPicks. destruct (el_kind target) as [[|]| | |]; try reflexivity.
      destruct (el_fieldset target); destruct s; reflexivity. }
    apply (wiring_one_pending _ _ U) in J.
    assert (forall n s0,
              (pendingFetches s0 = []
               \/ exists f, pendingFetches s0 = [f]
                            /\ abortController s0 = Some (uf_id f)) ->
              let sn := Nat.iter n
                          (callback (variantChanged parseFromString JSON_parses
                                       morph_picker morph_main target)) s0 in
              (pendingFetches sn = []
               \/ exists f, pendingFetches sn = [f]
                            /\ abortController sn = Some (uf_id f))
              /\ changeListeners sn = changeListeners s0) as Hiter.
    { induction n as [|n IH]; intros s0 J0; simpl; [split; auto|].
      destruct (IH s0 J0) as [IH1 IH2].
      set (sn := Nat.iter n _ s0) in *.
      pose proof (variantChanged_one_pending target sn) as (C & P).
      pose proof (callback_wiring
                    (variantChanged parseFromString JSON_parses morph_picker
                       morph_main target) sn) as CW.
      split.
      - apply (wiring_one_pending _ _ CW). now apply P.
      - transitivity (changeListeners sn); [|exact IH2].
        rewrite <- C. exact (f_equal snd CW). }
    destruct (Hiter (changeListeners s) (userPicks target s) J) as [H1 H2].
    split; [exact H1|]. rewrite H2. exact (f_equal snd U).
  - destruct (nth_error (scheduled s) k) as [t|]; [|split; auto].
    set (s1 := set_scheduled _ s).
    assert (wiring s1 = wiring s) as E1 by (destruct s; reflexivity).
    assert (wiring (callback (runTask t) s1) = wiring s) as E.
    { rewrite callback_wiring, <- E1. apply foreground_wiring, runTask_foreground. }
    split; [now apply (wiring_one_pending s) | now apply (f_equal snd) in E].
  - unfold deliver. destruct (findFetch id s) as [f|]; [|split; auto].
    destruct (uf_status f); try (split; auto; fail).
    assert (wiring (snd (try_ (fetchUpdatedSection_then parseFromString JSON_parses
                                morph_picker morph_main text (uf_morphMain f)
                                (uf_isColorChange f)) (settle id s)))
            = wiring (settle id s)) as E.
    { apply preserves_try, fetchUpdatedSection_then_wiring. }
    split.
    + apply (wiring_one_pending _ _ E). now apply settle_one_pending.
    + apply (f_equal snd) in E. simpl in E. rewrite E. destruct s; reflexivity.
  - unfold fail. destruct (findFetch id s) as [f|]; [|split; auto].
    destruct (uf_status f); try (split; auto; fail).
    split; [now apply settle_one_pending | destruct s; reflexivity].
  - destruct (findPrefetch id s) as [url|]; [|split; auto].
    assert (wiring (snd (prefetchSingleVariant_resume parseFromString url ok text
                           (dropPrefetch id s))) = wiring s) as E.
    { rewrite (foreground_wiring _ (dropPrefetch id s));
        [destruct s; reflexivity|].
      apply prefetchSingleVariant_resume_foreground. }
    split; [now apply (wiring_one_pending s) | now apply (f_equal snd) in E].
  - split; [|destruct s; reflexivity].
    apply (wiring_one_pending s); [destruct s; reflexivity | exact J].
Qed.

End Wiring.

(** X8. At most one user fetch is pending at any time of any run, and the
    fetch that is pending is the one the current abort controller controls:
    every call of [fetchUpdatedSection] rejects the fetch before it. *)
Theorem at_most_one_pending_fetch
  (parse : string -> Document) (json : string -> bool)
  (morphPicker : Page -> Picker -> Page) (morphMain : Page -> Document -> Page)
  (pg : Page) (loc : Location) (template : string) (idle inCard : bool)
  (events : list Event) :
  let s := run parse json morphPicker morphMain events
             (initial pg loc template idle inCard) in
  length (pendingFetches s) <= 1
  /\ forall f, In f (pendingFetches s) -> abortController s = Some (uf_id f).
Proof.
  intros s. apply one_pending_cases. unfold s.
  assert (forall s0,
            (pendingFetches s0 = []
             \/ exists f, pendingFetches s0 = [f]
                          /\ abortController s0 = Some (uf_id f)) ->
            let s := run parse json morphPicker morphMain events s0 in
            pendingFetches s = []
            \/ exists f, pendingFetches s = [f]
                         /\ abortController s = Some (uf_id f)) as H.
  { induction events as [|e events IH]; intros s0 J; simpl; [exact J|].
    apply IH. now apply step_one_pending. }
  apply H. now left.
Qed.

(** X9. Every attach adds a 'change' listener and no detach removes one: after
    a run the picker has as many 'change' listeners as it was attached times,
    and a 'change' event runs the handler that many times. *)
Theorem change_listeners_accumulate
  (parse : string -> Document) (json : string -> bool)
  (morphPicker : Page -> Picker -> Page) (morphMain : Page -> Document -> Page)
  (pg : Page) (loc : Location) (template : string) (idle inCard : bool)
  (events : list Event) (target : Element) :
  let s := run parse json morphPicker morphMain events
             (initial pg loc template idle inCard) in
  changeListeners s = length (filter isConnect events)
  /\ step parse json morphPicker morphMain (Change target) s
     = Nat.iter (length (filter isConnect events))
         (callback (variantChanged parse json morphPicker morphMain target))
         (userPicks target s).
Proof.
  intros s.
  assert (forall s0,
            (pendingFetches s0 = []
             \/ exists f, pendingFetches s0 = [f]
                          /\ abortController s0 = Some (uf_id f)) ->
            changeListeners (run parse json morphPicker morphMain events s0)
            = length (filter isConnect events) + changeListeners s0) as H.
  { induction events as [|e events IH]; intros s0 J; simpl; [reflexivity|].
    destruct (step_one_pending parse json morphPicker morphMain e s0 J) as [J' C].
    rewrite (IH _ J'), C. destruct (isConnect e); simpl; lia. }
  assert (changeListeners s = length (filter isConnect events)) as E.
  { unfold s. rewrite H; [simpl; lia | now left]. }
  split; [exact E|]. simpl. now rewrite E.
Qed.

(* ------------------------------------------------------------------ *)
(** ** What the prefetch loop skips *)

Lemma bind_ext {A B : Type} (c : M A) (k1 k2 : A -> M B) (s : State) :
  (forall a s', k1 a s' = k2 a s') -> bind c k1 s = bind c k2 s.
Proof.
  intros H. unfold bind. destruct (c s) as [[a|msg] s']; [apply H | reflexivity].
Qed.

Lemma ret_bind {B : Type} (k : M B) (s : State) :
  (ret tt ;; k)%js s = k s.
Proof. reflexivity. Qed.

(** X10. The prefetch loop does nothing for an input that is not of a colour
    option, and nothing for an unchecked colour whose label is hidden: with
    or without these inputs in the list it starts the same prefetches and
    ends in the same state. *)
Theorem prefetch_skips_hidden_and_other_options (inputs : list Element)
  (currentlySelected : option string) (s : State) :
  prefetchEach inputs currentlySelected s
  = prefetchEach (filter mattersToPrefetch inputs) currentlySelected s.
Proof.
  revert currentlySelected s.
  induction inputs as [|e rest IH]; intros cur s; [reflexivity|].
  cbn [filter]. unfold mattersToPrefetch at 1.
  destruct (isColorOption e) eqn:Hc.
  - destruct (el_checked e) eqn:Hk.
    + cbn [andb orb prefetchEach]. rewrite Hc, Hk. cbn [andb negb].
      rewrite !ret_bind. apply IH.
    + destruct (el_labelHidden e) eqn:Hh.
      * cbn [andb orb negb prefetchEach]. rewrite Hc, Hk, Hh. cbn [andb negb].
        rewrite ret_bind. apply IH.
      * cbn [andb orb negb prefetchEach]. rewrite Hc, Hk, Hh. cbn [andb negb].
        apply bind_ext. intros _ s'. apply IH.
  - cbn [andb prefetchEach]. rewrite Hc. rewrite andb_false_r. cbn [negb].
    destruct (el_checked e); rewrite ret_bind; apply IH.
Qed.

(* ------------------------------------------------------------------ *)
(** ** The key of the snapshot *)

Lemma optionValueIds_all (l : list Element) :
  (forall e, In e l -> Js.truthy (el_optionValueId e) = true) ->
  optionValueIds l = Ok (map (fun e => Js.template (el_optionValueId e)) l).
Proof.
  induction l as [|e l IH]; intros H; simpl; [reflexivity|].
  rewrite (H e) by now left. rewrite IH; [reflexivity|].
  intros x Hx. apply H. now right.
Qed.



(* ------------------------------------------------------------------ *)
(** ** The key of a prefetch *)

Lemma optionValueIds_Ok (l : list Element) (ids : list string) :
  optionValueIds l = Ok ids ->
  ids = map idOf l
  /\ forall e, In e l -> Js.truthy (el_optionValueId e) = true.
Proof.
  revert ids. induction l as [|e l IH]; simpl; intros ids H.
  - injection H as <-. split; [reflexivity | intros ? []].
  - destruct (Js.truthy (el_optionValueId e)) eqn:T; [|discriminate H].
    destruct (optionValueIds l) as [rest|msg]; [|discriminate H].
    injection H as <-. destruct (IH rest eq_refl) as [-> Hall].
    split; [reflexivity|]. intros x [<- | Hx]; [exact T | now apply Hall].
Qed.

Lemma map_id_on {A : Type} (g : A -> A) (l : list A) :
  (forall x, In x l -> g x = x) -> map g l = l.
Proof.
  induction l as [|x l IH]; simpl; intros H; [reflexivity|].
  rewrite H by now left. f_equal. apply IH. intros y Hy. apply H. now right.
Qed.

Lemma filter_none {A : Type} (p : A -> bool) (l : list A) :
  (forall x, In x l -> p x = false) -> filter p l = [].
Proof.
  induction l as [|x l IH]; simpl; intros H; [reflexivity|].
  rewrite H by now left. apply IH. intros y Hy. apply H. now right.
Qed.

Section Hover.

Variables (input old : Element) (fieldset : nat).
Variables (before g1 g2 after : list Element).

Hypothesis Hkind : el_kind input = EInput true.
Hypothesis Hfs : el_fieldset input = Some fieldset.
Hypothesis Hout :
  forall e, In e (before ++ after) ->
            inFieldset fieldset e = false /\ el_node e <> el_node input.
Hypothesis Hgroup :
  forall e, In e (g1 ++ g2) ->
            isRadio e = true /\ inFieldset fieldset e = true
            /\ el_node e <> el_node input.

(** The controls once the browser has checked [input] and
    [updateSelectedOption] has set its attribute. *)
Lemma picked_controls :
  map (fun e => if Nat.eqb (el_node e) (el_node input)
                then set_checked true e else e)
    (map (fun e => if isRadio e && inFieldset fieldset e
                   then set_checked (Nat.eqb (el_node e) (el_node input)) e
                   else e)
       (before ++ (g1 ++ input :: g2) ++ after))
  = before ++ (map (set_checked false) g1 ++ set_checked true input
                 :: map (set_checked false) g2) ++ after.
Proof.
  set (upd := fun e => if Nat.eqb (el_node e) (el_node input)
                       then set_checked true e else e).
  set (pick := fun e => if isRadio e && inFieldset fieldset e
                        then set_checked (Nat.eqb (el_node e) (el_node input)) e
                        else e).
  assert (forall l, (forall e, In e l -> In e (before ++ after)) ->
                    map upd (map pick l) = l) as Hsame.
  { intros l Hl. rewrite map_map. apply map_id_on. intros e He.
    destruct (Hout e (Hl e He)) as [Hf Hn]. unfold pick, upd.
    rewrite Hf, andb_false_r. apply Nat.eqb_neq in Hn. now rewrite Hn. }
  assert (forall l, (forall e, In e l -> In e (g1 ++ g2)) ->
                    map upd (map pick l) = map (set_checked false) l) as Hoff.
  { intros l Hl. rewrite map_map. apply map_ext_in. intros e He.
    destruct (Hgroup e (Hl e He)) as (Hr & Hf & Hn). unfold pick, upd.
    rewrite Hr, Hf. apply Nat.eqb_neq in Hn. rewrite Hn. simpl.
    destruct e; simpl in *. now rewrite Hn. }
  rewrite !map_app. simpl map.
  rewrite (Hsame before), (Hsame after), (Hoff g1), (Hoff g2).
  - f_equal. f_equal. f_equal. unfold pick, upd.
    assert (isRadio input = true) as -> by (unfold isRadio; now rewrite Hkind).
    assert (inFieldset fieldset input = true) as ->
        by (unfold inFieldset; rewrite Hfs; apply Nat.eqb_refl).
    simpl. rewrite Nat.eqb_refl. destruct input; simpl. now rewrite Nat.eqb_refl.
  - intros e He. apply in_or_app. now right.
  - intros e He. apply in_or_app. now left.
  - intros e He. apply in_or_app. now right.
  - intros e He. apply in_or_app. now left.
Qed.

Lemma picked_selected :
  filter matchesSelected
    (before ++ (map (set_checked false) g1 ++ set_checked true input
                  :: map (set_checked false) g2) ++ after)
  = filter matchesSelected before ++ set_checked true input
      :: filter matchesSelected after.
Proof.
  assert (forall l, (forall e, In e l -> In e (g1 ++ g2)) ->
                    filter matchesSelected (map (set_checked false) l) = []) as Hoff.
  { intros l Hl. apply filter_none. intros x Hx.
    apply in_map_iff in Hx as (e & <- & He).
    destruct (Hgroup e (Hl e He)) as (Hr & _ & _).
    unfold isRadio in Hr. unfold matchesSelected.
    destruct e as [n k f o h v c i vi cp pc qa]; simpl in *.
    destruct k; try discriminate Hr; reflexivity. }
  rewrite !filter_app. simpl filter.
  rewrite (Hoff g1), (Hoff g2).
  - assert (matchesSelected (set_checked true input) = true) as ->.
    { unfold matchesSelected. destruct input; simpl in *. now rewrite Hkind, Hfs. }
    reflexivity.
  - intros e He. apply in_or_app. now right.
  - intros e He. apply in_or_app. now left.
Qed.

End Hover.

Lemma userPicks_radio (input : Element) (fieldset : nat) (s : State) :
  el_kind input = EInput true ->
  el_fieldset input = Some fieldset ->
  userPicks input s
  = set_controls
      (map (fun e => if isRadio e && inFieldset fieldset e
                     then set_checked (Nat.eqb (el_node e) (el_node input)) e
                     else e)
         (controls (picker s))) s.
Proof. intros Hk Hf. unfold userPicks. rewrite Hk, Hf. reflexivity. Qed.

Lemma requestUrlFor_radio (input : Element) (s : State) :
  el_kind input = EInput true ->
  fst (requestUrlFor input s)
  = fst (buildRequestUrl input None []
           (set_controls
              (map (fun e => if Nat.eqb (el_node e) (el_node input)
                             then set_checked true e else e)
                 (controls (picker s))) s)).
Proof.
  intros Hk. unfold requestUrlFor, updateSelectedOption. rewrite Hk.
  unfold bind at 1. unfold modify at 1. cbv iota beta.
  unfold bind at 1. unfold emit, modify at 1. cbv iota beta.
  rewrite !buildRequestUrl_result. destruct s; reflexivity.
Qed.

Lemma hover_ids (fieldset : nat) (input : Element) (l : list Element) :
  (forall e, In e l -> inFieldset fieldset e = false) ->
  (forall e, In e l -> Js.truthy (el_optionValueId e) = true) ->
  flat_map
    (fun opt =>
       match (if inFieldset fieldset opt then el_optionValueId input
              else el_optionValueId opt) with
       | Some id => [id]
       | None => []
       end) l
  = map idOf l.
Proof.
  induction l as [|e l IH]; simpl; intros Hf Ht; [reflexivity|].
  rewrite (Hf e) by now left. specialize (Ht e (or_introl eq_refl)) as T.
  unfold idOf at 1. destruct (el_optionValueId e); [|discriminate T]. simpl.
  f_equal. apply IH; intros x Hx; [apply Hf | apply Ht]; now right.
Qed.

Lemma set_checked_id (b : bool) (e : Element) :
  el_optionValueId (set_checked b e) = el_optionValueId e.
Proof. destruct e; reflexivity. Qed.



(* ------------------------------------------------------------------ *)
(** ** The debounce timer of the image preloader *)

Section Debounce.

Import Preloader.

Lemma clearDebounce_clears (i : Instance) :
  oneTimer i ->
  hoverDebounceTimer (clearDebounce i) = None /\ timeouts (clearDebounce i) = [].
Proof.
  unfold clearDebounce. intros [[Ht Hl] | (id & c & Ht & Hl)]; rewrite Ht.
  - now split.
  - simpl. rewrite Hl. simpl. rewrite Nat.eqb_refl. now split.
Qed.

Lemma debouncedPreload_sets (colorValue : string) (i : Instance) :
  oneTimer i ->
  let i' := debouncedPreload colorValue i in
  hoverDebounceTimer i' = Some (nextTimeout i)
  /\ timeouts i' = [(nextTimeout i, colorValue)]
  /\ core i' = core i.
Proof.
  intros J. destruct (clearDebounce_clears i J) as [Ht Hl].
  unfold debouncedPreload. simpl. rewrite Hl.
  unfold clearDebounce. destruct (hoverDebounceTimer i); repeat split.
Qed.

Lemma step_oneTimer (colorKey : string -> string) (images : string -> nat)
  (e : Event) (i : Instance) :
  oneTimer i -> oneTimer (step colorKey images e i).
Proof.
  intros J. destruct e as [[[colorValue [|]]|]|[|]|id|key|]; simpl; try exact J.
  - destruct (debouncedPreload_sets colorValue i J) as (Ht & Hl & _).
    right. now exists (nextTimeout i), colorValue.
  - left. now apply clearDebounce_clears.
  - destruct J as [[Ht Hl] | (id' & c & Ht & Hl)]; rewrite Hl; simpl.
    + left. now split.
    + destruct (Nat.eqb id' id) eqn:E; unfold oneTimer; simpl.
      * left. now split.
      * right. exists id', c. rewrite Hl. now split.
  - left. unfold disconnectedCallback. simpl. now apply clearDebounce_clears.
Qed.

Lemma run_oneTimer (colorKey : string -> string) (images : string -> nat)
  (events : list Event) (i : Instance) :
  oneTimer i -> oneTimer (run colorKey images events i).
Proof.
  revert i. induction events as [|e events IH]; intros i J; [exact J|].
  simpl. apply IH. now apply step_oneTimer.
Qed.


End Debounce.

(** X14. Asking for another width of an image URL that already carries a
    width gives what asking for that width of the original URL gives: the
    query string is dropped before the width is added. *)
Theorem getImageUrl_resize (src width width' : string) :
  Preloader.getImageUrl (Preloader.getImageUrl src width) width'
  = Preloader.getImageUrl src width'
  /\ (src <> EmptyString ->
      Js.before "?" (Preloader.getImageUrl src width) = Js.before "?" src).
Proof.
  assert (forall s t, Js.before "?" (Js.before "?" s ++ String "?" t)
                      = Js.before "?" s) as Hb.
  { induction s as [|a s IH]; intros t; simpl; [reflexivity|].
    destruct (Ascii.eqb a "?") eqn:E; simpl; [reflexivity|].
    now rewrite E, IH. }
  unfold Preloader.getImageUrl.
  destruct (src =? EmptyString) eqn:E; [split; [reflexivity|]|].
  - intros H. apply String.eqb_eq in E. contradiction.
  - change ("?width=" ++ width)%string with (String "?" ("width=" ++ width)).
    rewrite append_nonempty, Hb. split; reflexivity.
Qed.

(* ------------------------------------------------------------------ *)
(** ** The images the gallery hides *)

Section GalleryFilter.

Import Gallery.

Lemma push_items (fileName : string) (item : Item) (m : list (string * list Item)) :
  Permutation (itemsOf (push fileName item m)) (item :: itemsOf m).
Proof.
  unfold itemsOf. induction m as [|[k items] m IH]; simpl.
  - reflexivity.
  - destruct (k =? fileName); simpl.
    + rewrite <- app_assoc. simpl.
      symmetry. apply Permutation_middle.
    + rewrite IH. symmetry. apply Permutation_middle.
Qed.

Lemma push_nonempty (fileName : string) (item : Item) (m : list (string * list Item)) :
  (forall k items, In (k, items) m -> items <> []) ->
  forall k items, In (k, items) (push fileName item m) -> items <> [].
Proof.
  induction m as [|[k0 items0] m IH]; simpl; intros H k items Hin.
  - destruct Hin as [[= <- <-] | []]. discriminate.
  - destruct (k0 =? fileName).
    + destruct Hin as [[= <- <-] | Hin].
      * destruct items0; discriminate.
      * apply (H k items). now right.
    + destruct Hin as [[= <- <-] | Hin].
      * apply (H k0 items0). now left.
      * apply IH with k; [|exact Hin]. intros k' items' H'. apply (H k' items').
        now right.
Qed.

Lemma collected_push (gallery : list Media) (n : nat) (fileName : string)
  (media : Media) (m : list (string * list Item)) :
  collected gallery n m ->
  nth_error gallery n = Some media ->
  m_src media <> None ->
  collected gallery (S n) (push fileName (media, n) m).
Proof.
  intros (Hitems & Hnodup & Hne) Hnth Hsrc.
  pose proof (push_items fileName (media, n) m) as P.
  split; [|split].
  - intros item Hin. apply (Permutation_in _ P) in Hin as [<- | Hin].
    + simpl. split; [lia | now split].
    + destruct (Hitems item Hin) as (Hlt & H). split; [lia | exact H].
  - apply (Permutation_NoDup (Permutation_sym (Permutation_map snd P))).
    simpl. constructor; [|exact Hnodup].
    intros Hin. apply in_map_iff in Hin as (item & E & Hin).
    destruct (Hitems item Hin) as (Hlt & _). lia.
  - now apply push_nonempty.
Qed.

Lemma collected_skip (gallery : list Media) (n : nat)
  (m : list (string * list Item)) :
  collected gallery n m -> collected gallery (S n) m.
Proof.
  intros (Hitems & Hnodup & Hne). split; [|now split].
  intros item Hin. destruct (Hitems item Hin) as (Hlt & H). split; [lia | exact H].
Qed.

Lemma collect_collected (done rest : list Media) (m : list (string * list Item)) :
  collected (done ++ rest) (length done) m ->
  collected (done ++ rest) (length (done ++ rest))
    (collect rest (length done) m).
Proof.
  revert done m. induction rest as [|media rest IH]; intros done m H; simpl.
  - now rewrite app_nil_r in *.
  - assert (done ++ media :: rest = (done ++ [media]) ++ rest) as E
        by now rewrite <- app_assoc.
    assert (S (length done) = length (done ++ [media])) as El
        by (rewrite length_app; simpl; lia).
    assert (nth_error (done ++ media :: rest) (length done) = Some media) as Hnth
        by now rewrite nth_error_app2, Nat.sub_diag.
    rewrite El, E. apply IH. rewrite <- El, <- E.
    destruct (m_src media) as [src|] eqn:Hsrc; [|now apply collected_skip].
    destruct (src =? EmptyString); [now apply collected_skip|].
    destruct (fileNameOf src =? EmptyString); [now apply collected_skip|].
    apply collected_push; [exact H | exact Hnth | now rewrite Hsrc].
Qed.

Lemma add_In (index i : nat) (set : list nat) :
  In i (add index set) <-> In i set \/ i = index.
Proof.
  unfold add. destruct (existsb (Nat.eqb index) set) eqn:E.
  - split; [now left|]. intros [H | ->]; [exact H|].
    apply existsb_exists in E as (x & Hx & Ex). apply Nat.eqb_eq in Ex. now subst.
  - rewrite in_app_iff. simpl. intuition.
Qed.

Lemma add_NoDup (index : nat) (set : list nat) : NoDup set -> NoDup (add index set).
Proof.
  intros H. unfold add. destruct (existsb (Nat.eqb index) set) eqn:E; [exact H|].
  apply NoDup_app; [exact H | repeat constructor; intros [] |].
  intros x Hx [Ei | []]. subst x.
  assert (existsb (Nat.eqb index) set = true) as E'; [|congruence].
  apply existsb_exists. exists index. split; [exact Hx | apply Nat.eqb_refl].
Qed.

Lemma hideAll_In (items : list Item) (set : list nat) (i : nat) :
  In i (hideAll items set)
  <-> In i set \/ exists item, In item items /\ m_html (fst item) = true
                               /\ snd item = i.
Proof.
  unfold hideAll. revert set. induction items as [|item items IH]; intros set; simpl.
  - split; [now left|]. intros [H | (x & [] & _)]. exact H.
  - rewrite IH. destruct (m_html (fst item)) eqn:Eh.
    + rewrite add_In. split.
      * intros [[H | ->] | (x & Hx & Hh & Hi)].
        -- now left.
        -- right. exists item. auto.
        -- right. exists x. auto.
      * intros [H | (x & [<- | Hx] & Hh & Hi)].
        -- left. now left.
        -- left. right. now symmetry.
        -- right. exists x. auto.
    + split.
      * intros [H | (x & Hx & Hh & Hi)]; [now left|]. right. exists x. auto.
      * intros [H | (x & [<- | Hx] & Hh & Hi)]; [now left | congruence |].
        right. exists x. auto.
Qed.

Lemma hideAll_NoDup (items : list Item) (set : list nat) :
  NoDup set -> NoDup (hideAll items set).
Proof.
  unfold hideAll. revert set. induction items as [|item items IH]; intros set H; simpl.
  - exact H.
  - apply IH. destruct (m_html (fst item)); [now apply add_NoDup | exact H].
Qed.

Lemma hideGroup_candidates (shortest stem : string) (set : list nat)
  (entry : string * list Item) :
  hideGroup shortest stem set entry = hideAll (candidates shortest stem entry) set.
Proof.
  unfold hideGroup, candidates. destruct entry as [fileName items]. simpl.
  destruct (negb (fileName =? shortest) && Js.includes stem fileName); [reflexivity|].
  destruct items as [|a [|b items]]; reflexivity.
Qed.

Lemma hidden_In (shortest stem : string) (m : list (string * list Item))
  (set : list nat) (i : nat) :
  In i (fold_left (hideGroup shortest stem) m set)
  <-> In i set
      \/ exists entry item,
          In entry m /\ In item (candidates shortest stem entry)
          /\ m_html (fst item) = true /\ snd item = i.
Proof.
  revert set. induction m as [|entry m IH]; intros set; simpl.
  - split; [now left|]. intros [H | (e & x & [] & _)]. exact H.
  - rewrite IH, hideGroup_candidates, hideAll_In. split.
    + intros [[H | (x & Hx & Hh & Hi)] | (e & x & He & Hx & Hh & Hi)].
      * now left.
      * right. exists entry, x. auto.
      * right. exists e, x. auto.
    + intros [H | (e & x & [<- | He] & Hx & Hh & Hi)].
      * left. now left.
      * left. right. exists x. auto.
      * right. exists e, x. auto.
Qed.

Lemma hidden_NoDup (shortest stem : string) (m : list (string * list Item))
  (set : list nat) :
  NoDup set -> NoDup (fold_left (hideGroup shortest stem) m set).
Proof.
  revert set. induction m as [|entry m IH]; intros set H; simpl; [exact H|].
  apply IH. rewrite hideGroup_candidates. now apply hideAll_NoDup.
Qed.

Lemma shortestOf_In (length16 : string -> nat) (first : string) (rest : list string) :
  In (shortestOf length16 first rest) (first :: rest).
Proof.
  unfold shortestOf. revert first. induction rest as [|current rest IH]; intros first.
  - now left.
  - simpl fold_left.
    destruct (length16 current <? length16 first)%nat.
    + right. apply IH.
    + destruct (IH first) as [H | H]; [left; exact H | right; now right].
Qed.

Lemma candidates_incl (shortest stem : string) (entry : string * list Item)
  (item : Item) :
  In item (candidates shortest stem entry) -> In item (snd entry).
Proof.
  unfold candidates. destruct (_ && _); [auto|].
  destruct (snd entry); simpl; auto.
Qed.

Lemma itemsOf_In (m : list (string * list Item)) (entry : string * list Item)
  (item : Item) :
  In entry m -> In item (snd entry) -> In item (itemsOf m).
Proof.
  intros He Hi. unfold itemsOf. apply in_concat. exists (snd entry).
  split; [now apply in_map | exact Hi].
Qed.

Lemma itemsOf_app (m1 m2 : list (string * list Item)) :
  itemsOf (m1 ++ m2) = itemsOf m1 ++ itemsOf m2.
Proof. unfold itemsOf. now rewrite map_app, concat_app. Qed.

(** X15. The gallery keeps an image. When [#filterMediaImages] gets as far as
    filtering, the indices it hides are distinct and are those of HTML
    elements with an image; the first element with the shortest file name
    stays, so at least one element is visible and the gallery ends with one
    of the two layout classes. *)
Theorem gallery_keeps_an_image (length16 : string -> nat)
  (gallery : list Media) (hiddenIndices : list nat) (visibleCount : nat) :
  filterMediaImages length16 gallery = Some (hiddenIndices, visibleCount) ->
  NoDup hiddenIndices
  /\ (forall i, In i hiddenIndices ->
                exists media, nth_error gallery i = Some media
                              /\ m_html media = true /\ m_src media <> None)
  /\ (exists i media, nth_error gallery i = Some media
                      /\ m_src media <> None /\ ~ In i hiddenIndices)
  /\ visibleCount = length gallery - length hiddenIndices
  /\ 1 <= visibleCount
  /\ layoutOf visibleCount <> NoLayout.
Proof.
  unfold filterMediaImages.
  destruct (Nat.eqb (length gallery) 0); [discriminate|].
  destruct (collect gallery 0 []) as [|[first items] entries] eqn:Em; [discriminate|].
  set (m := (first, items) :: entries) in *.
  set (shortest := shortestOf length16 first (map fst entries)).
  set (stem := if Js.before "." shortest =? EmptyString then shortest
               else Js.before "." shortest).
  set (hidden := fold_left (hideGroup shortest stem) m []).
  intros H.
  assert (hiddenIndices = hidden
          /\ visibleCount = length gallery - length hidden) as [-> ->]
      by (injection H as <- <-; split; reflexivity).
  clear H.
  assert (collected gallery (length gallery) m) as (Hitems & Hnodup & Hne).
  { rewrite <- Em.
    apply (collect_collected [] gallery []). split; [|split].
    - intros item [].
    - constructor.
    - intros k its []. }
  assert (NoDup hidden) as Hnd by (apply hidden_NoDup; constructor).
  assert (forall i, In i hidden ->
                    exists media, nth_error gallery i = Some media
                                  /\ m_html media = true /\ m_src media <> None)
    as Hhidden.
  { intros i Hi. apply hidden_In in Hi as [[] | (entry & item & He & Hc & Hh & <-)].
    apply candidates_incl in Hc.
    destruct (Hitems item (itemsOf_In m entry item He Hc)) as (_ & Hnth & Hsrc).
    exists (fst item). auto. }
  assert (exists i media, nth_error gallery i = Some media
                          /\ m_src media <> None /\ ~ In i hidden) as Hkept.
  { assert (In shortest (map fst m)) as Hs
        by (unfold m; simpl; apply shortestOf_In).
    apply in_map_iff in Hs as ([k its] & Ek & He). simpl in Ek. subst k.
    destruct its as [|item0 rest]; [now destruct (Hne shortest [] He)|].
    apply in_split in He as (m1 & m2 & Esplit).
    assert (In item0 (itemsOf m)) as H0.
    { rewrite Esplit, itemsOf_app. apply in_or_app. right. now left. }
    destruct (Hitems item0 H0) as (_ & Hnth & Hsrc).
    exists (snd item0), (fst item0). split; [exact Hnth|]. split; [exact Hsrc|].
    intros Hi.
    apply hidden_In in Hi as [[] | (entry & item & He & Hc & Hh & Ei)].
    assert (~ In (snd item0)
              (map snd (itemsOf m1 ++ rest ++ itemsOf m2))) as Hfresh.
    { rewrite Esplit, itemsOf_app in Hnodup.
      change (itemsOf ((shortest, item0 :: rest) :: m2))
        with ((item0 :: rest) ++ itemsOf m2) in Hnodup.
      simpl in Hnodup. rewrite map_app in Hnodup. simpl in Hnodup.
      apply NoDup_remove_2 in Hnodup. now rewrite map_app. }
    apply Hfresh. rewrite <- Ei. apply in_map.
    rewrite Esplit in He. apply in_app_or in He as [He | [<- | He]].
    - apply in_or_app. left. apply (itemsOf_In m1 entry item He).
      now apply candidates_incl in Hc.
    - apply in_or_app. right. apply in_or_app. left.
      unfold candidates in Hc. simpl in Hc.
      now rewrite String.eqb_refl in Hc.
    - apply in_or_app. right. apply in_or_app. right.
      apply (itemsOf_In m2 entry item He). now apply candidates_incl in Hc. }
  assert (S (length hidden) <= length gallery) as Hlen.
  { destruct Hkept as (i0 & media & Hnth & _ & Hout).
    assert (NoDup (i0 :: hidden)) as Hnd' by now constructor.
    apply (NoDup_incl_length (l' := seq 0 (length gallery))) in Hnd'.
    - now rewrite length_seq in Hnd'.
    - intros i [<- | Hi]; apply in_seq; split; try lia; simpl.
      + apply nth_error_Some. now rewrite Hnth.
      + destruct (Hhidden i Hi) as (x & Hx & _). apply nth_error_Some.
        now rewrite Hx. }
  split; [exact Hnd|]. split; [exact Hhidden|]. split; [exact Hkept|].
  split; [reflexivity|]. split; [lia|].
  unfold layoutOf.
  destruct (Nat.eqb (length gallery - length hidden) 1) eqn:E1; [discriminate|].
  destruct (1 <? length gallery - length hidden)%nat eqn:E2; [discriminate|].
  apply Nat.eqb_neq in E1. apply Nat.ltb_ge in E2. lia.
Qed.

Lemma gallery_keeps_an_image_witness :
  let img src := mkMedia (Some src) true in
  let gallery :=
    [img "//cdn/files/shirt.jpg?v=1"; img "//cdn/files/shirt_2.jpg?v=1";
     img "//cdn/files/shirt.jpg?v=2"; mkMedia None true] in
  filterMediaImages String.length gallery = Some ([2; 1], 2)
  /\ NoDup [2; 1] /\ 1 <= 2.
Proof.
  intros img gallery.
  assert (filterMediaImages String.length gallery = Some ([2; 1], 2)) as E
      by (vm_compute; reflexivity).
  split; [exact E|].
  destruct (gallery_keeps_an_image String.length gallery [2; 1] 2 E)
    as (Hnd & _ & _ & _ & Hvis & _).
  split; [exact Hnd | exact Hvis].
Defined.

End GalleryFilter.
